(** * Expense Tracker: a shallow embedding of [expensetracker.py]

    The program keeps a list of expense records in the module-level variable
    [expenses], stores it as JSON text in [expenses.txt] and talks to the
    user through [input] and [print].  The development follows the source
    file from top to bottom:

    - text ([str] as a sequence of code points), [strip], [lower];
    - numbers: Python [int] as [Z], Python [float] as binary64 values of
      [SpecFloat], the conversions [int(...)] and [float(...)] from text;
    - dates: [strptime] and [strftime] for the two formats the program uses;
    - JSON: the values [json.load] returns, the text [json.dump(..., indent=4)]
      writes, and the decoder;
    - the program state (ledger, backing file, terminal) and the functions
      [load_expenses], [save_expenses], [ask_again], [view_expenses],
      [add_expense], [remove_expense] and [monthly_summary];
    - the properties of the specification.

    Three library functions are parameters of the development, because
    their full tables are not reproduced here: the decimal value of a
    non-ASCII digit, [str.capitalize] and [float.__repr__].  Two more
    parameters stand for what the platform decides: how deep the
    interpreter lets [json.load] go into nested arrays and objects, and
    whether [strftime] fills a year below 1000 with zeros. *)

From Stdlib Require Import ZArith NArith List Bool String Ascii Lia.
From Stdlib Require Import SpecFloat.
From Stdlib Require DecimalN DecimalPos.
From stdpp Require Import base option list.

Open Scope Z_scope.

(** ** Text *)

(** A Python [str] is a sequence of Unicode code points. *)
Definition str := list N.

(** A literal of the source, given as a Rocq string of ASCII characters. *)
Definition lit (s : string) : str := map N_of_ascii (list_ascii_of_string s).

(** [str.isspace] on one code point: the whitespace set of CPython. *)
Definition isspace (c : N) : bool :=
  ((9 <=? c) && (c <=? 13) || (28 <=? c) && (c <=? 32) || (c =? 133) ||
   (c =? 160) || (c =? 5760) || (8192 <=? c) && (c <=? 8202) ||
   (c =? 8232) || (c =? 8233) || (c =? 8239) || (c =? 8287) || (c =? 12288))%N.

Fixpoint lstrip (s : str) : str :=
  match s with
  | c :: r => if isspace c then lstrip r else s
  | [] => []
  end.

Definition rstrip (s : str) : str := rev (lstrip (rev s)).

(** [s.strip()] *)
Definition strip (s : str) : str := rstrip (lstrip s).

(** [s.lower()].  Only the letters A-Z are mapped.  The program uses
    [lower] once, to compare the answer with "yes" and "no"; no code point
    outside ASCII lowercases to a letter of these two words, so the
    comparison is decided by the ASCII letters alone. *)
Definition lower_char (c : N) : N :=
  if ((65 <=? c) && (c <=? 90))%N then (c + 32)%N else c.

Definition lower (s : str) : str := map lower_char s.

Definition str_eqb (a b : str) : bool := bool_decide (a = b).

(** ** Numbers *)

(** A Python [float]: an IEEE 754 binary64 value. *)
Definition float := spec_float.

Definition prec : Z := 53.
Definition emax : Z := 1024.

Definition float_zero : float := S754_zero false.
Definition float_add : float -> float -> float := SFadd prec emax.
Definition float_ltb : float -> float -> bool := SFltb.
Definition float_leb : float -> float -> bool := SFleb.

Definition is_nan (f : float) : bool :=
  match f with S754_nan => true | _ => false end.

Definition is_finite (f : float) : bool :=
  match f with S754_zero _ | S754_finite _ _ _ => true | _ => false end.

(** [float(z)] for a Python int: the nearest binary64 value, ties to even;
    [None] stands for [OverflowError] (int too large to convert). *)
Definition float_of_int (z : Z) : option float :=
  let f := binary_normalize prec emax z 0 false in
  if is_finite f then Some f else None.

(** The binary64 value nearest to [(-1)^neg * m * 10^e], ties to even:
    what [float] returns for a decimal numeral.  A product with a
    non-negative power of ten is an integer and is rounded once; a negative
    power of ten is divided out with one rounding of the exact quotient. *)
Definition float_of_decimal (neg : bool) (m : N) (e : Z) : float :=
  match m with
  | N0 => S754_zero neg
  | Npos p =>
      match e with
      | Zneg k =>
          SFdiv prec emax (S754_finite neg p 0) (S754_finite false (10 ^ k) 0)
      | Z0 => binary_normalize prec emax (if neg then Zneg p else Zpos p) 0 false
      | Zpos k =>
          let n := (p * 10 ^ k)%positive in
          binary_normalize prec emax (if neg then Zneg n else Zpos n) 0 false
      end
  end.

(** The value of a sequence of decimal digits, most significant first. *)
Definition digits_value (ds : list N) : N :=
  fold_left (fun acc d => (10 * acc + d)%N) ds 0%N.

Section Digits.

(** The decimal digit value of a code point outside ASCII (the Unicode
    property [Nd], for instance the Arabic-Indic digits), [None] for a code
    point that is not a decimal digit. *)
Variable unicode_digit : N -> option N.

Definition digit_value (c : N) : option N :=
  if ((48 <=? c) && (c <=? 57))%N then Some (c - 48)%N
  else if (c <? 128)%N then None
  else unicode_digit c.

Definition is_ascii_digit (c : N) : bool := ((48 <=? c) && (c <=? 57))%N.

(** [int] and [float] first replace every non-ASCII digit by its ASCII digit
    and every non-ASCII whitespace by a space; any other non-ASCII code point
    becomes '?', which no numeral contains. *)
Definition to_ascii_char (c : N) : N :=
  if (c <? 127)%N then c
  else if isspace c then 32%N
  else match digit_value c with
       | Some d => (48 + d)%N
       | None => 63%N
       end.

(** The whitespace the C parsers skip at both ends: space, \t \n \v \f \r. *)
Definition c_isspace (c : N) : bool := ((c =? 32) || (9 <=? c) && (c <=? 13))%N.

Fixpoint c_lstrip (s : str) : str :=
  match s with
  | c :: r => if c_isspace c then c_lstrip r else s
  | [] => []
  end.

Definition c_strip (s : str) : str := rev (c_lstrip (rev (c_lstrip s))).

(** Underscores in a numeral: each must stand between two digits.  Returns
    the text without them, [None] when one is misplaced. *)
Fixpoint drop_underscores (prev_digit : bool) (s : str) : option str :=
  match s with
  | [] => Some []
  | c :: r =>
      if (c =? 95)%N then
        match r with
        | d :: _ =>
            if prev_digit && is_ascii_digit d then drop_underscores false r
            else None
        | [] => None
        end
      else option_map (cons c) (drop_underscores (is_ascii_digit c) r)
  end.

(** The longest prefix of ASCII digits, as digit values, and the rest. *)
Fixpoint take_digits (s : str) : list N * str :=
  match s with
  | c :: r =>
      if is_ascii_digit c then
        let '(ds, r') := take_digits r in ((c - 48)%N :: ds, r')
      else ([], s)
  | [] => ([], [])
  end.

(** An optional sign: [true] for '-'. *)
Definition take_sign (s : str) : bool * str :=
  match s with
  | 45%N :: r => (true, r)
  | 43%N :: r => (false, r)
  | _ => (false, s)
  end.

(** The most digits that [int] converts from or to text, whatever the
    value: [sys.int_info.default_max_str_digits]. *)
Definition max_str_digits : nat := 4300.

(** [int(s)] in base 10; [None] stands for [ValueError]: the text is no
    numeral, or it has more than [max_str_digits] digits (zeros in front
    are counted, underscores are not). *)
Definition py_int (s : str) : option Z :=
  match drop_underscores false (c_strip (map to_ascii_char s)) with
  | None => None
  | Some t =>
      let '(neg, t1) := take_sign t in
      match take_digits t1 with
      | ((_ :: _) as ds, []) =>
          if (length ds <=? max_str_digits)%nat then
            let n := Z.of_N (digits_value ds) in
            Some (if neg then - n else n)
          else None
      | _ => None
      end
  end.

(** The exponent part of a decimal numeral: 'e' or 'E', an optional sign and
    at least one digit, up to the end of the text.  No exponent part is
    exponent 0. *)
Definition take_exponent (s : str) : option Z :=
  match s with
  | [] => Some 0
  | c :: r =>
      if ((c =? 101) || (c =? 69))%N then
        let '(neg, r1) := take_sign r in
        match take_digits r1 with
        | ((_ :: _) as ds, []) =>
            let n := Z.of_N (digits_value ds) in
            Some (if neg then - n else n)
        | _ => None
        end
      else None
  end.

(** A decimal numeral without sign: digits, an optional point and further
    digits (at least one digit in all), an optional exponent. *)
Definition decimal_numeral (neg : bool) (s : str) : option float :=
  let '(ip, r) := take_digits s in
  let '(fp, r1) :=
    match r with
    | 46%N :: r' => take_digits r'
    | _ => ([], r)
    end in
  match ip ++ fp with
  | [] => None
  | ds =>
      match take_exponent r1 with
      | Some e =>
          Some (float_of_decimal neg (digits_value ds) (e - Z.of_nat (length fp)))
      | None => None
      end
  end.

(** [float(s)]; [None] stands for [ValueError].  Besides decimal numerals the
    words inf, infinity and nan are read, in any case, with a sign. *)
Definition py_float (s : str) : option float :=
  let t := c_strip (map to_ascii_char s) in
  let '(neg, w) := take_sign t in
  let lw := lower w in
  if str_eqb lw (lit "inf") || str_eqb lw (lit "infinity") then
    Some (S754_infinity neg)
  else if str_eqb lw (lit "nan") then Some S754_nan
  else
    match drop_underscores false t with
    | None => None
    | Some t' =>
        let '(neg', u) := take_sign t' in decimal_numeral neg' u
    end.

(** ** Dates *)

(** The fields of a [datetime] the program uses. *)
Record date := Date { day : N; month : N; year : N }.

Definition is_leap (y : N) : bool :=
  ((y mod 4 =? 0) && (negb (y mod 100 =? 0) || (y mod 400 =? 0)))%N.

Definition days_in_month (y m : N) : N :=
  match m with
  | 2 => if is_leap y then 29 else 28
  | 4 | 6 | 9 | 11 => 30
  | _ => 31
  end%N.

(** The dates a [datetime] can hold. *)
Definition valid_date (d : date) : bool :=
  ((1 <=? year d) && (year d <=? 9999) && (1 <=? month d) && (month d <=? 12) &&
   (1 <=? day d) && (day d <=? days_in_month (year d) (month d)))%N.

(** An ASCII character range of a regular expression, such as [[1-9]]. *)
Definition in_range (lo hi c : N) : bool := ((lo <=? c) && (c <=? hi))%N.

Definition two_digits (n : N) : str := [(48 + n / 10 mod 10)%N; (48 + n mod 10)%N].

Definition four_digits (n : N) : str :=
  [(48 + n / 1000 mod 10)%N; (48 + n / 100 mod 10)%N;
   (48 + n / 10 mod 10)%N; (48 + n mod 10)%N].

(** The decimal digits of a number below 10000, with no zero in front. *)
Definition plain_digits (n : N) : str :=
  if (n <? 10)%N then [(48 + n)%N]
  else if (n <? 100)%N then two_digits n
  else if (n <? 1000)%N then
    [(48 + n / 100 mod 10)%N; (48 + n / 10 mod 10)%N; (48 + n mod 10)%N]
  else four_digits n.

(** The directive [%Y] of [strftime].  The C library of the platform
    writes the year: some fill it with zeros to four digits ([pad]), others
    (glibc) write it as it is, 999 for the year 999.  From the year 1000 on
    the two agree. *)
Definition strftime_Y (pad : bool) (y : N) : str :=
  if pad then four_digits y else plain_digits y.

(** [d.strftime("%d-%m-%Y")] *)
Definition strftime_dmY (pad : bool) (d : date) : str :=
  two_digits (day d) ++ 45%N :: two_digits (month d) ++ 45%N ::
  strftime_Y pad (year d).

(** [d.strftime("%m-%Y")] *)
Definition strftime_mY (pad : bool) (d : date) : str :=
  two_digits (month d) ++ 45%N :: strftime_Y pad (year d).

(** The directive [%d] followed by '-': one of the alternatives
    [3[0-1]], [[1-2]\d], [0[1-9]], [[1-9]], [ [1-9]]. *)
Definition strptime_day (s : str) : option (N * str) :=
  match s with
  | c1 :: 45%N :: r =>
      if in_range 49 57 c1 then Some ((c1 - 48)%N, r) else None
  | c1 :: c2 :: 45%N :: r =>
      if (c1 =? 51)%N && in_range 48 49 c2 then Some ((30 + (c2 - 48))%N, r)
      else if in_range 49 50 c1 then
        match digit_value c2 with
        | Some d => Some ((10 * (c1 - 48) + d)%N, r)
        | None => None
        end
      else if ((c1 =? 48) || (c1 =? 32))%N && in_range 49 57 c2 then
        Some ((c2 - 48)%N, r)
      else None
  | _ => None
  end.

(** The directive [%m] followed by '-': [1[0-2]], [0[1-9]] or [[1-9]]. *)
Definition strptime_month (s : str) : option (N * str) :=
  match s with
  | c1 :: 45%N :: r =>
      if in_range 49 57 c1 then Some ((c1 - 48)%N, r) else None
  | c1 :: c2 :: 45%N :: r =>
      if (c1 =? 49)%N && in_range 48 50 c2 then Some ((10 + (c2 - 48))%N, r)
      else if (c1 =? 48)%N && in_range 49 57 c2 then Some ((c2 - 48)%N, r)
      else None
  | _ => None
  end.

(** The directive [%Y] at the end of the text: exactly four digits. *)
Definition strptime_year (s : str) : option N :=
  match s with
  | [c1; c2; c3; c4] =>
      match digit_value c1, digit_value c2, digit_value c3, digit_value c4 with
      | Some d1, Some d2, Some d3, Some d4 => Some (digits_value [d1; d2; d3; d4])
      | _, _, _, _ => None
      end
  | _ => None
  end.

(** [datetime.strptime(s, "%d-%m-%Y")]; [None] stands for [ValueError]: the
    text does not match the format, or names no day of the calendar. *)
Definition strptime_dmY (s : str) : option date :=
  match strptime_day s with
  | Some (d, r) =>
      match strptime_month r with
      | Some (m, r') =>
          match strptime_year r' with
          | Some y =>
              let dt := Date d m y in
              if valid_date dt then Some dt else None
          | None => None
          end
      | None => None
      end
  | None => None
  end.

(** [datetime.strptime(s, "%d-%m-%Y").strftime("%m-%Y")] *)
Definition month_key (pad : bool) (s : str) : option str :=
  option_map (strftime_mY pad) (strptime_dmY s).

End Digits.

(** ** Values *)

(** The Python values the program handles: what [json.load] can return, and
    the record [add_expense] builds.  A [dict] keeps its keys in insertion
    order, so it is an association list (without repeated keys). *)
#[local] Unset Elimination Schemes.
Inductive value :=
| VNone
| VBool (b : bool)
| VInt (z : Z)
| VFloat (f : float)
| VStr (s : str)
| VList (l : list value)
| VDict (d : list (str * value)).
#[local] Set Elimination Schemes.

(** [d.get(k)] *)
Fixpoint dict_get {A} (k : str) (d : list (str * A)) : option A :=
  match d with
  | [] => None
  | (k', v) :: r => if str_eqb k k' then Some v else dict_get k r
  end.

(** [d[k] = v]: an existing key keeps its place, a new key goes to the end. *)
Fixpoint dict_set {A} (k : str) (v : A) (d : list (str * A)) : list (str * A) :=
  match d with
  | [] => [(k, v)]
  | (k', v') :: r =>
      if str_eqb k k' then (k, v) :: r else (k', v') :: dict_set k v r
  end.

(** [dict(pairs)] *)
Definition dict_of_pairs {A} (ps : list (str * A)) : list (str * A) :=
  fold_left (fun d kv => dict_set (fst kv) (snd kv) d) ps [].

(** ** JSON text: the encoder of [json.dump(obj, f, indent=4)] *)

(** One lowercase hexadecimal digit. *)
Definition hex_digit (n : N) : N := (if n <? 10 then 48 + n else 87 + n)%N.

(** ['{0:04x}'.format(n)] for [n < 65536] *)
Definition hex4 (n : N) : str :=
  [hex_digit (n / 4096 mod 16)%N; hex_digit (n / 256 mod 16)%N;
   hex_digit (n / 16 mod 16)%N; hex_digit (n mod 16)%N].

(** The replacement of one code point in [encode_basestring_ascii]:
    everything outside ' '..'~', the quote and the backslash are escaped; a
    code point above the basic plane is written as a surrogate pair. *)
Definition escape_char (c : N) : str :=
  match c with
  | 34 => [92; 34]
  | 92 => [92; 92]
  | 10 => [92; 110]
  | 13 => [92; 114]
  | 9 => [92; 116]
  | 8 => [92; 98]
  | 12 => [92; 102]
  | _ =>
      if in_range 32 126 c then [c]
      else if c <? 65536 then 92 :: 117 :: hex4 c
      else
        let n := c - 65536 in
        92 :: 117 :: hex4 (N.lor 55296 (N.land (N.shiftr n 10) 1023)) ++
        92 :: 117 :: hex4 (N.lor 56320 (N.land n 1023))
  end%N.

(** [encode_basestring_ascii(s)] *)
Definition encode_str (s : str) : str :=
  34%N :: flat_map escape_char s ++ [34%N].

Fixpoint uint_digits (d : Decimal.uint) : list N :=
  match d with
  | Decimal.Nil => []
  | Decimal.D0 r => 0 :: uint_digits r
  | Decimal.D1 r => 1 :: uint_digits r
  | Decimal.D2 r => 2 :: uint_digits r
  | Decimal.D3 r => 3 :: uint_digits r
  | Decimal.D4 r => 4 :: uint_digits r
  | Decimal.D5 r => 5 :: uint_digits r
  | Decimal.D6 r => 6 :: uint_digits r
  | Decimal.D7 r => 7 :: uint_digits r
  | Decimal.D8 r => 8 :: uint_digits r
  | Decimal.D9 r => 9 :: uint_digits r
  end%N.

Definition digit_char (d : N) : N := (48 + d)%N.

(** [int.__repr__]: the decimal digits, with '-' for a negative number. *)
Definition int_repr (z : Z) : str :=
  match z with
  | Zneg p => 45%N :: map digit_char (uint_digits (N.to_uint (Npos p)))
  | _ => map digit_char (uint_digits (N.to_uint (Z.to_N z)))
  end.

(** A line break followed by the indentation of nesting level [lvl]. *)
Definition newline_indent (lvl : nat) : str := 10%N :: repeat 32%N (4 * lvl).

Section Encoder.

(** [float.__repr__] for a finite float: the shortest decimal numeral that
    [float] reads back to the same value. *)
Variable float_repr : float -> str.

(** [floatstr] of the encoder *)
Definition encode_float (f : float) : str :=
  match f with
  | S754_nan => lit "NaN"
  | S754_infinity false => lit "Infinity"
  | S754_infinity true => lit "-Infinity"
  | _ => float_repr f
  end.

(** The text of a value at nesting level [lvl], as [_iterencode] yields it
    with [indent=4]: items of a list and of a dict each on a line of their
    own, separated by ',', a key and its value by ': '. *)
Fixpoint encode (lvl : nat) (v : value) : str :=
  match v with
  | VNone => lit "null"
  | VBool true => lit "true"
  | VBool false => lit "false"
  | VInt z => int_repr z
  | VFloat f => encode_float f
  | VStr s => encode_str s
  | VList [] => lit "[]"
  | VList (x :: xs) =>
      91%N :: newline_indent (S lvl) ++ encode (S lvl) x ++
      flat_map (fun y => 44%N :: newline_indent (S lvl) ++ encode (S lvl) y) xs ++
      newline_indent lvl ++ [93%N]
  | VDict [] => lit "{}"
  | VDict (kx :: kxs) =>
      123%N :: newline_indent (S lvl) ++
      encode_str (fst kx) ++ 58%N :: 32%N :: encode (S lvl) (snd kx) ++
      flat_map (fun ky => 44%N :: newline_indent (S lvl) ++
                          encode_str (fst ky) ++ 58%N :: 32%N :: encode (S lvl) (snd ky)) kxs ++
      newline_indent lvl ++ [125%N]
  end.

(** [json.dumps(obj, indent=4)] *)
Definition json_dumps (v : value) : str := encode 0 v.

End Encoder.

(** ** Outcomes *)

(** The exceptions that can leave a function of the program. *)
Inductive exn :=
| FileNotFoundError
| JSONDecodeError
| OSError
| ValueError
| TypeError
| KeyError
| IndexError
| AttributeError
| OverflowError
| RecursionError
| UnicodeDecodeError
| EOFError.

(** The result of running a piece of the program: it returns, it raises, or
    the loop bound of the model is used up.  The last case never occurs:
    every loop of the program reads a line of input in each round, and the
    decoder of JSON consumes the text it is given (see [add_expense_reads],
    [remove_expense_reads], [json_loads_ends] and [program_ends]). *)
Inductive outcome (A : Type) :=
| Return (a : A)
| Raise (e : exn)
| OutOfFuel.

Arguments Return {A} a.
Arguments Raise {A} e.
Arguments OutOfFuel {A}.

Definition obind {A B} (m : outcome A) (k : A -> outcome B) : outcome B :=
  match m with
  | Return a => k a
  | Raise e => Raise e
  | OutOfFuel => OutOfFuel
  end.

Notation "x <~ m ;; k" := (obind m (fun x => k))
  (at level 100, m at next level, k at level 200, right associativity).

(** [except ValueError] also catches its subclasses [JSONDecodeError] and
    [UnicodeDecodeError]. *)
Definition is_ValueError (e : exn) : bool :=
  match e with
  | ValueError | JSONDecodeError | UnicodeDecodeError => true
  | _ => false
  end.

(** ** JSON text: the decoder of [json.load] *)

(** [WHITESPACE]: space, \t, \n, \r *)
Definition json_ws (c : N) : bool :=
  ((c =? 32) || (c =? 9) || (c =? 10) || (c =? 13))%N.

Fixpoint skip_ws (s : str) : str :=
  match s with
  | c :: r => if json_ws c then skip_ws r else s
  | [] => []
  end.

Definition hex_value (c : N) : option N :=
  if in_range 48 57 c then Some (c - 48)%N
  else if in_range 97 102 c then Some (c - 87)%N
  else if in_range 65 70 c then Some (c - 55)%N
  else None.

(** The four hexadecimal digits of a [\uXXXX] escape. *)
Definition hex4_value (c1 c2 c3 c4 : N) : option N :=
  match hex_value c1, hex_value c2, hex_value c3, hex_value c4 with
  | Some a, Some b, Some c, Some d => Some (4096 * a + 256 * b + 16 * c + d)%N
  | _, _, _, _ => None
  end.

Definition is_high_surrogate (c : N) : bool := in_range 55296 56319 c.
Definition is_low_surrogate (c : N) : bool := in_range 56320 57343 c.

(** The character after a backslash ([BACKSLASH] of the decoder). *)
Definition unescape (c : N) : option N :=
  match c with
  | 34 => Some 34
  | 92 => Some 92
  | 47 => Some 47
  | 98 => Some 8
  | 102 => Some 12
  | 110 => Some 10
  | 114 => Some 13
  | 116 => Some 9
  | _ => None
  end%N.

(** [scanstring], after the opening quote: the decoded text and what
    follows the closing quote.  A control character is refused (strict
    mode); a high surrogate escape directly followed by a low surrogate
    escape is one code point. *)
Fixpoint scanstring (s : str) : option (str * str) :=
  match s with
  | [] => None
  | 34%N :: r => Some ([], r)
  | 92%N :: 117%N :: c1 :: c2 :: c3 :: c4 :: r =>
      match hex4_value c1 c2 c3 c4 with
      | None => None
      | Some u =>
          let single :=
            match scanstring r with
            | Some (t, r') => Some (u :: t, r')
            | None => None
            end in
          if is_high_surrogate u then
            match r with
            | 92%N :: 117%N :: d1 :: d2 :: d3 :: d4 :: r2 =>
                match hex4_value d1 d2 d3 d4 with
                | None => None
                | Some u2 =>
                    if is_low_surrogate u2 then
                      match scanstring r2 with
                      | Some (t, r') =>
                          Some ((65536 + N.lor (N.shiftl (u - 55296) 10) (u2 - 56320))%N :: t, r')
                      | None => None
                      end
                    else single
                end
            | _ => single
            end
          else single
      end
  | 92%N :: e :: r =>
      match unescape e with
      | Some c =>
          match scanstring r with
          | Some (t, r') => Some (c :: t, r')
          | None => None
          end
      | None => None
      end
  | c :: r =>
      if (c <? 32)%N || (c =? 92)%N then None
      else
        match scanstring r with
        | Some (t, r') => Some (c :: t, r')
        | None => None
        end
  end.

(** A number ([_match_number]): an optional '-', an integer part without
    leading zeros, an optional fraction, an optional exponent.  With a
    fraction or an exponent the numeral is a float, otherwise an int. *)
Definition scan_number (s : str) : option (value * str) :=
  let '(neg, s1) := match s with 45%N :: r => (true, r) | _ => (false, s) end in
  let int_part :=
    match s1 with
    | 48%N :: r => Some ([0%N], r)
    | c :: _ => if in_range 49 57 c then Some (take_digits s1) else None
    | [] => None
    end in
  match int_part with
  | None => None
  | Some (ip, r) =>
      let '(fp, r1) :=
        match r with
        | 46%N :: r' =>
            match take_digits r' with
            | ([], _) => ([], r)
            | (ds, r'') => (ds, r'')
            end
        | _ => ([], r)
        end in
      let '(ex, r2) :=
        match r1 with
        | c :: r' =>
            if ((c =? 101) || (c =? 69))%N then
              let '(eneg, r'') :=
                match r' with
                | 45%N :: t => (true, t)
                | 43%N :: t => (false, t)
                | _ => (false, r')
                end in
              match take_digits r'' with
              | ([], _) => (None, r1)
              | (ds, r3) =>
                  let n := Z.of_N (digits_value ds) in
                  (Some (if eneg then - n else n), r3)
              end
            else (None, r1)
        | [] => (None, r1)
        end in
      match fp, ex with
      | [], None =>
          let n := Z.of_N (digits_value ip) in
          Some (VInt (if neg then - n else n), r2)
      | _, _ =>
          Some (VFloat (float_of_decimal neg (digits_value (ip ++ fp))
                          (default 0 ex - Z.of_nat (length fp))), r2)
      end
  end.

(** [s] starts with the word [w]: the rest after it. *)
Fixpoint strip_prefix (w s : str) : option str :=
  match w, s with
  | [], _ => Some s
  | a :: w', b :: s' => if (a =? b)%N then strip_prefix w' s' else None
  | _ :: _, [] => None
  end.

(** [parse_int] of the decoder is [int], which refuses a numeral of more
    than [max_str_digits] digits with [ValueError].  An integer numeral of
    JSON has no zero in front, so it has more digits than that exactly
    when its value reaches [10 ^ max_str_digits]. *)
Definition parse_int (vr : value * str) : outcome (value * str) :=
  match vr.1 with
  | VInt z =>
      if Z.abs z <? 10 ^ Z.of_nat max_str_digits then Return vr
      else Raise ValueError
  | _ => Return vr
  end.

(** The values that are neither string, object nor array. *)
Definition scan_atom (s : str) : outcome (value * str) :=
  match strip_prefix (lit "null") s with
  | Some r => Return (VNone, r)
  | None =>
  match strip_prefix (lit "true") s with
  | Some r => Return (VBool true, r)
  | None =>
  match strip_prefix (lit "false") s with
  | Some r => Return (VBool false, r)
  | None =>
  match scan_number s with
  | Some vr => parse_int vr
  | None =>
  match strip_prefix (lit "NaN") s with
  | Some r => Return (VFloat S754_nan, r)
  | None =>
  match strip_prefix (lit "Infinity") s with
  | Some r => Return (VFloat (S754_infinity false), r)
  | None =>
  match strip_prefix (lit "-Infinity") s with
  | Some r => Return (VFloat (S754_infinity true), r)
  | None => Raise JSONDecodeError
  end end end end end end end.

(** [scan_once]: one value at the start of [s], and the rest of the text.
    [scan_items] reads the items of an array after '[', [scan_members] the
    members of an object after '{'; both stop behind the closing bracket.
    [depth] is the number of arrays and objects, one inside the other, that
    the interpreter still lets the scanner enter: entering one more raises
    [RecursionError].  [fuel] bounds the number of calls of the model. *)
Fixpoint scan_once (fuel depth : nat) (s : str) : outcome (value * str) :=
  match fuel with
  | O => OutOfFuel
  | S n =>
      match s with
      | 34%N :: r =>
          match scanstring r with
          | Some (t, r') => Return (VStr t, r')
          | None => Raise JSONDecodeError
          end
      | 123%N :: r =>
          match depth with
          | O => Raise RecursionError
          | S d =>
              match skip_ws r with
              | 125%N :: r' => Return (VDict [], r')
              | r' =>
                  ps <~ scan_members n d r' ;;
                  Return (VDict (dict_of_pairs ps.1), ps.2)
              end
          end
      | 91%N :: r =>
          match depth with
          | O => Raise RecursionError
          | S d =>
              match skip_ws r with
              | 93%N :: r' => Return (VList [], r')
              | r' =>
                  vs <~ scan_items n d r' ;;
                  Return (VList vs.1, vs.2)
              end
          end
      | _ => scan_atom s
      end
  end
with scan_items (fuel depth : nat) (s : str) : outcome (list value * str) :=
  match fuel with
  | O => OutOfFuel
  | S n =>
      v <~ scan_once n depth s ;;
      match skip_ws v.2 with
      | 93%N :: r' => Return ([v.1], r')
      | 44%N :: r' =>
          vs <~ scan_items n depth (skip_ws r') ;;
          Return (v.1 :: vs.1, vs.2)
      | _ => Raise JSONDecodeError
      end
  end
with scan_members (fuel depth : nat) (s : str)
  : outcome (list (str * value) * str) :=
  match fuel with
  | O => OutOfFuel
  | S n =>
      match s with
      | 34%N :: r =>
          match scanstring r with
          | None => Raise JSONDecodeError
          | Some (k, r1) =>
              match skip_ws r1 with
              | 58%N :: r2 =>
                  v <~ scan_once n depth (skip_ws r2) ;;
                  match skip_ws v.2 with
                  | 125%N :: r4 => Return ([(k, v.1)], r4)
                  | 44%N :: r4 =>
                      ps <~ scan_members n depth (skip_ws r4) ;;
                      Return ((k, v.1) :: ps.1, ps.2)
                  | _ => Raise JSONDecodeError
                  end
              | _ => Raise JSONDecodeError
              end
          end
      | _ => Raise JSONDecodeError
      end
  end.

(** [json.loads(s)] on an interpreter that lets the scanner enter [limit]
    arrays and objects one inside the other.  It raises
    [json.JSONDecodeError] for a byte order mark, for a text that does not
    start with a value and for text after the value; the [ValueError] of
    [int] and [RecursionError] leave it as they are.  Every call of the
    scanner consumes a character before the next nested call, so twice the
    length of the text is fuel enough (see [json_loads_ends]). *)
Definition json_loads (limit : nat) (s : str) : outcome value :=
  match s with
  | 65279%N :: _ => Raise JSONDecodeError
  | _ =>
      v <~ scan_once (2 * length s + 2) limit (skip_ws s) ;;
      match skip_ws v.2 with
      | [] => Return v.1
      | _ => Raise JSONDecodeError
      end
  end.

(** ** Operations on values *)

(** A Python number: the totals of the monthly summary. *)
Inductive number := NInt (z : Z) | NFloat (f : float).

(** [bool(v)] *)
Definition truthy (v : value) : bool :=
  match v with
  | VNone => false
  | VBool b => b
  | VInt z => negb (z =? 0)
  | VFloat f => negb (SFeqb f float_zero)
  | VStr s => negb (length s =? 0)%nat
  | VList l => negb (length l =? 0)%nat
  | VDict d => negb (length d =? 0)%nat
  end.

(** [v[k]] for a string key [k] *)
Definition subscript (v : value) (k : str) : outcome value :=
  match v with
  | VDict d =>
      match dict_get k d with
      | Some x => Return x
      | None => Raise KeyError
      end
  | _ => Raise TypeError
  end.

(** [len(v)] *)
Definition py_len (v : value) : outcome Z :=
  match v with
  | VList l => Return (Z.of_nat (length l))
  | VDict d => Return (Z.of_nat (length d))
  | VStr s => Return (Z.of_nat (length s))
  | _ => Raise TypeError
  end.

(** [v.append(x)] *)
Definition py_append (v x : value) : outcome value :=
  match v with
  | VList l => Return (VList (l ++ [x]))
  | _ => Raise AttributeError
  end.

(** [v.pop(i)] for an index [0 <= i]: the value without its item [i]. *)
Definition py_pop (v : value) (i : Z) : outcome value :=
  match v with
  | VList l =>
      if (0 <=? i) && (i <? Z.of_nat (length l))
      then Return (VList (delete (Z.to_nat i) l))
      else Raise IndexError
  | VDict _ => Raise KeyError
  | _ => Raise AttributeError
  end.

(** [format(v, ".2f")]: the number that is printed with two decimals. *)
Definition format_2f (v : value) : outcome number :=
  match v with
  | VInt z =>
      match float_of_int z with
      | Some _ => Return (NInt z)
      | None => Raise OverflowError
      end
  | VBool b => Return (NInt (if b then 1 else 0))
  | VFloat f => Return (NFloat f)
  | VStr _ => Raise ValueError
  | _ => Raise TypeError
  end.

(** [total + v] for a number [total] *)
Definition add_amount (total : number) (v : value) : outcome number :=
  let add_int (z : Z) :=
    match total with
    | NInt t => Return (NInt (t + z))
    | NFloat t =>
        match float_of_int z with
        | Some f => Return (NFloat (float_add t f))
        | None => Raise OverflowError
        end
    end in
  match v with
  | VInt z => add_int z
  | VBool b => add_int (if b then 1 else 0)
  | VFloat f =>
      match total with
      | NInt t =>
          match float_of_int t with
          | Some tf => Return (NFloat (float_add tf f))
          | None => Raise OverflowError
          end
      | NFloat t => Return (NFloat (float_add t f))
      end
  | _ => Raise TypeError
  end.

(** ** The program state *)

(** The backing file [expenses.txt]: absent; present but not to be opened
    (a directory in its place, no permission: an [OSError] other than
    [FileNotFoundError]); present with bytes that are no text in the
    encoding of the platform; or present with its text. *)
Inductive file := Missing | Inaccessible | Undecodable | Text (s : str).

(** What [print] and the prompt of [input] write.  The fixed messages are
    kept as text; of a formatted line the values that are formatted. *)
Inductive line :=
| Print (s : str)
| ExpenseLine (i : nat) (date description category : value) (amount : number)
| TotalLine (i : nat) (month : str) (total : number).

(** The global list [expenses], the file, the day the system clock shows,
    the lines the user will type and the lines written so far. *)
Record world := World {
  expenses : value;
  disk : file;
  clock : date;
  stdin : list str;
  stdout : list line
}.

Definition M (A : Type) : Type := world -> outcome A * world.

Definition ret {A} (a : A) : M A := fun w => (Return a, w).

Definition raise {A} (e : exn) : M A := fun w => (Raise e, w).

Definition bind {A B} (m : M A) (k : A -> M B) : M B :=
  fun w =>
    match m w with
    | (Return a, w') => k a w'
    | (Raise e, w') => (Raise e, w')
    | (OutOfFuel, w') => (OutOfFuel, w')
    end.

Notation "x <- m ;; k" := (bind m (fun x => k))
  (at level 100, m at next level, k at level 200, right associativity).
Notation "m ;; k" := (bind m (fun _ => k))
  (at level 100, k at level 200, right associativity).

(** A pure computation inside the program. *)
Definition lift {A} (o : outcome A) : M A := fun w => (o, w).

(** [try: m  except <handles>: h] *)
Definition try_except {A} (m : M A) (handles : exn -> bool) (h : M A) : M A :=
  fun w =>
    match m w with
    | (Raise e, w') => if handles e then h w' else (Raise e, w')
    | r => r
    end.

Definition get_expenses : M value := fun w => (Return (expenses w), w).

Definition set_expenses (v : value) : M unit :=
  fun w => (Return tt, World v (disk w) (clock w) (stdin w) (stdout w)).

(** [print(l)]: the line is written.  The terminal is taken to accept
    every text. *)
Definition print (l : line) : M unit :=
  fun w => (Return tt, World (expenses w) (disk w) (clock w) (stdin w) (stdout w ++ [l])).

(** [input(prompt)]: the prompt is written, the next line is read;
    [EOFError] at the end of the input. *)
Definition input (prompt : str) : M str :=
  fun w =>
    let out := stdout w ++ [Print prompt] in
    match stdin w with
    | [] => (Raise EOFError, World (expenses w) (disk w) (clock w) [] out)
    | s :: r => (Return s, World (expenses w) (disk w) (clock w) r out)
    end.

(** [datetime.now()] *)
Definition now : M date := fun w => (Return (clock w), w).

(** [while True: body], where [body] answers [Some a] when it leaves the
    loop with [a] and [None] when the loop goes on. *)
Fixpoint while_true {A} (fuel : nat) (body : M (option A)) : M A :=
  match fuel with
  | O => fun w => (OutOfFuel, w)
  | S n =>
      r <- body ;;
      match r with
      | Some a => ret a
      | None => while_true n body
      end
  end.

(** Each round of a loop of the program reads a line, so one round more
    than there are lines left is bound enough. *)
Definition loop {A} (body : M (option A)) : M A :=
  fun w => while_true (S (length (stdin w))) body w.

(** A literal that ends with a line break. *)
Definition ln (s : string) : str := lit s ++ [10%N].

(** ["-" * 40] *)
Definition dashes : line := Print (repeat 45%N 40).

(** ** The library parameters on ASCII text

    The three library functions, restricted to ASCII: no digit
    outside ASCII, the case mapping of the letters a-z and A-Z, and the
    [repr] of a float that is a whole number below [10^16] (its digits
    followed by ".0"; the empty text for any other float).  On such input
    they agree with Python; they serve to run the program on concrete
    input. *)

Definition ascii_digits_only : N -> option N := fun _ => None.

Definition upper_char (c : N) : N :=
  if in_range 97 122 c then (c - 32)%N else c.

Definition ascii_capitalize (s : str) : str :=
  match s with
  | [] => []
  | c :: r => upper_char c :: lower r
  end.

Definition repr_whole (f : float) : str :=
  match f with
  | S754_zero s => if s then lit "-0.0" else lit "0.0"
  | S754_finite s m e =>
      let whole :=
        match e with
        | Zneg k => if Zpos m mod 2 ^ Zpos k =? 0 then Some (Zpos m / 2 ^ Zpos k) else None
        | _ => Some (Zpos m * 2 ^ e)
        end in
      match whole with
      | Some z =>
          if z <? 10 ^ 16
          then (if s then [45%N] else []) ++ int_repr z ++ lit ".0"
          else []
      | None => []
      end
  | _ => []
  end.

Section Program.

Variable unicode_digit : N -> option N.

(** [str.capitalize]: the first character in title case, the rest in lower
    case, by the case mappings of Unicode. *)
Variable capitalize : str -> str.

Variable float_repr : float -> str.

(** How many arrays and objects, one inside the other, the interpreter
    lets [json.load] enter before it raises [RecursionError]: the limit
    depends on the interpreter and its settings. *)
Variable recursion_limit : nat.

(** Whether [strftime] on the platform fills the year with zeros to four
    digits. *)
Variable pad_year : bool.

#[local] Set Default Proof Using "Type".

(** ** File operations *)

(** [open("expenses.txt", "r")] and [f.read()]: opening fails on a file
    that is absent or cannot be opened, reading on bytes that do not
    decode. *)
Definition read_file : M str :=
  fun w =>
    match disk w with
    | Missing => (Raise FileNotFoundError, w)
    | Inaccessible => (Raise OSError, w)
    | Undecodable => (Raise UnicodeDecodeError, w)
    | Text s => (Return s, w)
    end.

(** [json.load(f)] *)
Definition json_load : M value :=
  s <- read_file ;;
  lift (json_loads recursion_limit s).

Definition load_expenses : M unit :=
  try_except
    (v <- json_load ;; set_expenses v)
    (fun e => match e with FileNotFoundError | JSONDecodeError => true | _ => false end)
    (set_expenses (VList [])).

(** [open("expenses.txt", "w")] and [json.dump(expenses, f, indent=4)]:
    opening for writing empties the file, whatever it held, or creates
    it.  The ledger is taken to be a value that [json.dump] writes in
    full: no int of more than [max_str_digits] digits, and no nesting
    beyond what the interpreter lets the encoder enter. *)
Definition save_expenses : M unit :=
  fun w =>
    match disk w with
    | Inaccessible => (Raise OSError, w)
    | _ =>
        (Return tt,
         World (expenses w) (Text (json_dumps float_repr (expenses w)))
               (clock w) (stdin w) (stdout w))
    end.

(** ** Helper functions *)

Definition ask_again (prompt : str) : M str :=
  loop (
    line <- input prompt ;;
    let answer := strip (lower line) in
    if str_eqb answer (lit "yes") || str_eqb answer (lit "no") then
      ret (Some answer)
    else
      print (Print (ln "Please respond with 'yes' or 'no'")) ;; ret None).

(** ** Core features *)

(** The [for] loop of [view_expenses], from display number [i] on. *)
Fixpoint view_lines (i : nat) (l : list value) : M unit :=
  match l with
  | [] => ret tt
  | expense :: r =>
      d <- lift (subscript expense (lit "Date")) ;;
      s <- lift (subscript expense (lit "Description")) ;;
      c <- lift (subscript expense (lit "Category")) ;;
      a <- lift (subscript expense (lit "Amount")) ;;
      n <- lift (format_2f a) ;;
      print (ExpenseLine i d s c n) ;;
      view_lines (S i) r
  end.

(** Iterating over a value that is not a list ends in [TypeError]: the keys
    of a dict and the characters of a string cannot be subscripted with
    ['Date'], anything else cannot be iterated. *)
Definition view_expenses : M unit :=
  print dashes ;;
  exps <- get_expenses ;;
  (if negb (truthy exps) then print (Print (ln "No Expenses Yet."))
   else
     match exps with
     | VList l => view_lines 1 l
     | _ => raise TypeError
     end) ;;
  print dashes.

(** [while not text: text = input(prompt)] *)
Definition ask_until_given (prompt : str) (text : str) : M str :=
  match text with
  | [] =>
      loop (
        t <- input prompt ;;
        match t with
        | [] => ret None
        | _ => ret (Some t)
        end)
  | _ => ret text
  end.

(** The loop that asks for the amount. *)
Definition ask_amount : M float :=
  loop (
    line <- input (ln "Enter amount of your expense: ") ;;
    match py_float unicode_digit (strip line) with
    | None => raise ValueError
    | Some amount =>
        if float_ltb amount float_zero then
          print (Print (ln "Amount must be a positive number")) ;; ret None
        else ret (Some amount)
    end).

(** The dict literal of [add_expense]. *)
Definition make_expense (date_today desc category : str) (amount : float) : value :=
  VDict [(lit "Date", VStr date_today);
         (lit "Description", VStr desc);
         (lit "Category", VStr category);
         (lit "Amount", VFloat amount)].

(** One round of the outer loop of [add_expense]: [Some tt] is [break]. *)
Definition add_expense_round : M (option unit) :=
  try_except (
    d <- now ;;
    let date_today := strftime_dmY pad_year d in
    line <- input (ln "Enter short description of your expense: ") ;;
    desc <- ask_until_given
              (ln "Description cannot be empty, enter description again: ")
              (capitalize (strip line)) ;;
    line <- input (ln "Enter category of your expense (ex: food, travel, groceries): ") ;;
    category <- ask_until_given
                  (ln "Category cannot be empty, enter category again: ")
                  (capitalize (strip line)) ;;
    amount <- ask_amount ;;
    let expense := make_expense date_today desc category amount in
    exps <- get_expenses ;;
    exps' <- lift (py_append exps expense) ;;
    set_expenses exps' ;;
    save_expenses ;;
    print (Print (ln "Your expense has been added.")) ;;
    answer <- ask_again (ln "Do you want to add another expense? (yes/no): ") ;;
    if negb (str_eqb answer (lit "yes")) then
      print (Print (ln "Thank you for adding your expense.")) ;;
      print (Print (ln "Here's your updated expense details:")) ;;
      view_expenses ;;
      ret (Some tt)
    else ret None)
  is_ValueError
  (print (Print (ln "Please enter a valid input")) ;; ret None).

Definition add_expense : M unit :=
  print dashes ;;
  loop add_expense_round ;;
  print dashes.

(** One round of the loop of [remove_expense]: [Some tt] is [break]. *)
Definition remove_expense_round : M (option unit) :=
  print (Print (ln "Here's your expense details:")) ;;
  view_expenses ;;
  print (Print (ln "")) ;;
  try_except (
    line <- input (ln "Enter number of expense you want to remove: ") ;;
    match py_int unicode_digit (strip line) with
    | None => raise ValueError
    | Some remove =>
        exps <- get_expenses ;;
        n <- (if remove <=? 0 then ret 0 else lift (py_len exps)) ;;
        if (remove <=? 0) || (remove >? n) then
          print (Print (ln "Enter a valid number")) ;; ret None
        else
          exps' <- lift (py_pop exps (remove - 1)) ;;
          set_expenses exps' ;;
          save_expenses ;;
          print (Print (ln "Your expense has been removed.")) ;;
          answer <- ask_again (ln "Do you want to remove another expense? (yes/no): ") ;;
          if negb (str_eqb answer (lit "yes")) then
            print (Print (ln "Thank you for removing your expense.")) ;;
            print (Print (ln "Here's your updated expense details:")) ;;
            view_expenses ;;
            ret (Some tt)
          else ret None
    end)
  is_ValueError
  (print (Print (ln "Please enter a valid input")) ;; ret None).

Definition remove_expense : M unit :=
  print dashes ;;
  loop remove_expense_round ;;
  print dashes.

(** The loop of [monthly_summary] that fills the dict [monthly_totals]. *)
Fixpoint monthly_totals (l : list value) (totals : list (str * number))
  : outcome (list (str * number)) :=
  match l with
  | [] => Return totals
  | expense :: r =>
      d <~ subscript expense (lit "Date") ;;
      s <~ match d with VStr s => Return s | _ => Raise TypeError end ;;
      month <~ match month_key unicode_digit pad_year s with
               | Some m => Return m
               | None => Raise ValueError
               end ;;
      a <~ subscript expense (lit "Amount") ;;
      t <~ add_amount (default (NInt 0) (dict_get month totals)) a ;;
      monthly_totals r (dict_set month t totals)
  end.

(** The [for] loop that prints the totals, from display number [i] on. *)
Fixpoint total_lines (i : nat) (totals : list (str * number)) : M unit :=
  match totals with
  | [] => ret tt
  | (month, total) :: r =>
      n <- lift (format_2f (match total with NInt z => VInt z | NFloat f => VFloat f end)) ;;
      print (TotalLine i month n) ;;
      total_lines (S i) r
  end.

Definition monthly_summary : M unit :=
  print dashes ;;
  exps <- get_expenses ;;
  if negb (truthy exps) then print (Print (ln "No Expenses Yet."))
  else
    totals <- lift (match exps with
                    | VList l => monthly_totals l []
                    | _ => Raise TypeError
                    end) ;;
    print (Print (ln "Here's your monthly expense summary:")) ;;
    total_lines 1 totals ;;
    print dashes.

(** ** Main program *)

(** The text of the menu, a triple-quoted literal: a line break, the five
    entries each indented by four spaces, and four spaces after the last
    line break. *)
Definition menu : str :=
  [10%N] ++ lit "    1. Add Expenses" ++
  [10%N] ++ lit "    2. Remove Expenses" ++
  [10%N] ++ lit "    3. View Expenses" ++
  [10%N] ++ lit "    4. View Monthly Summary" ++
  [10%N] ++ lit "    5. Exit" ++
  [10%N] ++ lit "    ".

(** One round of the loop of [main]: [Some tt] is [break]. *)
Definition main_round : M (option unit) :=
  print (Print menu) ;;
  try_except (
    line <- input (ln "Which option do you want to use? (1-5): ") ;;
    match py_int unicode_digit (strip line) with
    | None => raise ValueError
    | Some option =>
        if option =? 1 then add_expense ;; ret None
        else if option =? 2 then remove_expense ;; ret None
        else if option =? 3 then view_expenses ;; ret None
        else if option =? 4 then monthly_summary ;; ret None
        else if option =? 5 then
          print (Print (ln "Thanks for using Expense Tracker!")) ;; ret (Some tt)
        else
          print (Print (ln "Please choose between 1 and 5")) ;; ret None
    end)
  is_ValueError
  (print (Print (ln "Please enter a valid integer")) ;; ret None).

Definition main : M unit :=
  print dashes ;;
  print (Print (ln "Welcome to Expense Tracker!")) ;;
  loop main_round ;;
  print dashes.

(** The script: [load_expenses()] runs when the module is loaded, then
    [main()]. *)
Definition program : M unit := load_expenses ;; main.

Arguments lit : simpl never.
Arguments ln : simpl never.
Arguments menu : simpl never.

(** * Properties *)

(** ** The notions of the specification *)

(** The four fields of a record of the ledger, as the source describes
    them: [Date], [Description] and [Category] strings, [Amount] a float. *)
Definition expense_fields (v : value) : option (str * str * str * float) :=
  match v with
  | VDict d =>
      match dict_get (lit "Date") d, dict_get (lit "Description") d,
            dict_get (lit "Category") d, dict_get (lit "Amount") d with
      | Some (VStr dt), Some (VStr ds), Some (VStr c), Some (VFloat a) =>
          Some (dt, ds, c, a)
      | _, _, _, _ => None
      end
  | _ => None
  end.

Definition nonempty (s : str) : bool :=
  match s with [] => false | _ :: _ => true end.

(** The invariant of the ledger on one record: amount >= 0, description and
    category not empty, date parseable as dd-mm-yyyy. *)
Definition valid_expense (v : value) : bool :=
  match expense_fields v with
  | Some (dt, ds, c, a) =>
      float_leb float_zero a && nonempty ds && nonempty c &&
      bool_decide (is_Some (strptime_dmY unicode_digit dt))
  | None => false
  end.

(** The invariant of the ledger. *)
Definition valid_ledger (v : value) : bool :=
  match v with
  | VList l => forallb valid_expense l
  | _ => false
  end.

(** A Python number held by a value: an int, a bool (an int in Python) or
    a float. *)
Definition as_number (v : value) : option number :=
  match v with
  | VInt z => Some (NInt z)
  | VBool b => Some (NInt (if b then 1 else 0))
  | VFloat f => Some (NFloat f)
  | _ => None
  end.

(** The day and the amount of a record of the ledger: the day that its
    [Date] names in the form dd-mm-yyyy and the number under [Amount]. *)
Definition dated_amount (v : value) : option (date * number) :=
  match v with
  | VDict d =>
      match dict_get (lit "Date") d, dict_get (lit "Amount") d with
      | Some (VStr s), Some a =>
          match strptime_dmY unicode_digit s, as_number a with
          | Some dt, Some n => Some (dt, n)
          | _, _ => None
          end
      | _, _ => None
      end
  | _ => None
  end.

(** The month of a day: the number of the month and the year. *)
Definition month_of (d : date) : N * N := (month d, year d).

(** The key of a month: the month with two digits, a dash and the year as
    [strftime] writes it, which is mm-yyyy from the year 1000 on. *)
Definition month_text (m : N * N) : str :=
  two_digits m.1 ++ 45%N :: strftime_Y pad_year m.2.

(** The distinct items of a sequence, in the order of their first
    occurrence. *)
Fixpoint first_seen {A} `{EqDecision A} (ks : list A) : list A :=
  match ks with
  | [] => []
  | k :: r => k :: filter (fun k' => k' <> k) (first_seen r)
  end.

(** [a + b] for two numbers; [None] stands for [OverflowError], an int too
    large to be added to a float. *)
Definition number_add (a b : number) : option number :=
  match a, b with
  | NInt x, NInt y => Some (NInt (x + y))
  | NInt x, NFloat g => option_map (fun f => NFloat (float_add f g)) (float_of_int x)
  | NFloat f, NInt y => option_map (fun g => NFloat (float_add f g)) (float_of_int y)
  | NFloat f, NFloat g => Some (NFloat (float_add f g))
  end.

(** The sum of numbers as [sum] computes it: from the int 0, one number
    after the other. *)
Definition py_sum (ns : list number) : option number :=
  fold_left (fun acc n => match acc with Some s => number_add s n | None => None end)
            ns (Some (NInt 0)).

(** The sum of the amounts of the records of the month [m], in stored
    order. *)
Definition month_total (das : list (date * number)) (m : N * N) : option number :=
  py_sum (map snd (filter (fun da => month_of da.1 = m) das)).

(** The monthly totals as the specification words them: every month of the
    ledger, in the order of first occurrence, under its key, with the sum of
    the amounts of its records; [None] when a sum does not exist. *)
Definition totals_by_month (das : list (date * number)) : option (list (str * number)) :=
  mapM (fun m => option_map (pair (month_text m)) (month_total das m))
       (first_seen (map (fun da => month_of da.1) das)).

(** A total that [format] writes with two decimals: a float, or an int
    that converts to a float. *)
Definition prints (t : number) : Prop :=
  match t with
  | NInt z => is_Some (float_of_int z)
  | NFloat _ => True
  end.

(** The lines [monthly_summary] prints for the totals [totals], numbered
    from [i]. *)
Fixpoint total_line_list (i : nat) (totals : list (str * number)) : list line :=
  match totals with
  | [] => []
  | (month, total) :: r => TotalLine i month total :: total_line_list (S i) r
  end.

(** What [monthly_summary] prints for a ledger with records. *)
Definition summary_lines (totals : list (str * number)) : list line :=
  [dashes; Print (ln "Here's your monthly expense summary:")] ++
  total_line_list 1 totals ++ [dashes].

(** What [monthly_summary] prints for a ledger without records. *)
Definition no_data_lines : list line := [dashes; Print (ln "No Expenses Yet.")].

(** A whole number as a float, [float(z)]. *)
Definition whole (z : Z) : float := default float_zero (float_of_int z).

(** The sum of the amounts under the key [k] in a sequence of keys and
    amounts, and one turn of the loop of [monthly_summary] on a dict whose
    values are sums that may not exist. *)
Definition key_total (kas : list (str * number)) (k : str) : option number :=
  py_sum (map snd (filter (fun ka => ka.1 = k) kas)).

Definition add_to_key (acc : list (str * option number)) (ka : str * number)
  : list (str * option number) :=
  dict_set ka.1
    (match default (Some (NInt 0)) (dict_get ka.1 acc) with
     | Some s => number_add s ka.2
     | None => None
     end) acc.

(** The dict when every sum exists. *)
Definition all_totals (acc : list (str * option number)) : option (list (str * number)) :=
  mapM (fun kt => option_map (pair kt.1) kt.2) acc.

(** The dict of the loop, every value a sum that exists. *)
Definition sums_so_far (acc : list (str * number)) : list (str * option number) :=
  map (fun kt => (kt.1, Some kt.2)) acc.

(** The key and the amount of each record, as the loop takes them. *)
Definition keyed (das : list (date * number)) : list (str * number) :=
  map (fun da => (month_text (month_of da.1), da.2)) das.

(** A month of the calendar. *)
Definition is_month (m : N * N) : Prop := (m.1 < 100)%N /\ (m.2 < 10000)%N.

(** The ledger of the example of the specification: 01-01-2024 $10,
    15-01-2024 $5, 02-02-2024 $7. *)
Definition example_ledger : list value :=
  [make_expense (lit "01-01-2024") (lit "Lunch") (lit "Food") (whole 10);
   make_expense (lit "15-01-2024") (lit "Bus") (lit "Travel") (whole 5);
   make_expense (lit "02-02-2024") (lit "Milk") (lit "Groceries") (whole 7)].

(** A record that has the four fields. *)
Definition has_fields (v : value) : Prop := is_Some (expense_fields v).

(** The lines [view_expenses] prints for the records [l], numbered from
    [i]. *)
Fixpoint expense_line_list (i : nat) (l : list value) : list line :=
  match l with
  | [] => []
  | v :: r =>
      match expense_fields v with
      | Some (dt, ds, c, a) =>
          [ExpenseLine i (VStr dt) (VStr ds) (VStr c) (NFloat a)]
      | None => []
      end ++ expense_line_list (S i) r
  end.

(** What [view_expenses] prints for the ledger [l]. *)
Definition view_output (l : list value) : list line :=
  [dashes] ++
  match l with
  | [] => [Print (ln "No Expenses Yet.")]
  | _ => expense_line_list 1 l
  end ++ [dashes].

(** What a piece of program that only reads and prints leaves as it was:
    the ledger, the file and the clock; and it reads the input forward. *)
Definition io_only (w w' : world) : Prop :=
  expenses w' = expenses w /\ disk w' = disk w /\ clock w' = clock w /\
  stdin w' `suffix_of` stdin w.

(** What [remove_expense] prints in a round up to the line it reads. *)
Definition removal_lines (l : list value) : list line :=
  [Print (ln "Here's your expense details:")] ++ view_output l ++
  [Print (ln ""); Print (ln "Enter number of expense you want to remove: ")].

(** The answer of [remove_expense] to a line that removes nothing from the
    empty ledger: an integer is out of range, anything else is no
    integer. *)
Definition refusal (typed : str) : line :=
  Print (match py_int unicode_digit (strip typed) with
         | Some _ => ln "Enter a valid number"
         | None => ln "Please enter a valid input"
         end).

(** What [remove_expense] prints on the empty ledger for the lines it
    reads. *)
Definition empty_rounds (inp : list str) : list line :=
  flat_map (fun typed => removal_lines [] ++ [refusal typed]) inp.

(** What is left of a round of [remove_expense] once the record has been
    removed and the file written. *)
Definition after_removal : M (option unit) :=
  answer <- ask_again (ln "Do you want to remove another expense? (yes/no): ") ;;
  if negb (str_eqb answer (lit "yes")) then
    print (Print (ln "Thank you for removing your expense.")) ;;
    print (Print (ln "Here's your updated expense details:")) ;;
    view_expenses ;;
    ret (Some tt)
  else ret None.

(** The handler of [ValueError] in the loops of [add_expense] and
    [remove_expense]. *)
Definition invalid_input : M (option unit) :=
  print (Print (ln "Please enter a valid input")) ;; ret None.

(** The [try] block of a round of [add_expense]. *)
Definition add_expense_try : M (option unit) :=
  d <- now ;;
  let date_today := strftime_dmY pad_year d in
  line <- input (ln "Enter short description of your expense: ") ;;
  desc <- ask_until_given
            (ln "Description cannot be empty, enter description again: ")
            (capitalize (strip line)) ;;
  line <- input (ln "Enter category of your expense (ex: food, travel, groceries): ") ;;
  category <- ask_until_given
                (ln "Category cannot be empty, enter category again: ")
                (capitalize (strip line)) ;;
  amount <- ask_amount ;;
  let expense := make_expense date_today desc category amount in
  exps <- get_expenses ;;
  exps' <- lift (py_append exps expense) ;;
  set_expenses exps' ;;
  save_expenses ;;
  print (Print (ln "Your expense has been added.")) ;;
  answer <- ask_again (ln "Do you want to add another expense? (yes/no): ") ;;
  if negb (str_eqb answer (lit "yes")) then
    print (Print (ln "Thank you for adding your expense.")) ;;
    print (Print (ln "Here's your updated expense details:")) ;;
    view_expenses ;;
    ret (Some tt)
  else ret None.

(** A text that [add_expense] stores for a line of the input [inp]: the
    line stripped and capitalized, or a line as it was typed. *)
Definition entered_text (inp : list str) (t : str) : Prop :=
  t <> [] /\
  exists line, line ∈ inp /\ (t = capitalize (strip line) \/ t = line).

(** An amount that [add_expense] stores for a line of the input [inp]. *)
Definition entered_amount (inp : list str) (a : float) : Prop :=
  float_ltb a float_zero = false /\
  exists line, line ∈ inp /\ py_float unicode_digit (strip line) = Some a.

(** A record that [add_expense] makes on the day [today] from lines of the
    input [inp]. *)
Definition entered (today : date) (inp : list str) (v : value) : Prop :=
  exists ds ct a,
    v = make_expense (strftime_dmY pad_year today) ds ct a /\
    entered_text inp ds /\ entered_text inp ct /\ entered_amount inp a.

(** What a round of [add_expense] does to the ledger and the file: nothing,
    or it appends one record made from the input, and then the file holds
    the new ledger unless it cannot be written. *)
Definition round_effect (w : world) (o : outcome (option unit)) (w' : world)
  : Prop :=
  (expenses w' = expenses w /\ disk w' = disk w /\ o <> Return (Some tt)) \/
  (exists l v,
     expenses w = VList l /\ expenses w' = VList (l ++ [v]) /\
     entered (clock w) (stdin w) v /\
     (disk w' = Text (json_dumps float_repr (expenses w')) \/
      disk w = Inaccessible /\ disk w' = Inaccessible /\ o = Raise OSError)).

(** What a round of [add_expense] prints while it asks for the three
    entries, when each is given at its first prompt. *)
Definition entry_lines : list line :=
  [Print (ln "Enter short description of your expense: ");
   Print (ln "Enter category of your expense (ex: food, travel, groceries): ");
   Print (ln "Enter amount of your expense: ")].


(** No line of the input reads as the float nan. *)
Definition no_nan (inp : list str) : Prop :=
  Forall (fun line => py_float unicode_digit (strip line) <> Some S754_nan) inp.

(** The [try] block of a round of [remove_expense]. *)
Definition remove_expense_try : M (option unit) :=
  line <- input (ln "Enter number of expense you want to remove: ") ;;
  match py_int unicode_digit (strip line) with
  | None => raise ValueError
  | Some remove =>
      exps <- get_expenses ;;
      n <- (if remove <=? 0 then ret 0 else lift (py_len exps)) ;;
      if (remove <=? 0) || (remove >? n) then
        print (Print (ln "Enter a valid number")) ;; ret None
      else
        exps' <- lift (py_pop exps (remove - 1)) ;;
        set_expenses exps' ;;
        save_expenses ;;
        print (Print (ln "Your expense has been removed.")) ;;
        after_removal
  end.

(** What a round of [remove_expense] does to the ledger and the file:
    nothing, or it removes one record, and then the file holds the new
    ledger unless it cannot be written. *)
Definition removal_effect (w : world) (o : outcome (option unit)) (w' : world)
  : Prop :=
  (expenses w' = expenses w /\ disk w' = disk w /\ o <> Return (Some tt)) \/
  (exists l i,
     expenses w = VList l /\ (i < length l)%nat /\
     expenses w' = VList (delete i l) /\
     (disk w' = Text (json_dumps float_repr (expenses w')) \/
      disk w = Inaccessible /\ disk w' = Inaccessible /\ o = Raise OSError)).

(** ** The values that JSON text gives back *)

(** What follows a value in the text that the encoder writes: nothing, a
    line break or a comma. *)
Definition value_end (rest : str) : Prop :=
  match rest with
  | [] => True
  | c :: _ => c = 10%N \/ c = 44%N
  end.

(** A text as a Python [str] holds it: code points up to U+10FFFF. *)
Definition is_text (s : str) : Prop := Forall (fun c => (c < 1114112)%N) s.

(** No high surrogate directly followed by a low surrogate: the decoder
    reads the two escapes of such a pair as one code point. *)
Fixpoint no_surrogate_pair (s : str) : Prop :=
  match s with
  | c :: ((c' :: _) as r) =>
      ~ (is_high_surrogate c = true /\ is_low_surrogate c' = true) /\
      no_surrogate_pair r
  | _ => True
  end.

(** The law of [float.__repr__] at the float [f]: what it writes for a
    finite float is read back by the decoder as that float. *)
Definition repr_read_back (f : float) : Prop :=
  is_finite f = true ->
  forall rest, value_end rest ->
    scan_number (float_repr f ++ rest) = Some (VFloat f, rest).

(** The values whose JSON text the decoder reads back: every int within
    the limit of 4300 digits that Python sets on the conversion between
    [int] and [str], every text a Python [str] without a surrogate pair,
    every float under the law of [repr], no key twice in a dict. *)
#[local] Unset Elimination Schemes.
Inductive json_value : value -> Prop :=
| json_none : json_value VNone
| json_bool b : json_value (VBool b)
| json_int z : Z.abs z < 10 ^ 4300 -> json_value (VInt z)
| json_float f : repr_read_back f -> json_value (VFloat f)
| json_str s : is_text s -> no_surrogate_pair s -> json_value (VStr s)
| json_list l : Forall (json_value) l -> json_value (VList l)
| json_dict d :
    NoDup (map fst d) ->
    Forall (fun kv => is_text kv.1 /\ no_surrogate_pair kv.1 /\
                      json_value kv.2) d ->
    json_value (VDict d).
#[local] Set Elimination Schemes.

(** How deep lists and dicts are nested in a value. *)
Fixpoint nesting (v : value) : nat :=
  match v with
  | VList l => S (list_max (map nesting l))
  | VDict d => S (list_max (map (fun kv => nesting kv.2) d))
  | _ => 0
  end.



(** The nesting depth of the calls of the scanner that read the text of a
    value. *)
Fixpoint scan_depth (v : value) : nat :=
  match v with
  | VList l => S (length l + list_sum (map scan_depth l))
  | VDict d => S (length d + list_sum (map (fun kv => scan_depth kv.2) d))
  | _ => 1
  end.

(** What a piece of the program does that reads the input forward and
    leaves the clock alone, and never uses up the loop bound. *)
Definition reads_on {A} (w : world) (o : outcome A) (w' : world) : Prop :=
  o <> OutOfFuel /\ clock w' = clock w /\ stdin w' `suffix_of` stdin w.

(** The handler of [ValueError] in the loop of [main]. *)
Definition invalid_integer : M (option unit) :=
  print (Print (ln "Please enter a valid integer")) ;; ret None.

(** The [try] block of a round of [main]. *)
Definition main_try : M (option unit) :=
  line <- input (ln "Which option do you want to use? (1-5): ") ;;
  match py_int unicode_digit (strip line) with
  | None => raise ValueError
  | Some option =>
      if option =? 1 then add_expense ;; ret None
      else if option =? 2 then remove_expense ;; ret None
      else if option =? 3 then view_expenses ;; ret None
      else if option =? 4 then monthly_summary ;; ret None
      else if option =? 5 then
        print (Print (ln "Thanks for using Expense Tracker!")) ;; ret (Some tt)
      else
        print (Print (ln "Please choose between 1 and 5")) ;; ret None
  end.

(** What the menu prints before it reads the choice. *)
Definition menu_lines : list line :=
  [Print menu; Print (ln "Which option do you want to use? (1-5): ")].

(** A line that [ask_again] takes for an answer. *)
Definition is_answer (line : str) : bool :=
  str_eqb (strip (lower line)) (lit "yes") || str_eqb (strip (lower line)) (lit "no").

(** What [ask_again] prints for the lines it does not take for an answer. *)
Definition asked_again (prompt : str) (skipped : list str) : list line :=
  flat_map (fun _ => [Print prompt; Print (ln "Please respond with 'yes' or 'no'")])
           skipped.

(** What [ask_amount] prints for the amounts below zero that it refuses. *)
Definition refused_amounts (skipped : list str) : list line :=
  flat_map (fun _ => [Print (ln "Enter amount of your expense: ");
                      Print (ln "Amount must be a positive number")])
           skipped.

(** A line that reads as a float below zero. *)
Definition below_zero (line : str) : Prop :=
  exists a, py_float unicode_digit (strip line) = Some a /\
            float_ltb a float_zero = true.

(** ** Reasoning about outcomes *)

(** [post m w Q]: run from [w], the piece of program [m] ends with an
    outcome and in a world that satisfy [Q]. *)
Definition post {A} (m : M A) (w : world) (Q : outcome A -> world -> Prop) : Prop :=
  Q (m w).1 (m w).2.

Lemma post_ret {A} (a : A) w (Q : outcome A -> world -> Prop) :
  Q (Return a) w -> post (ret a) w Q.
Proof. exact id. Qed.

Lemma post_raise {A} e w (Q : outcome A -> world -> Prop) :
  Q (Raise e) w -> post (raise e) w Q.
Proof. exact id. Qed.

Lemma post_lift {A} (o : outcome A) w (Q : outcome A -> world -> Prop) :
  Q o w -> post (lift o) w Q.
Proof. exact id. Qed.

Lemma post_mono {A} (m : M A) w (Q Q' : outcome A -> world -> Prop) :
  post m w Q -> (forall o w', Q o w' -> Q' o w') -> post m w Q'.
Proof. unfold post. auto. Qed.

Lemma post_bind {A B} (m : M A) (k : A -> M B) w (Q : outcome B -> world -> Prop) :
  post m w (fun o w' =>
    match o with
    | Return a => post (k a) w' Q
    | Raise e => Q (Raise e) w'
    | OutOfFuel => Q OutOfFuel w'
    end) ->
  post (bind m k) w Q.
Proof. unfold post, bind. destruct (m w) as [[a|e|] w']; auto. Qed.

Lemma post_try_except {A} (m h : M A) (handles : exn -> bool) w
    (Q : outcome A -> world -> Prop) :
  post m w (fun o w' =>
    match o with
    | Raise e => if handles e then post h w' Q else Q (Raise e) w'
    | _ => Q o w'
    end) ->
  post (try_except m handles h) w Q.
Proof.
  unfold post, try_except. destruct (m w) as [[a|e|] w']; simpl; auto.
  destruct (handles e); auto.
Qed.

(** The rule of a loop: an invariant [I] that every round which goes on
    re-establishes while it shortens the input. *)
Lemma post_while_true {A} (body : M (option A)) (I : world -> Prop)
    (Q : outcome A -> world -> Prop) :
  (forall w, I w ->
     post body w (fun o w' =>
       match o with
       | Return None => I w' /\ (length (stdin w') < length (stdin w))%nat
       | Return (Some a) => Q (Return a) w'
       | Raise e => Q (Raise e) w'
       | OutOfFuel => False
       end)) ->
  forall n w, I w -> (length (stdin w) < n)%nat -> post (while_true n body) w Q.
Proof.
  intros Hbody n. induction n as [|n IH]; intros w HI Hn; [lia|].
  simpl. apply post_bind. eapply post_mono; [apply Hbody, HI|].
  intros [[a|]|e|] w'; simpl; try tauto.
  intros [HI' Hlt]. apply IH; [done|lia].
Qed.

Lemma post_loop {A} (body : M (option A)) (I : world -> Prop)
    (Q : outcome A -> world -> Prop) w :
  I w ->
  (forall w, I w ->
     post body w (fun o w' =>
       match o with
       | Return None => I w' /\ (length (stdin w') < length (stdin w))%nat
       | Return (Some a) => Q (Return a) w'
       | Raise e => Q (Raise e) w'
       | OutOfFuel => False
       end)) ->
  post (loop body) w Q.
Proof.
  intros HI Hbody. unfold loop.
  change (post (while_true (S (length (stdin w))) body) w Q).
  eapply post_while_true; eauto.
Qed.

(** More fuel than the input is long changes nothing. *)
Lemma while_true_fuel {A} (body : M (option A)) :
  (forall w w', body w = (Return None, w') ->
                (length (stdin w') < length (stdin w))%nat) ->
  forall n m w, (length (stdin w) < n)%nat -> (length (stdin w) < m)%nat ->
                while_true n body w = while_true m body w.
Proof.
  intros Hbody n. induction n as [|n IH]; intros m w Hn Hm; [lia|].
  destruct m as [|m]; [lia|]. simpl. unfold bind.
  destruct (body w) as [[[a|]|e|] w'] eqn:E; try reflexivity.
  apply Hbody in E. apply IH; lia.
Qed.

(** A loop either leaves in its first round or starts afresh. *)
Lemma loop_unfold {A} (body : M (option A)) w :
  (forall w w', body w = (Return None, w') ->
                (length (stdin w') < length (stdin w))%nat) ->
  loop body w =
    match body w with
    | (Return (Some a), w') => (Return a, w')
    | (Return None, w') => loop body w'
    | (Raise e, w') => (Raise e, w')
    | (OutOfFuel, w') => (OutOfFuel, w')
    end.
Proof.
  intros Hbody. unfold loop at 1. simpl. unfold bind.
  destruct (body w) as [[[a|]|e|] w'] eqn:E; try reflexivity.
  unfold loop. apply Hbody in E. apply while_true_fuel; [done|lia..].
Qed.

(** ** File operations *)

(** What [load_expenses] does in each state of the backing file: an absent
    file and a text that is not JSON give the empty ledger, a JSON text
    gives its value whatever that is, and any other failure is raised. *)
Lemma load_expenses_cases (w : world) :
  load_expenses w =
    match disk w with
    | Missing => set_expenses (VList []) w
    | Inaccessible => (Raise OSError, w)
    | Undecodable => (Raise UnicodeDecodeError, w)
    | Text s =>
        match json_loads recursion_limit s with
        | Return v => set_expenses v w
        | Raise FileNotFoundError | Raise JSONDecodeError =>
            set_expenses (VList []) w
        | Raise e => (Raise e, w)
        | OutOfFuel => (OutOfFuel, w)
        end
    end.
Proof.
  unfold load_expenses, try_except, json_load, read_file, bind, lift.
  destruct (disk w) as [| | |s]; try reflexivity.
  destruct (json_loads recursion_limit s) as [v|[]|]; reflexivity.
Qed.

(** ** The monthly summary *)

Lemma total_lines_prints totals :
  Forall (fun kt : str * number => prints kt.2) totals ->
  forall i e d c inp out,
    total_lines i totals (World e d c inp out) =
      (Return tt, World e d c inp (out ++ total_line_list i totals)).
Proof.
  induction 1 as [|[k t] r Hk _ IH]; intros i e d c inp out.
  - simpl. unfold ret. by rewrite app_nil_r.
  - cbn [total_lines total_line_list]. unfold bind, lift, print.
    destruct t as [z|f]; cbn [format_2f snd] in *.
    + destruct Hk as [f Hf]. rewrite Hf. cbn. rewrite IH. by rewrite <- app_assoc.
    + cbn. rewrite IH. by rewrite <- app_assoc.
Qed.

(** *** Dicts given by their keys *)

Lemma str_eqb_eq (a b : str) : str_eqb a b = true <-> a = b.
Proof. unfold str_eqb. apply bool_decide_eq_true. Qed.

Lemma str_eqb_refl (a : str) : str_eqb a a = true.
Proof. by apply str_eqb_eq. Qed.

Lemma str_eqb_neq (a b : str) : a <> b -> str_eqb a b = false.
Proof. unfold str_eqb. apply bool_decide_eq_false_2. Qed.

Lemma dict_get_tabulate {A} (g : str -> A) (keys : list str) (k : str) :
  dict_get k (map (fun k' => (k', g k')) keys) =
    if decide (k ∈ keys) then Some (g k) else None.
Proof.
  induction keys as [|k0 r IH]; cbn [map dict_get].
  - rewrite decide_False; [done|]. apply not_elem_of_nil.
  - destruct (decide (k = k0)) as [->|Hne].
    + rewrite str_eqb_refl. rewrite decide_True; [done|]. apply elem_of_cons. by left.
    + rewrite str_eqb_neq by done. rewrite IH.
      destruct (decide (k ∈ r)) as [Hin|Hin].
      * rewrite decide_True; [done|]. apply elem_of_cons. by right.
      * rewrite decide_False; [done|]. rewrite elem_of_cons. by intros [?|?].
Qed.

Lemma dict_set_tabulate {A} (g g' : str -> A) (keys : list str) (k : str) (x : A) :
  NoDup keys ->
  g' k = x ->
  (forall k', k' <> k -> g' k' = g k') ->
  dict_set k x (map (fun k' => (k', g k')) keys) =
    map (fun k' => (k', g' k')) (if decide (k ∈ keys) then keys else keys ++ [k]).
Proof.
  intros Hnd Hk Hother. induction Hnd as [|k0 r Hk0 Hnd IH]; cbn [map dict_set].
  - rewrite decide_False by apply not_elem_of_nil. cbn. by rewrite Hk.
  - destruct (decide (k = k0)) as [->|Hne].
    + rewrite str_eqb_refl.
      rewrite decide_True by (apply elem_of_cons; by left). cbn [map].
      rewrite Hk. f_equal. apply map_ext_in. intros k' Hin.
      rewrite Hother; [done|]. intros ->. apply Hk0. by apply list_elem_of_In.
    + rewrite str_eqb_neq by done. rewrite IH.
      destruct (decide (k ∈ r)) as [Hin|Hin].
      * rewrite decide_True by (apply elem_of_cons; by right).
        cbn [map]. by rewrite Hother.
      * rewrite decide_False by (rewrite elem_of_cons; by intros [?|?]).
        cbn [map app]. by rewrite Hother.
Qed.

Lemma dict_get_set_same {A} (k : str) (x : A) (d : list (str * A)) :
  dict_get k (dict_set k x d) = Some x.
Proof.
  induction d as [|[k0 x0] r IH]; cbn [dict_set dict_get].
  - by rewrite str_eqb_refl.
  - destruct (str_eqb k k0) eqn:E; cbn [dict_get]; rewrite ?str_eqb_refl, ?E; done.
Qed.

Lemma dict_get_set_other {A} (k k' : str) (x : A) (d : list (str * A)) :
  k <> k' -> dict_get k (dict_set k' x d) = dict_get k d.
Proof.
  intros Hne. induction d as [|[k0 x0] r IH]; cbn [dict_set dict_get].
  - by rewrite str_eqb_neq.
  - destruct (str_eqb k' k0) eqn:E; cbn [dict_get].
    + apply str_eqb_eq in E as <-. by rewrite !str_eqb_neq.
    + destruct (str_eqb k k0); [done|apply IH].
Qed.

Lemma dict_get_elem {A} (k : str) (x : A) (d : list (str * A)) :
  dict_get k d = Some x -> (k, x) ∈ d.
Proof.
  induction d as [|[k0 x0] r IH]; cbn [dict_get]; [done|].
  destruct (str_eqb k k0) eqn:E.
  - apply str_eqb_eq in E as <-. intros [= ->]. apply elem_of_cons. by left.
  - intros H. apply elem_of_cons. right. by apply IH.
Qed.

(** *** First occurrences *)

Lemma first_seen_elem {A} `{EqDecision A} (ks : list A) (k : A) :
  k ∈ first_seen ks <-> k ∈ ks.
Proof.
  induction ks as [|k0 r IH]; cbn [first_seen]; [done|].
  rewrite !elem_of_cons, list_elem_of_filter, IH.
  destruct (decide (k = k0)) as [->|Hne]; split.
  - by left.
  - by left.
  - intros [?|[? ?]]; [by left|by right].
  - intros [?|?]; [by left|by right].
Qed.

Lemma first_seen_NoDup {A} `{EqDecision A} (ks : list A) : NoDup (first_seen ks).
Proof.
  induction ks as [|k0 r IH]; cbn [first_seen]; [constructor|].
  constructor.
  - rewrite list_elem_of_filter. by intros [? ?].
  - by apply NoDup_filter.
Qed.

Lemma first_seen_snoc {A} `{EqDecision A} (ks : list A) (k : A) :
  first_seen (ks ++ [k]) =
    if decide (k ∈ ks) then first_seen ks else first_seen ks ++ [k].
Proof.
  induction ks as [|k0 r IH]; cbn [first_seen app].
  - rewrite decide_False; [done|]. apply not_elem_of_nil.
  - rewrite IH. destruct (decide (k ∈ r)) as [Hin|Hin].
    + rewrite decide_True; [done|]. apply elem_of_cons. by right.
    + rewrite filter_app. destruct (decide (k = k0)) as [->|Hne].
      * rewrite decide_True by (apply elem_of_cons; by left).
        rewrite (filter_cons_False _ k0) by (by intros ?).
        by rewrite filter_nil, app_nil_r.
      * rewrite decide_False by (rewrite elem_of_cons; by intros [?|?]).
        rewrite (filter_cons_True _ k) by done. by rewrite filter_nil.
Qed.

Lemma filter_map_other {A B} `{EqDecision A} `{EqDecision B} (f : A -> B)
    (k0 : A) (l : list A) :
  (forall a, a ∈ l -> f a = f k0 -> a = k0) ->
  filter (fun k' => k' <> f k0) (map f l) = map f (filter (fun k' => k' <> k0) l).
Proof.
  induction l as [|a l IH]; intros Hinj; [done|].
  cbn [map].
  assert (Hl : forall a', a' ∈ l -> f a' = f k0 -> a' = k0)
    by (intros a' Ha'; apply Hinj, elem_of_cons; by right).
  destruct (decide (a = k0)) as [->|Hne].
  - rewrite !filter_cons_False by (intros H'; by apply H'). by apply IH.
  - rewrite !filter_cons_True; [|done|].
    + cbn [map]. f_equal. by apply IH.
    + intros E. apply Hne. apply Hinj; [|done]. apply elem_of_cons. by left.
Qed.

(** The first occurrences under a renaming that keeps the items of the
    sequence apart. *)
Lemma first_seen_map {A B} `{EqDecision A} `{EqDecision B} (f : A -> B) (ks : list A) :
  (forall a b, a ∈ ks -> b ∈ ks -> f a = f b -> a = b) ->
  first_seen (map f ks) = map f (first_seen ks).
Proof.
  induction ks as [|k0 r IH]; intros Hinj; [done|].
  cbn [map first_seen]. f_equal.
  rewrite IH by (intros a b Ha Hb; apply Hinj; apply elem_of_cons; by right).
  apply filter_map_other. intros a Ha. apply Hinj.
  - apply elem_of_cons. right. by apply first_seen_elem.
  - apply elem_of_cons. by left.
Qed.

(** *** Sums *)

Lemma py_sum_snoc (ns : list number) (n : number) :
  py_sum (ns ++ [n]) =
    match py_sum ns with Some s => number_add s n | None => None end.
Proof. unfold py_sum. by rewrite fold_left_app. Qed.

Lemma key_total_snoc (kas : list (str * number)) (k : str) (a : number) (k' : str) :
  key_total (kas ++ [(k, a)]) k' =
    if decide (k' = k)
    then match key_total kas k' with Some s => number_add s a | None => None end
    else key_total kas k'.
Proof.
  unfold key_total. rewrite filter_app. destruct (decide (k' = k)) as [->|Hne].
  - rewrite filter_cons_True by done. rewrite filter_nil.
    rewrite map_app. cbn [map snd]. by rewrite py_sum_snoc.
  - rewrite filter_cons_False by (cbn; congruence).
    by rewrite filter_nil, app_nil_r.
Qed.

Lemma key_total_absent (kas : list (str * number)) (k : str) :
  k ∉ map fst kas -> key_total kas k = Some (NInt 0).
Proof.
  intros Hk. unfold key_total.
  replace (filter (fun ka => ka.1 = k) kas) with (@nil (str * number)); [done|].
  symmetry. induction kas as [|[k0 a0] r IH]; [done|].
  cbn [map fst] in Hk. rewrite not_elem_of_cons in Hk. destruct Hk as [Hne Hr].
  rewrite filter_cons_False by (cbn; congruence). by apply IH.
Qed.

(** Turn by turn the dict holds the months seen so far, in the order in
    which they were first seen, each with the sum of its amounts. *)
Lemma add_to_key_fold (kas : list (str * number)) :
  fold_left add_to_key kas [] =
    map (fun k => (k, key_total kas k)) (first_seen (map fst kas)).
Proof.
  induction kas as [|[k a] kas IH] using rev_ind; [done|].
  rewrite fold_left_app. cbn [fold_left]. rewrite IH.
  unfold add_to_key. cbn [fst snd].
  rewrite dict_get_tabulate.
  rewrite (dict_set_tabulate _ (key_total (kas ++ [(k, a)]))).
  - rewrite map_app. cbn [map fst]. rewrite first_seen_snoc.
    destruct (decide (k ∈ map fst kas)) as [Hin|Hin].
    + by rewrite decide_True by (by apply first_seen_elem).
    + by rewrite decide_False by (by rewrite first_seen_elem).
  - apply first_seen_NoDup.
  - rewrite key_total_snoc. rewrite decide_True by done.
    destruct (decide (k ∈ first_seen (map fst kas))) as [Hin|Hin]; [done|].
    cbn. rewrite key_total_absent; [done|]. by rewrite <- first_seen_elem.
  - intros k' Hne. rewrite key_total_snoc. by rewrite decide_False.
Qed.

(** *** The loop of [monthly_summary] *)

Lemma dict_get_sums_so_far (k : str) (acc : list (str * number)) :
  dict_get k (sums_so_far acc) = option_map Some (dict_get k acc).
Proof.
  induction acc as [|[k0 t] r IH]; [done|].
  cbn. destruct (str_eqb k k0); [done|apply IH].
Qed.

Lemma dict_set_sums_so_far (k : str) (t : number) (acc : list (str * number)) :
  dict_set k (Some t) (sums_so_far acc) = sums_so_far (dict_set k t acc).
Proof.
  induction acc as [|[k0 t0] r IH]; [done|].
  cbn. destruct (str_eqb k k0); [done|]. cbn. f_equal. apply IH.
Qed.

Lemma all_totals_sums_so_far (acc : list (str * number)) :
  all_totals (sums_so_far acc) = Some acc.
Proof.
  unfold all_totals, sums_so_far. apply mapM_Some.
  induction acc as [|[k t] r IH]; constructor; done.
Qed.

(** A sum that does not exist stays in the dict. *)
Lemma add_to_key_fold_none (kas : list (str * number)) :
  forall (acc : list (str * option number)) (k : str),
    dict_get k acc = Some None ->
    all_totals (fold_left add_to_key kas acc) = None.
Proof.
  induction kas as [|[k' a] kas IH]; intros acc k Hk.
  - cbn [fold_left]. apply mapM_None. apply Exists_exists.
    exists (k, None). split; [|done]. by apply dict_get_elem.
  - cbn [fold_left]. apply (IH _ k). unfold add_to_key. cbn [fst snd].
    destruct (decide (k = k')) as [<-|Hne].
    + rewrite Hk. cbn. apply dict_get_set_same.
    + by rewrite dict_get_set_other.
Qed.

Lemma add_amount_number (total : number) (a : value) (n : number) :
  as_number a = Some n ->
  add_amount total a =
    match number_add total n with
    | Some t => Return t
    | None => Raise OverflowError
    end.
Proof.
  destruct a as [|b|z|f| | |]; intros [= <-]; destruct total as [t|t];
    cbn; try done.
  all: match goal with |- context [float_of_int ?x] => by destruct (float_of_int x) end.
Qed.

Lemma dated_amount_fields (v : value) (dt : date) (n : number) :
  dated_amount v = Some (dt, n) ->
  exists d s a,
    v = VDict d /\ dict_get (lit "Date") d = Some (VStr s) /\
    strptime_dmY unicode_digit s = Some dt /\
    dict_get (lit "Amount") d = Some a /\ as_number a = Some n.
Proof.
  unfold dated_amount. intros H.
  destruct v as [| | | | |l|d]; try discriminate.
  destruct (dict_get (lit "Date") d) as [[| | | |s| |]|] eqn:Hs;
    try discriminate.
  destruct (dict_get (lit "Amount") d) as [a|] eqn:Ha; try discriminate.
  destruct (strptime_dmY unicode_digit s) as [dt'|] eqn:Hdt; try discriminate.
  destruct (as_number a) as [n'|] eqn:Hn; try discriminate.
  injection H as -> ->. by exists d, s, a.
Qed.

(** The loop stops at the first sum that does not exist; until then each
    turn adds the amount of the record under the key of its month. *)
Lemma monthly_totals_fold (l : list value) :
  forall (das : list (date * number)) (acc : list (str * number)),
    mapM dated_amount l = Some das ->
    monthly_totals l acc =
      match all_totals (fold_left add_to_key (keyed das) (sums_so_far acc)) with
      | Some totals => Return totals
      | None => Raise OverflowError
      end.
Proof.
  induction l as [|v r IH]; intros das acc H.
  - cbn in H. injection H as <-. cbn [keyed map fold_left monthly_totals].
    by rewrite all_totals_sums_so_far.
  - rewrite mapM_Some in H. apply Forall2_cons_inv_l in H.
    destruct H as ([dt n] & das' & Hv & Hr & ->).
    apply dated_amount_fields in Hv.
    destruct Hv as (d & s & a & -> & Hdate & Hday & Hamount & Hn).
    cbn [monthly_totals subscript obind]. rewrite Hdate. cbn [obind].
    unfold month_key. rewrite Hday. cbn [option_map obind]. rewrite Hamount.
    cbn [obind]. rewrite (add_amount_number _ a n Hn).
    unfold keyed. cbn [map fold_left fst snd]. fold (keyed das').
    change (strftime_mY pad_year dt) with (month_text (month_of dt)).
    unfold add_to_key at 2. cbn [fst snd]. rewrite dict_get_sums_so_far.
    destruct (dict_get (month_text (month_of dt)) acc) as [t|] eqn:Ht;
      cbn [option_map from_option id].
    + destruct (number_add t n) as [t'|] eqn:Hadd; cbn [obind].
      * rewrite dict_set_sums_so_far. apply IH. by apply mapM_Some.
      * by rewrite (add_to_key_fold_none _ _ (month_text (month_of dt)))
          by apply dict_get_set_same.
    + destruct (number_add (NInt 0) n) as [t'|] eqn:Hadd; cbn [obind].
      * rewrite dict_set_sums_so_far. apply IH. by apply mapM_Some.
      * by rewrite (add_to_key_fold_none _ _ (month_text (month_of dt)))
          by apply dict_get_set_same.
Qed.

(** *** Months and their keys *)

Lemma two_digits_inj (a b : N) :
  (a < 100)%N -> (b < 100)%N -> two_digits a = two_digits b -> a = b.
Proof.
  intros Ha Hb H. unfold two_digits in H. injection H as H1 H2.
  assert (H3 : (a / 10 < 10)%N) by (apply N.Div0.div_lt_upper_bound; lia).
  assert (H4 : (b / 10 < 10)%N) by (apply N.Div0.div_lt_upper_bound; lia).
  rewrite (N.mod_small (a / 10) 10) in H1 by done.
  rewrite (N.mod_small (b / 10) 10) in H1 by done.
  pose proof (N.Div0.div_mod a 10). pose proof (N.Div0.div_mod b 10). lia.
Qed.

Lemma four_digits_inj (a b : N) :
  (a < 10000)%N -> (b < 10000)%N -> four_digits a = four_digits b -> a = b.
Proof.
  intros Ha Hb H. unfold four_digits in H. injection H as H1 H2 H3 H4.
  assert (H5 : (a / 1000 < 10)%N) by (apply N.Div0.div_lt_upper_bound; lia).
  assert (H6 : (b / 1000 < 10)%N) by (apply N.Div0.div_lt_upper_bound; lia).
  rewrite (N.mod_small (a / 1000) 10) in H1 by done.
  rewrite (N.mod_small (b / 1000) 10) in H1 by done.
  pose proof (N.Div0.div_mod a 10) as A1.
  pose proof (N.Div0.div_mod (a / 10) 10) as A2.
  pose proof (N.Div0.div_mod (a / 100) 10) as A3.
  pose proof (N.Div0.div_mod b 10) as B1.
  pose proof (N.Div0.div_mod (b / 10) 10) as B2.
  pose proof (N.Div0.div_mod (b / 100) 10) as B3.
  rewrite N.Div0.div_div in A2, A3, B2, B3.
  change (10 * 10)%N with 100%N in A2, B2.
  change (100 * 10)%N with 1000%N in A3, B3.
  lia.
Qed.

(** From the year 1000 on the year is written with its four digits,
    whatever the platform. *)
Lemma strftime_Y_four_digits (y : N) :
  (1000 <= y)%N -> strftime_Y pad_year y = four_digits y.
Proof.
  intros Hy. unfold strftime_Y, plain_digits.
  destruct pad_year; [done|].
  rewrite !(proj2 (N.ltb_ge _ _)) by lia. done.
Qed.

Lemma plain_digits_inj (a b : N) :
  (a < 10000)%N -> (b < 10000)%N -> plain_digits a = plain_digits b -> a = b.
Proof.
  intros Ha Hb. unfold plain_digits.
  destruct (a <? 10)%N eqn:A1; destruct (b <? 10)%N eqn:B1;
    [intros [= H]; lia| | |];
    (destruct (a <? 100)%N eqn:A2; destruct (b <? 100)%N eqn:B2);
    try (unfold two_digits; discriminate);
    try (apply N.ltb_lt in A2; apply N.ltb_lt in B2; by apply two_digits_inj);
    (destruct (a <? 1000)%N eqn:A3; destruct (b <? 1000)%N eqn:B3);
    try (unfold two_digits, four_digits; discriminate);
    try (by apply four_digits_inj).
  all: intros [= H1 H2 H3].
  all: apply N.ltb_lt in A3, B3.
  all: assert (H5 : (a / 100 < 10)%N) by (apply N.Div0.div_lt_upper_bound; lia).
  all: assert (H6 : (b / 100 < 10)%N) by (apply N.Div0.div_lt_upper_bound; lia).
  all: rewrite (N.mod_small (a / 100) 10) in H1 by done.
  all: rewrite (N.mod_small (b / 100) 10) in H1 by done.
  all: pose proof (N.Div0.div_mod a 10) as E1.
  all: pose proof (N.Div0.div_mod (a / 10) 10) as E2.
  all: pose proof (N.Div0.div_mod b 10) as F1.
  all: pose proof (N.Div0.div_mod (b / 10) 10) as F2.
  all: rewrite N.Div0.div_div in E2, F2.
  all: change (10 * 10)%N with 100%N in E2, F2.
  all: lia.
Qed.

(** Two months of the calendar have the same key only if they are the same
    month of the same year. *)
Lemma month_text_inj (m m' : N * N) :
  is_month m -> is_month m' -> month_text m = month_text m' -> m = m'.
Proof.
  destruct m as [a y], m' as [b z]. intros [Ha Hy] [Hb Hz]. cbn [fst snd] in *.
  unfold month_text. cbn [fst snd]. intros H.
  assert (E : two_digits a = two_digits b /\
              strftime_Y pad_year y = strftime_Y pad_year z).
  { unfold two_digits in *. cbn [app] in H. injection H as H1 H2 H3.
    split; [by rewrite H1, H2|done]. }
  destruct E as [E1 E2].
  apply two_digits_inj in E1; [|done|done]. subst b. f_equal.
  unfold strftime_Y in E2. destruct pad_year.
  - by apply four_digits_inj.
  - by apply plain_digits_inj.
Qed.

Lemma strptime_valid (s : str) (dt : date) :
  strptime_dmY unicode_digit s = Some dt -> valid_date dt = true.
Proof.
  unfold strptime_dmY. intros H.
  destruct (strptime_day unicode_digit s) as [[d r]|]; [|done].
  destruct (strptime_month r) as [[m r']|]; [|done].
  destruct (strptime_year unicode_digit r') as [y|]; [|done].
  cbv zeta in H. destruct (valid_date (Date d m y)) eqn:Hv; [|done].
  by injection H as <-.
Qed.

Lemma valid_date_month (dt : date) :
  valid_date dt = true -> is_month (month_of dt).
Proof.
  unfold valid_date. intros H.
  apply andb_prop in H as [H _]. apply andb_prop in H as [H _].
  apply andb_prop in H as [H H4]. apply andb_prop in H as [H _].
  apply andb_prop in H as [_ H2].
  apply N.leb_le in H2, H4. unfold is_month, month_of. cbn. lia.
Qed.

Lemma dated_amount_month (l : list value) (das : list (date * number)) :
  mapM dated_amount l = Some das ->
  Forall (fun da => is_month (month_of da.1)) das.
Proof.
  rewrite mapM_Some. induction 1 as [|v [dt n] l das Hv _ IH]; constructor; [|done].
  apply dated_amount_fields in Hv as (d & s & a & _ & _ & Hday & _).
  cbn [fst]. apply valid_date_month. by apply (strptime_valid s).
Qed.

(** The sums under the keys are the sums of the months. *)
Lemma key_total_month (das : list (date * number)) (m : N * N) :
  Forall (fun da => is_month (month_of da.1)) das ->
  is_month m ->
  key_total (keyed das) (month_text m) = month_total das m.
Proof.
  intros Hdas Hm. unfold key_total, month_total, keyed. f_equal.
  induction Hdas as [|[dt n] das Hda _ IH]; [done|].
  cbn [map fst snd] in *.
  destruct (decide (month_of dt = m)) as [E|E].
  - rewrite !filter_cons_True; [|done|by rewrite E]. cbn [map snd]. by f_equal.
  - rewrite !filter_cons_False; [done|done|].
    cbn [fst]. intros H. apply E. by apply month_text_inj.
Qed.

Lemma all_totals_tabulate (f : str -> option number) (keys : list str) :
  all_totals (map (fun k => (k, f k)) keys) =
    mapM (fun k => option_map (pair k) (f k)) keys.
Proof.
  unfold all_totals. induction keys as [|k r IH]; [done|].
  cbn [map mapM fst snd]. by rewrite IH.
Qed.

Lemma totals_by_key_month (das : list (date * number)) :
  Forall (fun da => is_month (month_of da.1)) das ->
  all_totals (fold_left add_to_key (keyed das) []) = totals_by_month das.
Proof.
  intros Hdas. rewrite add_to_key_fold, all_totals_tabulate.
  unfold totals_by_month.
  assert (Hkeys : map fst (keyed das) =
                  map month_text (map (fun da => month_of da.1) das)).
  { unfold keyed. rewrite !map_map. done. }
  rewrite Hkeys.
  assert (Hmonths : Forall is_month (map (fun da => month_of da.1) das)).
  { by apply Forall_map. }
  rewrite first_seen_map.
  2: { intros a b Ha Hb. rewrite Forall_forall in Hmonths.
       apply month_text_inj; by apply Hmonths. }
  assert (Hfirst : Forall is_month (first_seen (map (fun da => month_of da.1) das))).
  { rewrite Forall_forall in Hmonths |- *. intros m Hin.
    apply Hmonths. by apply first_seen_elem. }
  induction Hfirst as [|m ms Hm _ IH]; [done|].
  cbn [map mapM]. rewrite key_total_month by done. by rewrite IH.
Qed.

(** The dict that the loop of [monthly_summary] builds. *)
Lemma monthly_totals_months (l : list value) (das : list (date * number)) :
  mapM dated_amount l = Some das ->
  monthly_totals l [] =
    match totals_by_month das with
    | Some totals => Return totals
    | None => Raise OverflowError
    end.
Proof.
  intros H. rewrite (monthly_totals_fold l das [] H).
  change (sums_so_far []) with (@nil (str * option number)).
  by rewrite totals_by_key_month by (by apply (dated_amount_month l)).
Qed.

Lemma monthly_summary_lines (l : list value) (totals : list (str * number)) :
  l <> [] ->
  monthly_totals l [] = Return totals ->
  Forall (fun kt : str * number => prints kt.2) totals ->
  forall d c inp out,
    monthly_summary (World (VList l) d c inp out) =
      (Return tt, World (VList l) d c inp (out ++ summary_lines totals)).
Proof.
  intros Hl Htotals Hfloat d c inp out.
  destruct l as [|v r]; [done|].
  unfold monthly_summary, bind, print, get_expenses, lift. cbn -[monthly_totals].
  rewrite Htotals. cbn -[total_lines]. rewrite total_lines_prints by done.
  unfold summary_lines. cbn. by rewrite <- !app_assoc.
Qed.

(** C3.  Monthly aggregation.  For every ledger of records that hold a
    date in the form dd-mm-yyyy and a number as amount, the dict that the
    loop of [monthly_summary] builds holds the months of the ledger, in the
    order in which they are first met in stored order, each under its key
    with the sum of the amounts of all the records of that month and year;
    where a sum does not exist (an int too large to be added to a float)
    the loop raises [OverflowError].  The key of a month is the month with
    two digits, a dash and the year: mm-yyyy from the year 1000 on.  For a
    ledger that is not empty these are the totals that [monthly_summary]
    prints.  The ledger 01-01-2024 $10, 15-01-2024 $5, 02-02-2024 $7 gives
    01-2024: 15.0 and then 02-2024: 7.0. *)
Theorem monthly_totals_first_seen_sums :
  (forall (l : list value) (das : list (date * number)),
     mapM dated_amount l = Some das ->
     monthly_totals l [] =
       match totals_by_month das with
       | Some totals => Return totals
       | None => Raise OverflowError
       end /\
     forall totals d c inp out,
       l <> [] ->
       totals_by_month das = Some totals ->
       Forall (fun kt : str * number => prints kt.2) totals ->
       monthly_summary (World (VList l) d c inp out) =
         (Return tt, World (VList l) d c inp (out ++ summary_lines totals))) /\
  (forall m y : N,
     (1000 <= y)%N ->
     month_text (m, y) = two_digits m ++ 45%N :: four_digits y) /\
  monthly_totals example_ledger [] =
    Return [(lit "01-2024", NFloat (whole 15)); (lit "02-2024", NFloat (whole 7))].
Proof.
  split; [|split].
  - intros l das H. split; [by apply monthly_totals_months|].
    intros totals d c inp out Hl Ht Hp.
    apply monthly_summary_lines; [done| |done].
    by rewrite (monthly_totals_months l das H), Ht.
  - intros m y Hy. unfold month_text. cbn [fst snd].
    by rewrite strftime_Y_four_digits.
  - rewrite (monthly_totals_months example_ledger
               [(Date 1 1 2024, NFloat (whole 10)); (Date 15 1 2024, NFloat (whole 5));
                (Date 2 2 2024, NFloat (whole 7))]); [|by vm_compute].
    vm_compute. by destruct pad_year.
Qed.

(** C4.  Load recovery policy.  [load_expenses] starts with an empty
    list for an absent file and for a text that is not JSON, and for
    nothing else.  A JSON text that holds no expense records becomes the
    ledger as it is: the text 42 gives the int 42, which is no ledger and
    which [view_expenses] cannot show.  A file whose bytes are no text
    raises [UnicodeDecodeError] to the caller.  The docstring of the
    function promises an empty list for a file that is corrupted. *)
Theorem load_expenses_keeps_foreign_data e c inp out :
  load_expenses (World e (Text (lit "42")) c inp out) =
    (Return tt, World (VInt 42) (Text (lit "42")) c inp out) /\
  valid_ledger (VInt 42) = false /\
  (view_expenses (World (VInt 42) (Text (lit "42")) c inp out)).1 = Raise TypeError /\
  load_expenses (World e Undecodable c inp out) =
    (Raise UnicodeDecodeError, World e Undecodable c inp out).
Proof.
  split; [|split; [done|split; [done|]]].
  - rewrite load_expenses_cases. cbn [disk].
    assert (json_loads recursion_limit (lit "42") = Return (VInt 42)) as ->
      by (by vm_compute).
    done.
  - by rewrite load_expenses_cases.
Qed.

(** C8.  Empty-ledger aggregation.  On the empty ledger [monthly_summary]
    prints the line "No Expenses Yet." after the rule and returns, with the
    ledger and the file as they were; and what it has printed then differs
    from what it prints for any mapping of totals, the empty mapping
    included. *)
Theorem monthly_summary_empty_ledger :
  (forall d c inp out,
     monthly_summary (World (VList []) d c inp out) =
       (Return tt, World (VList []) d c inp (out ++ no_data_lines))) /\
  (forall out totals, out ++ no_data_lines <> out ++ summary_lines totals).
Proof.
  split.
  { intros d c inp out. unfold monthly_summary, bind, print, get_expenses.
    cbn. by rewrite <- app_assoc. }
  intros out totals H. apply app_inv_head in H.
  apply (f_equal (fun l => l !! 1%nat)) in H.
  vm_compute in H. discriminate.
Qed.

(** ** Reading and printing *)

(** Two worlds that differ in how the lines written are bracketed. *)
Ltac same_output :=
  unfold ret; repeat (f_equal; []); rewrite <- ?app_assoc; cbn [app];
  rewrite <- ?app_assoc; reflexivity.


Lemma io_only_refl w : io_only w w.
Proof. by repeat split. Qed.

Lemma io_only_trans w1 w2 w3 : io_only w1 w2 -> io_only w2 w3 -> io_only w1 w3.
Proof.
  intros (He & Hd & Hc & Hl) (He' & Hd' & Hc' & Hl').
  repeat split; try congruence. by etrans.
Qed.

Lemma io_only_length w w' :
  io_only w w' -> (length (stdin w') <= length (stdin w))%nat.
Proof. intros (_ & _ & _ & H). by apply suffix_length. Qed.

Lemma io_only_print e d c inp out (ls : list line) :
  io_only (World e d c inp out) (World e d c inp (out ++ ls)).
Proof. by repeat split. Qed.

Lemma io_only_input e d c (s : str) rest out (ls : list line) :
  io_only (World e d c (s :: rest) out) (World e d c rest (out ++ ls)).
Proof. repeat split. cbn. by apply suffix_cons_r. Qed.

Lemma view_lines_fields (l : list value) :
  Forall has_fields l ->
  forall i e d c inp out,
    view_lines i l (World e d c inp out) =
      (Return tt, World e d c inp (out ++ expense_line_list i l)).
Proof.
  induction 1 as [|v r Hv _ IH]; intros i e d c inp out.
  - cbn. unfold ret. by rewrite app_nil_r.
  - destruct Hv as [[[[dt ds] ct] a] Hv]. cbn [expense_line_list]. rewrite Hv.
    unfold expense_fields in Hv.
    destruct v as [| | | | |l|dd]; try discriminate.
    destruct (dict_get (lit "Date") dd) as [[| | | |dt'| |]|] eqn:Hdt;
      try discriminate.
    destruct (dict_get (lit "Description") dd) as [[| | | |ds'| |]|] eqn:Hds;
      try discriminate.
    destruct (dict_get (lit "Category") dd) as [[| | | |ct'| |]|] eqn:Hct;
      try discriminate.
    destruct (dict_get (lit "Amount") dd) as [[| | |a'| | |]|] eqn:Ha;
      try discriminate.
    injection Hv as -> -> -> ->.
    cbn [view_lines]. unfold bind, lift, print, subscript.
    rewrite Hdt, Hds, Hct, Ha. cbn -[view_lines]. rewrite IH.
    by rewrite <- app_assoc.
Qed.

Lemma view_expenses_lines (l : list value) :
  Forall has_fields l ->
  forall d c inp out,
    view_expenses (World (VList l) d c inp out) =
      (Return tt, World (VList l) d c inp (out ++ view_output l)).
Proof.
  intros Hl d c inp out. unfold view_expenses, view_output.
  destruct l as [|v r].
  - unfold bind, print, get_expenses. cbn. by rewrite <- !app_assoc.
  - unfold bind, print, get_expenses. cbn -[view_lines expense_line_list].
    rewrite view_lines_fields by done. cbn -[expense_line_list].
    by rewrite <- !app_assoc.
Qed.

(** [ask_again] answers yes or no, or the input ends. *)
Lemma ask_again_post (prompt : str) (w : world) :
  post (ask_again prompt) w (fun o w' =>
    io_only w w' /\
    (o = Return (lit "yes") \/ o = Return (lit "no") \/ o = Raise EOFError)).
Proof.
  unfold ask_again.
  apply (post_loop _ (fun w' => io_only w w')); [apply io_only_refl|].
  intros w1 H1. unfold post, bind, input.
  destruct w1 as [e d c [|line rest] out]; cbn.
  - split; [|by right; right].
    eapply io_only_trans; [exact H1|]. apply io_only_print.
  - assert (H2 : io_only w (World e d c rest (out ++ [Print prompt]))).
    { eapply io_only_trans; [exact H1|]. apply io_only_input. }
    destruct (str_eqb (strip (lower line)) (lit "yes")) eqn:Hy; cbn.
    { apply str_eqb_eq in Hy. rewrite Hy. split; [done|by left]. }
    destruct (str_eqb (strip (lower line)) (lit "no")) eqn:Hn; cbn.
    { apply str_eqb_eq in Hn. rewrite Hn. split; [done|by right; left]. }
    split; [|lia]. eapply io_only_trans; [exact H2|].
    apply io_only_print.
Qed.

(** The answer that the next line gives. *)
Lemma ask_again_answer (prompt line : str) e d c rest out :
  str_eqb (strip (lower line)) (lit "yes") ||
  str_eqb (strip (lower line)) (lit "no") = true ->
  ask_again prompt (World e d c (line :: rest) out) =
    (Return (strip (lower line)), World e d c rest (out ++ [Print prompt])).
Proof.
  intros H. unfold ask_again, loop. cbn [stdin length while_true].
  unfold bind at 1. unfold bind at 1. unfold input. cbn [stdin stdout expenses disk clock].
  rewrite H. reflexivity.
Qed.

(** ** Removing *)

Lemma remove_expense_round_not_int (l : list value) (line : str) d c rest out :
  Forall has_fields l ->
  py_int unicode_digit (strip line) = None ->
  remove_expense_round (World (VList l) d c (line :: rest) out) =
    (Return None,
     World (VList l) d c rest
       (out ++ removal_lines l ++ [Print (ln "Please enter a valid input")])).
Proof.
  intros Hl Hp. unfold remove_expense_round, removal_lines.
  unfold bind at 1. unfold print at 1. cbn [expenses disk clock stdin stdout].
  unfold bind at 1. rewrite view_expenses_lines by done.
  unfold bind at 1. unfold print at 1. cbn [expenses disk clock stdin stdout].
  unfold try_except, bind, input. cbn [expenses disk clock stdin stdout].
  rewrite Hp. cbn -[view_output]. same_output.
Qed.

Lemma remove_expense_round_rejects (l : list value) (line : str) (p : Z)
    d c rest out :
  Forall has_fields l ->
  py_int unicode_digit (strip line) = Some p ->
  p <= 0 \/ p > Z.of_nat (length l) ->
  remove_expense_round (World (VList l) d c (line :: rest) out) =
    (Return None,
     World (VList l) d c rest
       (out ++ removal_lines l ++ [Print (ln "Enter a valid number")])).
Proof.
  intros Hl Hp Hrange. unfold remove_expense_round, removal_lines.
  unfold bind at 1. unfold print at 1. cbn [expenses disk clock stdin stdout].
  unfold bind at 1. rewrite view_expenses_lines by done.
  unfold bind at 1. unfold print at 1. cbn [expenses disk clock stdin stdout].
  unfold try_except, bind, input. cbn [expenses disk clock stdin stdout].
  rewrite Hp. unfold get_expenses. cbn [expenses disk clock stdin stdout].
  destruct (p <=? 0) eqn:H0.
  - cbn -[view_output]. same_output.
  - cbn [ret lift py_len orb].
    assert ((p >? Z.of_nat (length l)) = true) as -> by lia.
    cbn -[view_output]. same_output.
Qed.


Lemma subscript_fuel (v : value) (k : str) : subscript v k <> OutOfFuel.
Proof. destruct v as [| | | | | |d]; try done. cbn. by destruct (dict_get k d). Qed.

Lemma format_2f_fuel (v : value) : format_2f v <> OutOfFuel.
Proof. destruct v as [| |z| | | |]; try done. cbn. by destruct (float_of_int z). Qed.

(** [view_expenses] only prints, whatever the ledger holds. *)
Lemma view_lines_io (l : list value) :
  forall i w,
    post (view_lines i l) w (fun o w' =>
      io_only w w' /\ stdin w' = stdin w /\ o <> OutOfFuel).
Proof.
  induction l as [|v r IH]; intros i w.
  - cbn. unfold post, ret. cbn. by split; [apply io_only_refl|].
  - cbn [view_lines]. unfold post, bind, lift.
    pose proof (subscript_fuel v (lit "Date")) as Hdt.
    destruct (subscript v (lit "Date")) as [dt|e|]; cbn;
      [|by split; [apply io_only_refl|]|done].
    pose proof (subscript_fuel v (lit "Description")) as Hds.
    destruct (subscript v (lit "Description")) as [ds|e|]; cbn;
      [|by split; [apply io_only_refl|]|done].
    pose proof (subscript_fuel v (lit "Category")) as Hct.
    destruct (subscript v (lit "Category")) as [ct|e|]; cbn;
      [|by split; [apply io_only_refl|]|done].
    pose proof (subscript_fuel v (lit "Amount")) as Ha.
    destruct (subscript v (lit "Amount")) as [a|e|]; cbn;
      [|by split; [apply io_only_refl|]|done].
    pose proof (format_2f_fuel a) as Hn.
    destruct (format_2f a) as [n|e|]; cbn;
      [|by split; [apply io_only_refl|]|done].
    destruct w as [e d c inp out]. unfold print. cbn.
    specialize (IH (S i) (World e d c inp (out ++ [ExpenseLine i dt ds ct n]))).
    unfold post in IH. destruct IH as (H1 & H2 & H3).
    split; [|by split].
    eapply io_only_trans; [|exact H1]. apply io_only_print.
Qed.

Lemma view_expenses_io (w : world) :
  post view_expenses w (fun o w' =>
    io_only w w' /\ stdin w' = stdin w /\ o <> OutOfFuel).
Proof.
  destruct w as [e d c inp out].
  unfold view_expenses, post, bind, print, get_expenses. cbn.
  destruct (truthy e); cbn.
  - destruct e as [| | | | |l|dd]; unfold raise; cbn;
      try (by split; [apply io_only_print|]).
    pose proof (view_lines_io l 1 (World (VList l) d c inp (out ++ [dashes])))
      as H.
    unfold post in H.
    destruct (view_lines 1 l _) as [[[]|e|] [e' d' c' inp' out']];
      cbn in *; destruct H as (H1 & H2 & H3); try done.
  - split; [|done]. rewrite <- !app_assoc. apply io_only_print.
Qed.


Lemma remove_expense_round_eof (l : list value) d c out :
  Forall has_fields l ->
  remove_expense_round (World (VList l) d c [] out) =
    (Raise EOFError, World (VList l) d c [] (out ++ removal_lines l)).
Proof.
  intros Hl. unfold remove_expense_round, removal_lines.
  unfold bind at 1. unfold print at 1. cbn [expenses disk clock stdin stdout].
  unfold bind at 1. rewrite view_expenses_lines by done.
  unfold bind at 1. unfold print at 1. cbn [expenses disk clock stdin stdout].
  unfold try_except, bind, input. cbn -[view_output]. same_output.
Qed.






Lemma remove_expense_round_empty (line : str) d c rest out :
  remove_expense_round (World (VList []) d c (line :: rest) out) =
    (Return None,
     World (VList []) d c rest (out ++ removal_lines [] ++ [refusal line])).
Proof.
  unfold refusal.
  destruct (py_int unicode_digit (strip line)) as [p|] eqn:Hp.
  - by rewrite (remove_expense_round_rejects [] line p) by (try done; cbn; lia).
  - by rewrite remove_expense_round_not_int by done.
Qed.

Lemma remove_expense_rounds_empty (inp : list str) d c :
  forall out,
    while_true (S (length inp)) remove_expense_round
      (World (VList []) d c inp out) =
    (Raise EOFError,
     World (VList []) d c [] (out ++ empty_rounds inp ++ removal_lines [])).
Proof.
  induction inp as [|line rest IH]; intros out.
  - cbn [length while_true]. unfold bind.
    by rewrite remove_expense_round_eof by done.
  - cbn [length]. change (while_true (S (S (length rest))) remove_expense_round)
      with (r <- remove_expense_round ;;
            match r with
            | Some a => ret a
            | None => while_true (S (length rest)) remove_expense_round
            end).
    unfold bind. rewrite remove_expense_round_empty. rewrite IH.
    cbn [empty_rounds flat_map]. by rewrite <- !app_assoc.
Qed.

(** X3.  On the empty ledger no run of [remove_expense] removes anything
    or returns.  Every line that [int] reads as an integer is answered with
    "Enter a valid number", every other line with "Please enter a valid
    input", each after the empty ledger has been shown and the number asked
    for; the run ends when the input does, with [EOFError], before the
    closing rule is printed; the ledger is still empty and the file has
    not been touched. *)
Theorem remove_expense_empty_ledger d c inp out :
  remove_expense (World (VList []) d c inp out) =
    (Raise EOFError,
     World (VList []) d c []
       (out ++ [dashes] ++ empty_rounds inp ++ removal_lines [])).
Proof.
  unfold remove_expense. unfold bind at 1. unfold print at 1.
  cbn [expenses disk clock stdin stdout].
  unfold bind at 1. unfold loop. cbn [stdin].
  rewrite remove_expense_rounds_empty. by rewrite <- !app_assoc.
Qed.


(** ** Adding *)

Lemma io_only_suffix w w' (s : str) :
  io_only w w' -> s ∈ stdin w' -> s ∈ stdin w.
Proof.
  intros (_ & _ & _ & [k Hk]) Hs. rewrite Hk. apply elem_of_app. by right.
Qed.

(** The text that [ask_until_given] returns is not empty: it is the text
    given, or else a line of the input as it was typed. *)
Lemma ask_until_given_post (prompt text : str) (w : world) :
  post (ask_until_given prompt text) w (fun o w' =>
    io_only w w' /\
    match o with
    | Return t =>
        t <> [] /\ (t = text \/ text = [] /\ t ∈ stdin w /\
                    (length (stdin w') < length (stdin w))%nat)
    | Raise e => e = EOFError /\ text = []
    | OutOfFuel => False
    end).
Proof.
  unfold ask_until_given. destruct text as [|ch text].
  - apply (post_loop _ (fun w' => io_only w w')); [apply io_only_refl|].
    intros [e d c inp out] H1. unfold post, bind, input. cbn.
    destruct inp as [|line rest]; cbn.
    + split; [|done]. eapply io_only_trans; [exact H1|]. apply io_only_print.
    + assert (H2 : io_only w (World e d c rest (out ++ [Print prompt]))).
      { eapply io_only_trans; [exact H1|]. apply io_only_input. }
      destruct line as [|ch line]; cbn.
      * split; [done|lia].
      * split; [done|]. split; [done|]. right. split; [done|].
        split.
        -- eapply io_only_suffix; [exact H1|]. cbn. apply elem_of_cons. by left.
        -- apply io_only_length in H1. cbn in H1. lia.
  - unfold post, ret. cbn. split; [apply io_only_refl|]. split; [done|by left].
Qed.

(** The amount that [ask_amount] returns is a line of the input read as a
    float, and it is not below zero; a line that is not a float ends the
    loop with [ValueError]. *)
Lemma ask_amount_post (w : world) :
  post (ask_amount) w (fun o w' =>
    io_only w w' /\
    match o with
    | Return a =>
        float_ltb a float_zero = false /\
        exists line, line ∈ stdin w /\
                     py_float unicode_digit (strip line) = Some a
    | Raise e =>
        e = EOFError \/
        e = ValueError /\ (length (stdin w') < length (stdin w))%nat
    | OutOfFuel => False
    end).
Proof.
  unfold ask_amount.
  apply (post_loop _ (fun w' => io_only w w')); [apply io_only_refl|].
  intros [e d c inp out] H1. unfold post, bind, input. cbn.
  destruct inp as [|line rest]; cbn.
  - split; [|by left]. eapply io_only_trans; [exact H1|]. apply io_only_print.
  - assert (H2 : io_only w (World e d c rest
                              (out ++ [Print (ln "Enter amount of your expense: ")]))).
    { eapply io_only_trans; [exact H1|]. apply io_only_input. }
    assert (Hin : line ∈ stdin w).
    { eapply io_only_suffix; [exact H1|]. cbn. apply elem_of_cons. by left. }
    destruct (py_float unicode_digit (strip line)) as [a|] eqn:Ha; cbn.
    + destruct (float_ltb a float_zero) eqn:Hneg; cbn.
      * split; [|lia]. eapply io_only_trans; [exact H2|]. apply io_only_print.
      * split; [done|]. split; [done|]. by exists line.
    + split; [done|]. right. split; [done|].
      apply io_only_length in H1. cbn in H1. lia.
Qed.

Lemma add_expense_round_try :
  add_expense_round = try_except add_expense_try is_ValueError invalid_input.
Proof. reflexivity. Qed.

Lemma entered_text_first (line : str) (rest : list str) :
  capitalize (strip line) <> [] ->
  entered_text (line :: rest) (capitalize (strip line)).
Proof.
  intros H. split; [done|]. exists line. split; [|by left].
  apply elem_of_cons. by left.
Qed.

Lemma entered_text_later (t : str) (inp inp' : list str) :
  t <> [] -> t ∈ inp' -> inp' `suffix_of` inp -> entered_text inp t.
Proof.
  intros Ht Hin [k Hk]. split; [done|]. exists t. split; [|by right].
  rewrite Hk. apply elem_of_app. by right.
Qed.

Lemma entered_text_suffix (t : str) (inp inp' : list str) :
  entered_text inp' t -> inp' `suffix_of` inp -> entered_text inp t.
Proof.
  intros [Ht (line & Hin & H)] [k Hk]. split; [done|]. exists line.
  split; [|done]. rewrite Hk. apply elem_of_app. by right.
Qed.

Lemma entered_amount_suffix (a : float) (inp inp' : list str) :
  entered_amount inp' a -> inp' `suffix_of` inp -> entered_amount inp a.
Proof.
  intros [Ha (line & Hin & H)] [k Hk]. split; [done|]. exists line.
  split; [|done]. rewrite Hk. apply elem_of_app. by right.
Qed.

Lemma entered_suffix (today : date) (v : value) (inp inp' : list str) :
  entered today inp' v -> inp' `suffix_of` inp -> entered today inp v.
Proof.
  intros (ds & ct & a & -> & H1 & H2 & H3) Hs. exists ds, ct, a.
  split; [done|].
  split; [by eapply entered_text_suffix|].
  split; [by eapply entered_text_suffix|by eapply entered_amount_suffix].
Qed.

(** The [try] block of a round of [add_expense], for every ledger and
    every input. *)
Lemma add_expense_try_post (w : world) :
  post add_expense_try w (fun o w' =>
    o <> OutOfFuel /\ clock w' = clock w /\
    stdin w' `suffix_of` stdin w /\
    ((length (stdin w') < length (stdin w))%nat \/ o = Raise EOFError) /\
    round_effect w o w').
Proof.
  destruct w as [e d c inp out]. unfold add_expense_try.
  apply post_bind. unfold post at 1, now. cbn [fst snd clock].
  apply post_bind. unfold post at 1, input. cbn [fst snd stdin stdout expenses disk clock].
  destruct inp as [|l1 rest1]; cbn [fst snd].
  { repeat split; try done. { by right. } left. by repeat split. }
  set (w0 := World e d c (l1 :: rest1) out).
  set (Q := fun (o : outcome (option unit)) (w' : world) =>
              o <> OutOfFuel /\ clock w' = clock w0 /\
              stdin w' `suffix_of` stdin w0 /\
              ((length (stdin w') < length (stdin w0))%nat \/ o = Raise EOFError) /\
              round_effect w0 o w').
  set (w1 := World e d c rest1
               (out ++ [Print (ln "Enter short description of your expense: ")])).
  assert (Hread : forall w', io_only w1 w' ->
            clock w' = clock w0 /\ stdin w' `suffix_of` stdin w0 /\
            (length (stdin w') < length (stdin w0))%nat).
  { intros w' (_ & _ & Hc & Hs). cbn in Hc, Hs. repeat split; [done| |].
    - etrans; [exact Hs|]. cbn. by apply suffix_cons_r.
    - apply suffix_length in Hs. cbn. lia. }
  assert (Hexit : forall o w', io_only w1 w' -> o <> OutOfFuel ->
            o <> Return (Some tt) -> Q o w').
  { intros o w' Hio Ho Ho'. destruct (Hread w' Hio) as (Hc & Hs & Hl).
    split; [done|]. split; [done|]. split; [done|]. split; [by left|].
    left. destruct Hio as (He & Hd & _). by repeat split. }
  change (post
    (desc <- ask_until_given
               (ln "Description cannot be empty, enter description again: ")
               (capitalize (strip l1)) ;;
     line <- input (ln "Enter category of your expense (ex: food, travel, groceries): ") ;;
     category <- ask_until_given
                   (ln "Category cannot be empty, enter category again: ")
                   (capitalize (strip line)) ;;
     amount <- ask_amount ;;
     exps <- get_expenses ;;
     exps' <- lift (py_append exps
                      (make_expense (strftime_dmY pad_year c) desc category amount)) ;;
     set_expenses exps' ;;
     save_expenses ;;
     print (Print (ln "Your expense has been added.")) ;;
     answer <- ask_again (ln "Do you want to add another expense? (yes/no): ") ;;
     if negb (str_eqb answer (lit "yes")) then
       print (Print (ln "Thank you for adding your expense.")) ;;
       print (Print (ln "Here's your updated expense details:")) ;;
       view_expenses ;;
       ret (Some tt)
     else ret None) w1 Q).
  apply post_bind. eapply post_mono; [apply ask_until_given_post|].
  intros o w2 [H2 Ho]. destruct o as [desc|ex|]; [|apply Hexit; try done|done].
  destruct Ho as [Hdesc Hdesc'].
  assert (Hds : entered_text (l1 :: rest1) desc).
  { destruct Hdesc' as [->|(_ & Hin & _)].
    - by apply entered_text_first.
    - eapply entered_text_later; [done|exact Hin|]. by apply suffix_cons_r. }
  clear Hdesc'.
  apply post_bind. unfold post at 1, input.
  destruct w2 as [e2 d2 c2 inp2 out2]. cbn [fst snd stdin stdout expenses disk clock].
  destruct inp2 as [|l2 rest2]; cbn [fst snd].
  { apply Hexit; [|done|done]. eapply io_only_trans; [exact H2|]. apply io_only_print. }
  set (w3 := World e2 d2 c2 rest2
               (out2 ++ [Print (ln "Enter category of your expense (ex: food, travel, groceries): ")])).
  assert (H3 : io_only w1 w3).
  { eapply io_only_trans; [exact H2|]. apply io_only_input. }
  assert (Hl2 : l2 ∈ l1 :: rest1).
  { apply elem_of_cons. right.
    eapply (io_only_suffix w1); [exact H2|]. cbn. apply elem_of_cons. by left. }
  apply post_bind. eapply post_mono; [apply ask_until_given_post|].
  intros o w4 [H4 Ho].
  assert (H4' : io_only w1 w4) by (by eapply io_only_trans).
  destruct o as [category|ex|]; [|apply Hexit; try done|done].
  destruct Ho as [Hcat Hcat'].
  assert (Hct : entered_text (l1 :: rest1) category).
  { destruct Hcat' as [->|(_ & Hin & _)].
    - split; [done|]. exists l2. split; [done|by left].
    - split; [done|]. exists category. split; [|by right].
      apply elem_of_cons. right.
      eapply (io_only_suffix w1); [exact H3|]. exact Hin. }
  clear Hcat'.
  apply post_bind. eapply post_mono; [apply ask_amount_post|].
  intros o w5 [H5 Ho].
  assert (H5' : io_only w1 w5) by (by eapply io_only_trans).
  destruct o as [amount|ex|]; [|apply Hexit; try done|done].
  assert (Ham : entered_amount (l1 :: rest1) amount).
  { destruct Ho as [Hneg (line & Hin & Hline)]. split; [done|].
    exists line. split; [|done]. apply elem_of_cons. right.
    eapply (io_only_suffix w1); [exact H4'|]. exact Hin. }
  clear Ho.
  apply post_bind. unfold post at 1, get_expenses. cbn [fst snd].
  apply post_bind. unfold post at 1, lift. cbn [fst snd].
  destruct H5' as (He5 & Hd5 & Hc5 & Hs5).
  destruct w5 as [e5 d5 c5 inp5 out5]. cbn in He5, Hd5, Hc5, Hs5. subst e5 d5 c5.
  cbn [expenses].
  assert (Hio5 : io_only w1 (World e d c inp5 out5)) by (by repeat split).
  destruct e as [| | | | |l|dd]; cbn [py_append]; try (by apply Hexit).
  set (v := make_expense (strftime_dmY pad_year c) desc category amount).
  assert (Hv : entered c (l1 :: rest1) v) by (by exists desc, category, amount).
  apply post_bind. unfold post at 1, set_expenses.
  cbn [fst snd stdin stdout expenses disk clock].
  assert (Hadded : forall o w' dsk out',
            io_only (World (VList (l ++ [v])) dsk c inp5 out') w' ->
            o <> OutOfFuel ->
            dsk = Text (json_dumps float_repr (VList (l ++ [v]))) \/
            d = Inaccessible /\ dsk = Inaccessible /\ o = Raise OSError ->
            Q o w').
  { intros o w' dsk out' (He' & Hd' & Hc' & Hs') Ho Hdsk.
    cbn in He', Hd', Hc', Hs'.
    assert (Hs6 : stdin w' `suffix_of` rest1) by (by etrans).
    split; [done|]. split; [done|].
    split; [etrans; [exact Hs6|]; by apply suffix_cons_r|].
    split; [left; apply suffix_length in Hs6; cbn; lia|].
    right. exists l, v. split; [done|]. split; [done|]. split; [done|].
    rewrite Hd', He'. destruct Hdsk as [->|(? & ? & ?)]; [by left|by right]. }
  apply post_bind. unfold post at 1, save_expenses.
  cbn [fst snd stdin stdout expenses disk clock].
  destruct d as [| | |s]; cbn [fst snd].
  2: { eapply Hadded; [apply io_only_refl|done|by right]. }
  all: apply post_bind; unfold post at 1, print;
    cbn [fst snd stdin stdout expenses disk clock].
  all: apply post_bind; eapply post_mono; [apply ask_again_post|].
  all: intros o w6 [H6 Ho].
  all: assert (H6' : io_only
         (World (VList (l ++ [v])) (Text (json_dumps float_repr (VList (l ++ [v]))))
            c inp5 out5) w6)
    by (eapply io_only_trans; [|exact H6]; apply io_only_print).
  all: destruct Ho as [-> | [-> | ->]];
    [unfold post, ret; cbn [fst snd negb]; eapply Hadded; [exact H6'|done|by left]
    |
    |eapply Hadded; [exact H6'|done|by left]].
  all: replace (negb (str_eqb (lit "no") (lit "yes"))) with true by (by vm_compute).
  all: apply post_bind; unfold post at 1, print; cbn [fst snd].
  all: apply post_bind; unfold post at 1; cbn [fst snd].
  all: apply post_bind; eapply post_mono; [apply view_expenses_io|].
  all: intros o w7 (H7 & _ & Ho).
  all: assert (H7' : io_only
         (World (VList (l ++ [v])) (Text (json_dumps float_repr (VList (l ++ [v]))))
            c inp5 out5) w7)
    by (eapply io_only_trans; [exact H6'|]; eapply io_only_trans; [|exact H7];
        destruct w6; cbn; rewrite <- app_assoc; apply io_only_print).
  all: destruct o as [[]|ex|]; [| |done].
  all: try (unfold post, ret; cbn [fst snd]).
  all: eapply Hadded; [exact H7'|done|by left].
Qed.

(** A round of [add_expense], for every ledger and every input: it never
    uses up the loop bound, and a round after which the loop goes on has
    read a line. *)
Lemma add_expense_round_post (w : world) :
  post add_expense_round w (fun o w' =>
    o <> OutOfFuel /\ clock w' = clock w /\
    stdin w' `suffix_of` stdin w /\
    (o = Return None -> (length (stdin w') < length (stdin w))%nat) /\
    round_effect w o w').
Proof.
  rewrite add_expense_round_try. apply post_try_except.
  eapply post_mono; [apply add_expense_try_post|].
  intros o w' (Ho & Hc & Hs & Hl & He).
  destruct o as [r|ex|]; [| |done].
  - repeat split; try done. intros _. by destruct Hl.
  - destruct (is_ValueError ex) eqn:Hex.
    + destruct w' as [e' d' c' inp' out'].
      unfold post, invalid_input, bind, print, ret. cbn in *.
      repeat split; try done.
      * intros _. destruct Hl as [Hl|Hl]; [done|]. injection Hl as ->. done.
      * destruct He as [(He1 & He2 & _)|(l & v & He1 & He2 & He3 & He4)].
        -- left. by repeat split.
        -- right. exists l, v. repeat split; try done.
           destruct He4 as [He4|(_ & _ & He4)]; [by left|].
           injection He4 as ->. done.
    + repeat split; try done.
Qed.

Lemma add_expense_round_continues (w w' : world) :
  add_expense_round w = (Return None, w') ->
  (length (stdin w') < length (stdin w))%nat.
Proof.
  intros H. pose proof (add_expense_round_post w) as Hr.
  unfold post in Hr. rewrite H in Hr. cbn in Hr. by apply Hr.
Qed.

(** Every run of [add_expense] appends records made from the input. *)
Lemma add_expense_grows (w : world) (l : list value) :
  expenses w = VList l ->
  post add_expense w (fun o w' =>
    o <> OutOfFuel /\ clock w' = clock w /\
    exists rs,
      expenses w' = VList (l ++ rs) /\
      Forall (entered (clock w) (stdin w)) rs /\
      (o = Return tt ->
       rs <> [] /\ disk w' = Text (json_dumps float_repr (expenses w')))).
Proof.
  intros Hl. unfold add_expense.
  apply post_bind. unfold post at 1, print. cbn [fst snd].
  set (Q := fun (o : outcome unit) (w' : world) =>
    o <> OutOfFuel /\ clock w' = clock w /\
    stdin w' `suffix_of` stdin w /\
    exists rs,
      expenses w' = VList (l ++ rs) /\
      Forall (entered (clock w) (stdin w)) rs /\
      (o = Return tt ->
       rs <> [] /\ disk w' = Text (json_dumps float_repr (expenses w')))).
  apply post_bind.
  apply (post_mono _ _ Q).
  2: { intros o w' (Ho & Hc & Hs & rs & He & Hrs & Hd).
       destruct o as [[]|ex|]; [| |done].
       - unfold post, print. cbn. split; [done|]. split; [done|].
         exists rs. split; [done|]. split; [done|]. intros _. by apply Hd.
       - split; [done|]. split; [done|]. exists rs. by repeat split. }
  apply (post_loop _ (fun w1 =>
           clock w1 = clock w /\ stdin w1 `suffix_of` stdin w /\
           exists rs, expenses w1 = VList (l ++ rs) /\
                      Forall (entered (clock w) (stdin w)) rs)).
  { cbn. split; [done|]. split; [done|]. exists []. by rewrite app_nil_r. }
  intros w1 (Hc1 & Hs1 & rs & He1 & Hrs).
  eapply post_mono; [apply add_expense_round_post|].
  intros o w2 (Ho & Hc2 & Hs2 & Hl2 & Heff).
  assert (Hgrow : exists rs', expenses w2 = VList (l ++ rs') /\
            Forall (entered (clock w) (stdin w)) rs' /\
            (o = Return (Some tt) ->
             rs' <> [] /\ disk w2 = Text (json_dumps float_repr (expenses w2))) /\
            (o = Raise OSError \/ o <> Raise OSError)).
  { destruct Heff as [(He2 & Hd2 & Ho2)|(l' & v & He & He2 & Hv & Hd2)].
    - exists rs. split; [congruence|]. split; [done|]. split; [done|].
      destruct o as [?|[]|]; (by left) || (by right).
    - rewrite He1 in He. injection He as <-. exists (rs ++ [v]).
      split; [by rewrite He2, app_assoc|].
      split.
      + apply Forall_app. split; [done|]. apply Forall_singleton.
        rewrite <- Hc1. by eapply entered_suffix.
      + split.
        * intros ->. split; [by destruct rs|].
          by destruct Hd2 as [?|(_ & _ & ?)].
        * destruct o as [?|[]|]; (by left) || (by right). }
  destruct Hgrow as (rs' & He2 & Hrs' & Hret & _).
  assert (Hs : stdin w2 `suffix_of` stdin w) by (by etrans).
  destruct o as [[[]|]|ex|]; [| | |done].
  - split; [done|]. split; [congruence|]. split; [done|].
    exists rs'. split; [done|]. split; [done|]. intros _. by apply Hret.
  - split; [|by apply Hl2]. split; [congruence|]. split; [done|]. by exists rs'.
  - split; [done|]. split; [congruence|]. split; [done|].
    exists rs'. by repeat split.
Qed.


Lemma ask_until_given_given (prompt text : str) (w : world) :
  text <> [] -> ask_until_given prompt text w = (Return text, w).
Proof. by destruct text. Qed.

Lemma ask_until_given_reasked (prompt line : str) e d c rest out :
  line <> [] ->
  ask_until_given prompt [] (World e d c (line :: rest) out) =
    (Return line, World e d c rest (out ++ [Print prompt])).
Proof.
  intros Hline. unfold ask_until_given, loop. cbn [stdin length while_true].
  unfold bind at 1. unfold bind at 1. unfold input.
  cbn [stdin stdout expenses disk clock]. by destruct line.
Qed.

Lemma ask_amount_accepts (line : str) (a : float) e d c rest out :
  py_float unicode_digit (strip line) = Some a ->
  float_ltb a float_zero = false ->
  ask_amount (World e d c (line :: rest) out) =
    (Return a,
     World e d c rest (out ++ [Print (ln "Enter amount of your expense: ")])).
Proof.
  intros Ha Hneg. unfold ask_amount, loop. cbn [stdin length while_true].
  unfold bind at 1. unfold bind at 1. unfold input.
  cbn [stdin stdout expenses disk clock]. rewrite Ha, Hneg. reflexivity.
Qed.

Lemma ask_amount_not_float (line : str) e d c rest out :
  py_float unicode_digit (strip line) = None ->
  ask_amount (World e d c (line :: rest) out) =
    (Raise ValueError,
     World e d c rest (out ++ [Print (ln "Enter amount of your expense: ")])).
Proof.
  intros Ha. unfold ask_amount, loop. cbn [stdin length while_true].
  unfold bind at 1. unfold bind at 1. unfold input.
  cbn [stdin stdout expenses disk clock]. rewrite Ha. reflexivity.
Qed.






(** X8.  An amount that is not a number.  [float] raises [ValueError],
    the handler of the round prints "Please enter a valid input" and the
    loop starts the round afresh: the ledger and the file are as they
    were, and the description and the category just entered are dropped. *)
Theorem add_expense_amount_not_a_number (dl cl al : str) e d c rest out :
  capitalize (strip dl) <> [] ->
  capitalize (strip cl) <> [] ->
  py_float unicode_digit (strip al) = None ->
  add_expense_round (World e d c (dl :: cl :: al :: rest) out) =
    (Return None,
     World e d c rest
       (out ++ entry_lines ++ [Print (ln "Please enter a valid input")])).
Proof.
  intros Hds Hct Ha.
  rewrite add_expense_round_try. unfold try_except, add_expense_try.
  unfold bind at 1. unfold now at 1. cbn [clock].
  unfold bind at 1. unfold input at 1. cbn [expenses disk clock stdin stdout].
  unfold bind at 1. rewrite ask_until_given_given by done.
  unfold bind at 1. unfold input at 1. cbn [expenses disk clock stdin stdout].
  unfold bind at 1. rewrite ask_until_given_given by done.
  unfold bind at 1. rewrite ask_amount_not_float by done.
  unfold invalid_input, bind, print, ret, entry_lines. cbn. same_output.
Qed.

(** X9.  The amount check is [amount < 0], which is false of a float
    that is not a number: a line that [float] reads as nan is accepted as
    the amount. *)
Theorem ask_amount_accepts_nan (line : str) e d c rest out :
  py_float unicode_digit (strip line) = Some S754_nan ->
  ask_amount (World e d c (line :: rest) out) =
    (Return S754_nan,
     World e d c rest (out ++ [Print (ln "Enter amount of your expense: ")])).
Proof. intros H. by apply ask_amount_accepts. Qed.

(** ** Dates *)

Lemma digit_value_ascii (k : N) :
  (k < 10)%N -> digit_value unicode_digit (48 + k) = Some k.
Proof.
  intros Hk. unfold digit_value.
  assert (((48 <=? 48 + k) && (48 + k <=? 57))%N = true) as ->
    by (apply andb_true_intro; split; apply N.leb_le; lia).
  f_equal. lia.
Qed.

Lemma strptime_year_four_digits (y : N) :
  (y <= 9999)%N -> strptime_year unicode_digit (four_digits y) = Some y.
Proof.
  intros Hy. unfold strptime_year, four_digits.
  rewrite !digit_value_ascii by (apply N.mod_lt; lia).
  f_equal. unfold digits_value. cbn [fold_left].
  assert (H1 : (y / 1000 < 10)%N) by (apply N.Div0.div_lt_upper_bound; lia).
  rewrite (N.mod_small (y / 1000) 10) by done.
  pose proof (N.Div0.div_mod y 10) as E1.
  pose proof (N.Div0.div_mod (y / 10) 10) as E2.
  pose proof (N.Div0.div_mod (y / 100) 10) as E3.
  rewrite N.Div0.div_div in E2. rewrite N.Div0.div_div in E3.
  change (10 * 10)%N with 100%N in E2. change (100 * 10)%N with 1000%N in E3.
  lia.
Qed.

Lemma strptime_day_two_digits (n : N) (r : str) :
  (1 <= n <= 31)%N ->
  strptime_day unicode_digit (two_digits n ++ 45%N :: r) = Some (n, r).
Proof.
  intros Hn.
  assert (H : forall k : nat, (1 <= k <= 31)%nat ->
            strptime_day unicode_digit (two_digits (N.of_nat k) ++ 45%N :: r) =
              Some (N.of_nat k, r)).
  { intros k [Hl Hb].
    do 32 (destruct k as [|k]; [try lia; vm_compute; reflexivity|]). lia. }
  rewrite <- (N2Nat.id n). apply H. lia.
Qed.

Lemma strptime_month_two_digits (n : N) (r : str) :
  (1 <= n <= 12)%N ->
  strptime_month (two_digits n ++ 45%N :: r) = Some (n, r).
Proof.
  intros Hn.
  assert (H : forall k : nat, (1 <= k <= 12)%nat ->
            strptime_month (two_digits (N.of_nat k) ++ 45%N :: r) =
              Some (N.of_nat k, r)).
  { intros k [Hl Hb].
    do 13 (destruct k as [|k]; [try lia; vm_compute; reflexivity|]). lia. }
  rewrite <- (N2Nat.id n). apply H. lia.
Qed.

Lemma days_in_month_bound (y m : N) : (days_in_month y m <= 31)%N.
Proof.
  unfold days_in_month.
  destruct m as [|[[[[]|[]|]|[[]|[]|]|]|[[[]|[]|]|[[]|[]|]|]|]]; try lia;
    by destruct (is_leap y).
Qed.

Lemma strptime_strftime (d : date) :
  valid_date d = true ->
  (1000 <= year d)%N ->
  strptime_dmY unicode_digit (strftime_dmY pad_year d) = Some d.
Proof.
  intros Hv Hy. pose proof Hv as Hv'. unfold valid_date in Hv'.
  apply andb_prop in Hv' as [Hv' H6]. apply andb_prop in Hv' as [Hv' H5].
  apply andb_prop in Hv' as [Hv' H4]. apply andb_prop in Hv' as [Hv' H3].
  apply andb_prop in Hv' as [H1 H2].
  apply N.leb_le in H1, H2, H3, H4, H5, H6.
  pose proof (days_in_month_bound (year d) (month d)) as Hdim.
  unfold strptime_dmY, strftime_dmY.
  rewrite strftime_Y_four_digits by done.
  rewrite strptime_day_two_digits by lia.
  rewrite strptime_month_two_digits by lia.
  rewrite strptime_year_four_digits by lia.
  destruct d as [dd mm yy]. cbn [day month year] in *. cbv zeta. by rewrite Hv.
Qed.

(** X10.  The date that [add_expense] writes is the date that
    [monthly_summary] reads: for a day of the calendar from the year 1000
    on, [strptime] reads the text of [strftime("%d-%m-%Y")] back as that
    day, and the month key of the text is the month and year of the day. *)
Theorem today_is_read_back (d : date) :
  valid_date d = true ->
  (1000 <= year d)%N ->
  strptime_dmY unicode_digit (strftime_dmY pad_year d) = Some d /\
  month_key unicode_digit pad_year (strftime_dmY pad_year d) = Some (strftime_mY pad_year d).
Proof.
  intros Hv Hy. unfold month_key. by rewrite strptime_strftime.
Qed.

(** ** The invariant of the ledger *)

Lemma float_not_below_zero (a : float) :
  float_ltb a float_zero = false -> a <> S754_nan ->
  float_leb float_zero a = true.
Proof. by destruct a as [[]|[]| |[] m e]. Qed.

Lemma entered_valid (today : date) (inp : list str) (v : value) :
  valid_date today = true ->
  (1000 <= year today)%N ->
  no_nan inp ->
  entered today inp v ->
  valid_expense v = true.
Proof.
  intros Hday Hyear Hnan (ds & ct & a & -> & [Hds _] & [Hct _] & [Ha (line & Hin & Hline)]).
  unfold valid_expense.
  change (expense_fields (make_expense (strftime_dmY pad_year today) ds ct a))
    with (Some (strftime_dmY pad_year today, ds, ct, a)).
  cbv beta iota.
  rewrite float_not_below_zero; [|done|].
  - rewrite strptime_strftime by done.
    destruct ds; [done|]. by destruct ct.
  - intros ->. unfold no_nan in Hnan. rewrite Forall_forall in Hnan.
    by apply (Hnan line).
Qed.

(** X11.  [add_expense] keeps the invariant of the ledger.  If every
    record of the ledger has a parseable date, a description and a
    category that are not empty and an amount that is at least zero, the
    clock shows a day of the calendar from the year 1000 on and no line
    of the input reads as nan, then the same holds of the ledger after every run of
    [add_expense], however the run ends. *)
Theorem add_expense_keeps_valid (w : world) :
  valid_ledger (expenses w) = true ->
  valid_date (clock w) = true ->
  (1000 <= year (clock w))%N ->
  no_nan (stdin w) ->
  valid_ledger (expenses (add_expense w).2) = true.
Proof.
  intros Hl Hday Hyear Hnan.
  destruct (expenses w) as [| | | | |l|] eqn:He; try discriminate.
  pose proof (add_expense_grows w l He) as H. unfold post in H.
  destruct H as (_ & _ & rs & -> & Hrs & _).
  cbn in *. rewrite forallb_app, Hl. cbn.
  apply forallb_forall. intros v Hv. apply list_elem_of_In in Hv.
  rewrite Forall_forall in Hrs. eapply entered_valid; [done|done|done|]. by apply Hrs.
Qed.

(** ** Every run of [remove_expense] *)

Lemma remove_expense_round_try :
  remove_expense_round =
    (print (Print (ln "Here's your expense details:")) ;;
     view_expenses ;;
     print (Print (ln "")) ;;
     try_except remove_expense_try is_ValueError invalid_input).
Proof. reflexivity. Qed.

Lemma after_removal_io (w : world) :
  post after_removal w (fun o w' => io_only w w' /\ o <> OutOfFuel).
Proof.
  unfold after_removal. apply post_bind.
  eapply post_mono; [apply ask_again_post|].
  intros o w1 [H1 Ho]. destruct Ho as [-> | [-> | ->]].
  - cbn. unfold post, ret. cbn. by split.
  - replace (negb (str_eqb (lit "no") (lit "yes"))) with true by (by vm_compute).
    apply post_bind. unfold post at 1, print. cbn.
    apply post_bind. unfold post at 1. cbn.
    apply post_bind. eapply post_mono; [apply view_expenses_io|].
    intros o w2 (H2 & _ & Ho).
    assert (H3 : io_only w w2).
    { eapply io_only_trans; [exact H1|]. eapply io_only_trans; [|exact H2].
      destruct w1 as [e d c inp out]. cbn. rewrite <- app_assoc.
      apply io_only_print. }
    destruct o as [[]|e|]; [| |done].
    + unfold post, ret. cbn. by split.
    + by split.
  - cbn. by split.
Qed.

Lemma remove_expense_try_post (w : world) :
  post remove_expense_try w (fun o w' =>
    o <> OutOfFuel /\ clock w' = clock w /\
    stdin w' `suffix_of` stdin w /\
    ((length (stdin w') < length (stdin w))%nat \/ o = Raise EOFError) /\
    removal_effect w o w').
Proof.
  destruct w as [e d c inp out]. unfold remove_expense_try.
  apply post_bind. unfold post at 1, input.
  cbn [fst snd stdin stdout expenses disk clock].
  destruct inp as [|line rest]; cbn [fst snd].
  { repeat split; try done. { by right. } left. by repeat split. }
  set (w0 := World e d c (line :: rest) out).
  set (Q := fun (o : outcome (option unit)) (w' : world) =>
              o <> OutOfFuel /\ clock w' = clock w0 /\
              stdin w' `suffix_of` stdin w0 /\
              ((length (stdin w') < length (stdin w0))%nat \/ o = Raise EOFError) /\
              removal_effect w0 o w').
  set (w1 := World e d c rest
               (out ++ [Print (ln "Enter number of expense you want to remove: ")])).
  assert (Hexit : forall o w', io_only w1 w' -> o <> OutOfFuel ->
            o <> Return (Some tt) -> Q o w').
  { intros o w' (He & Hd & Hc & Hs) Ho Ho'. cbn in He, Hd, Hc, Hs.
    split; [done|]. split; [done|].
    split; [etrans; [exact Hs|]; by apply suffix_cons_r|].
    split; [left; apply suffix_length in Hs; cbn; lia|].
    left. by repeat split. }
  subst w1.
  destruct (py_int unicode_digit (strip line)) as [p|].
  2: { unfold post, raise. cbn [fst snd]. apply Hexit; [apply io_only_refl|done..]. }
  apply post_bind. unfold post at 1, get_expenses. cbn [fst snd expenses].
  apply post_bind.
  destruct (p <=? 0) eqn:Hp0.
  { unfold post at 1, ret. cbn [fst snd orb].
    unfold post, bind, print, ret. cbn [fst snd].
    apply Hexit; [apply io_only_print|done..]. }
  unfold post at 1, lift. cbn [fst snd orb].
  destruct (py_len e) as [n|ex|] eqn:Hn; [| |by destruct e].
  2: { apply Hexit; [apply io_only_refl|done..]. }
  destruct (p >? n) eqn:Hpn.
  { unfold post, bind, print, ret. cbn [fst snd].
    apply Hexit; [apply io_only_print|done..]. }
  apply post_bind. unfold post at 1, lift. cbn [fst snd].
  destruct e as [| | | |s|l|dd]; try discriminate; cbn [py_pop].
  1, 3: apply Hexit; [apply io_only_refl|done..].
  cbn in Hn. injection Hn as <-.
  assert ((0 <=? p - 1) && (p - 1 <? Z.of_nat (length l)) = true) as -> by lia.
  set (l' := delete (Z.to_nat (p - 1)) l).
  assert (Hremoved : forall o w' dsk out',
            io_only (World (VList l') dsk c rest out') w' ->
            o <> OutOfFuel ->
            dsk = Text (json_dumps float_repr (VList l')) \/
            d = Inaccessible /\ dsk = Inaccessible /\ o = Raise OSError ->
            Q o w').
  { intros o w' dsk out' (He' & Hd' & Hc' & Hs') Ho Hdsk.
    cbn in He', Hd', Hc', Hs'.
    split; [done|]. split; [done|].
    split; [etrans; [exact Hs'|]; by apply suffix_cons_r|].
    split; [left; apply suffix_length in Hs'; cbn; lia|].
    right. exists l, (Z.to_nat (p - 1)). split; [done|]. split; [lia|].
    split; [done|].
    rewrite Hd', He'. destruct Hdsk as [->|(? & ? & ?)]; [by left|by right]. }
  apply post_bind. unfold post at 1, set_expenses.
  cbn [fst snd stdin stdout expenses disk clock].
  apply post_bind. unfold post at 1, save_expenses.
  cbn [fst snd stdin stdout expenses disk clock].
  destruct d as [| | |s]; cbn [fst snd].
  2: { eapply Hremoved; [apply io_only_refl|done|by right]. }
  all: apply post_bind; unfold post at 1, print;
    cbn [fst snd stdin stdout expenses disk clock].
  all: eapply post_mono; [apply after_removal_io|].
  all: intros o w2 [H2 Ho].
  all: eapply Hremoved; [|done|by left].
  all: eapply io_only_trans; [|exact H2]; apply io_only_print.
Qed.

Lemma remove_expense_round_post (w : world) :
  post remove_expense_round w (fun o w' =>
    o <> OutOfFuel /\ clock w' = clock w /\
    stdin w' `suffix_of` stdin w /\
    (o = Return None -> (length (stdin w') < length (stdin w))%nat) /\
    removal_effect w o w').
Proof.
  rewrite remove_expense_round_try.
  apply post_bind. unfold post at 1, print. cbn [fst snd].
  apply post_bind. eapply post_mono; [apply view_expenses_io|].
  intros o w1 (H1 & Hin & Ho).
  assert (H1' : io_only w w1).
  { eapply io_only_trans; [|exact H1]. destruct w. apply io_only_print. }
  destruct H1' as (He1 & Hd1 & Hc1 & Hs1).
  destruct o as [[]|ex|]; [| |done].
  2: { repeat split; try done. left. by repeat split. }
  apply post_bind. unfold post at 1, print. cbn [fst snd].
  apply post_try_except.
  eapply post_mono; [apply remove_expense_try_post|].
  destruct w1 as [e1 d1 c1 inp1 out1]. cbn in He1, Hd1, Hc1, Hs1, Hin |- *.
  intros o w2 (Ho2 & Hc2 & Hs2 & Hl2 & Heff).
  assert (Hlen : (length inp1 <= length (stdin w))%nat) by (by apply suffix_length).
  assert (Heff' : forall o', (o = Raise OSError -> o' = Raise OSError) ->
            (o' = Return (Some tt) -> o = Return (Some tt)) ->
            forall w3, expenses w3 = expenses w2 -> disk w3 = disk w2 ->
            removal_effect w o' w3).
  { intros o' Ho' Ho'' w3 He3 Hd3.
    destruct Heff as [(Ha & Hb & Hc)|(l & i & Ha & Hb & Hc & Hd)].
    - left. cbn in Ha, Hb. split; [congruence|]. split; [congruence|].
      intros ->. by apply Hc, Ho''.
    - right. exists l, i. cbn in Ha, Hd. split; [congruence|]. split; [done|].
      split; [congruence|]. rewrite Hd3, He3.
      destruct Hd as [Hd|(Hd & Hd' & Hd'')]; [by left|right].
      split; [congruence|]. split; [done|]. by apply Ho'. }
  destruct o as [r|ex|]; [| |done].
  - split; [done|]. split; [congruence|]. split; [by etrans|].
    split; [|by apply Heff'].
    intros _. destruct Hl2 as [Hl2|Hl2]; [lia|done].
  - destruct (is_ValueError ex) eqn:Hex.
    + destruct w2 as [e2 d2 c2 inp2 out2].
      unfold post, invalid_input, bind, print, ret. cbn in *.
      split; [done|]. split; [congruence|]. split; [by etrans|].
      split.
      * intros _. destruct Hl2 as [Hl2|Hl2]; [lia|]. injection Hl2 as ->. done.
      * apply Heff'; try done. intros [= ->]. done.
    + split; [done|]. split; [congruence|]. split; [by etrans|].
      split; [done|]. by apply Heff'.
Qed.

(** Every run of [remove_expense] leaves records of the ledger, in order. *)
Lemma remove_expense_shrinks (w : world) (l : list value) :
  expenses w = VList l ->
  post remove_expense w (fun o w' =>
    o <> OutOfFuel /\ clock w' = clock w /\
    exists l',
      expenses w' = VList l' /\ l' `sublist_of` l /\
      (o = Return tt ->
       (length l' < length l)%nat /\
       disk w' = Text (json_dumps float_repr (expenses w')))).
Proof.
  intros Hl. unfold remove_expense.
  apply post_bind. unfold post at 1, print. cbn [fst snd].
  set (Q := fun (o : outcome unit) (w' : world) =>
    o <> OutOfFuel /\ clock w' = clock w /\
    exists l',
      expenses w' = VList l' /\ l' `sublist_of` l /\
      (o = Return tt ->
       (length l' < length l)%nat /\
       disk w' = Text (json_dumps float_repr (expenses w')))).
  apply post_bind.
  apply (post_mono _ _ Q).
  2: { intros o w' (Ho & Hc & l' & He & Hsub & Hd).
       destruct o as [[]|ex|]; [| |done].
       - unfold post, print. cbn. split; [done|]. split; [done|].
         exists l'. split; [done|]. split; [done|]. intros _. by apply Hd.
       - split; [done|]. split; [done|]. exists l'. by repeat split. }
  apply (post_loop _ (fun w1 =>
           clock w1 = clock w /\
           exists l1, expenses w1 = VList l1 /\ l1 `sublist_of` l)).
  { cbn. split; [done|]. by exists l. }
  intros w1 (Hc1 & l1 & He1 & Hsub1).
  eapply post_mono; [apply remove_expense_round_post|].
  intros o w2 (Ho & Hc2 & Hs2 & Hl2 & Heff).
  assert (Hshrink : exists l2, expenses w2 = VList l2 /\ l2 `sublist_of` l /\
            (o = Return (Some tt) ->
             (length l2 < length l)%nat /\
             disk w2 = Text (json_dumps float_repr (expenses w2)))).
  { destruct Heff as [(He2 & Hd2 & Ho2)|(l' & i & He & Hi & He2 & Hd2)].
    - exists l1. split; [congruence|]. by split.
    - rewrite He1 in He. injection He as <-. exists (delete i l1).
      split; [done|].
      split; [etrans; [apply sublist_delete|done]|].
      intros ->. split.
      + apply sublist_length in Hsub1.
        rewrite length_delete by (by apply lookup_lt_is_Some). lia.
      + by destruct Hd2 as [?|(_ & _ & ?)]. }
  destruct Hshrink as (l2 & He2 & Hsub2 & Hret).
  destruct o as [[[]|]|ex|]; [| | |done].
  - split; [done|]. split; [congruence|].
    exists l2. split; [done|]. split; [done|]. intros _. by apply Hret.
  - split; [|by apply Hl2]. split; [congruence|]. by exists l2.
  - split; [done|]. split; [congruence|]. exists l2. by repeat split.
Qed.

(** X12.  Every run of [remove_expense] on a ledger [l], for every
    input, ends (it returns or raises) with a ledger made of records of
    [l] in their order: records are taken out, none is added, changed or
    moved past another.  When the run returns, at least one record has
    been removed and the file holds the ledger. *)
Theorem remove_expense_sublist (w : world) (l : list value) :
  expenses w = VList l ->
  post remove_expense w (fun o w' =>
    o <> OutOfFuel /\ clock w' = clock w /\
    exists l',
      expenses w' = VList l' /\ l' `sublist_of` l /\
      (o = Return tt ->
       (length l' < length l)%nat /\
       disk w' = Text (json_dumps float_repr (expenses w')))).
Proof. apply remove_expense_shrinks. Qed.

Lemma valid_ledger_sublist (l l' : list value) :
  l' `sublist_of` l ->
  valid_ledger (VList l) = true -> valid_ledger (VList l') = true.
Proof.
  cbn. intros Hsub H. apply forallb_forall. intros v Hv.
  rewrite forallb_forall in H. apply H.
  apply list_elem_of_In. eapply elem_of_sublist; [|exact Hsub].
  by apply list_elem_of_In.
Qed.

(** X13.  [remove_expense] keeps the invariant of the ledger: if every
    record has a parseable date, a description and a category that are not
    empty and an amount that is at least zero, the same holds of the ledger
    after every run of [remove_expense], however the run ends. *)
Theorem remove_expense_keeps_valid (w : world) :
  valid_ledger (expenses w) = true ->
  valid_ledger (expenses (remove_expense w).2) = true.
Proof.
  intros Hl.
  destruct (expenses w) as [| | | | |l|] eqn:He; try discriminate.
  pose proof (remove_expense_shrinks w l He) as H. unfold post in H.
  destruct H as (_ & _ & l' & -> & Hsub & _).
  by eapply valid_ledger_sublist.
Qed.

(** ** JSON text: what is written is read back *)

Lemma value_ind' (P : value -> Prop) :
  P VNone -> (forall b, P (VBool b)) -> (forall z, P (VInt z)) ->
  (forall f, P (VFloat f)) -> (forall s, P (VStr s)) ->
  (forall l, Forall P l -> P (VList l)) ->
  (forall d, Forall (fun kv => P kv.2) d -> P (VDict d)) ->
  forall v, P v.
Proof.
  intros HN HB HI HF HS HL HD. fix IH 1. intros [| b | z | f | s | l | d].
  - exact HN.
  - apply HB.
  - apply HI.
  - apply HF.
  - apply HS.
  - apply HL. induction l as [|x l IHl]; constructor; [apply IH|exact IHl].
  - apply HD. induction d as [|[k x] d IHd]; constructor; [apply IH|exact IHd].
Qed.

(** *** Numbers *)

Lemma uint_digits_lt (d : Decimal.uint) :
  Forall (fun k => (k < 10)%N) (uint_digits d).
Proof. induction d; cbn; constructor; (lia || done). Qed.

Lemma digits_value_acc (d : Decimal.uint) (p : positive) :
  fold_left (fun acc k => (10 * acc + k)%N) (uint_digits d) (Npos p) =
    Npos (Pos.of_uint_acc d p).
Proof.
  revert p. induction d; intros p; cbn [uint_digits fold_left Pos.of_uint_acc];
    [done|rewrite <- IHd; f_equal; lia..].
Qed.

Lemma digits_value_uint (d : Decimal.uint) :
  digits_value (uint_digits d) = N.of_uint d.
Proof.
  unfold digits_value, N.of_uint.
  induction d; cbn [uint_digits fold_left Pos.of_uint]; [done|exact IHd|..];
    rewrite <- digits_value_acc; f_equal.
Qed.

Lemma digits_value_to_uint (n : N) :
  digits_value (uint_digits (N.to_uint n)) = n.
Proof. by rewrite digits_value_uint, DecimalN.Unsigned.of_to. Qed.

Lemma nzhead_not_D0 (d d' : Decimal.uint) : Decimal.nzhead d <> Decimal.D0 d'.
Proof. induction d; cbn; try done. Qed.

Lemma to_uint_head (p : positive) :
  exists k ds, uint_digits (Pos.to_uint p) = k :: ds /\ (1 <= k < 10)%N.
Proof.
  pose proof (DecimalPos.Unsigned.to_of (Pos.to_uint p)) as H.
  rewrite DecimalPos.Unsigned.of_to in H.
  change (N.to_uint (N.pos p)) with (Pos.to_uint p) in H.
  pose proof (DecimalPos.Unsigned.to_uint_nonnil p) as Hnil.
  pose proof (DecimalPos.Unsigned.to_uint_nonzero p) as Hzero.
  destruct (Pos.to_uint p) as [|d|d|d|d|d|d|d|d|d|d] eqn:E; [done| |..].
  1: { exfalso. unfold Decimal.unorm in H. cbn [Decimal.nzhead] in H.
       destruct (Decimal.nzhead d) as [|d'|d'|d'|d'|d'|d'|d'|d'|d'|d'] eqn:En;
         try discriminate.
       - injection H as ->. done.
       - by apply (nzhead_not_D0 d d'). }
  all: cbn [uint_digits]; eexists _, _; split; [reflexivity|lia].
Qed.

Lemma value_end_cases (rest : str) :
  value_end rest ->
  rest = [] \/ (exists r, rest = 10%N :: r) \/ (exists r, rest = 44%N :: r).
Proof.
  destruct rest as [|c r]; [by left|]. intros [->| ->]; right; [left|right]; by exists r.
Qed.

Lemma take_digits_digits (ds : list N) (rest : str) :
  Forall (fun k => (k < 10)%N) ds ->
  value_end rest ->
  take_digits (map digit_char ds ++ rest) = (ds, rest).
Proof.
  intros Hds Hrest. induction Hds as [|k ds Hk _ IH].
  - cbn [map app]. by destruct (value_end_cases rest Hrest) as [->|[[r ->]|[r ->]]].
  - cbn [map app take_digits]. rewrite IH. unfold is_ascii_digit, digit_char.
    assert (((48 <=? 48 + k) && (48 + k <=? 57))%N = true) as ->
      by (apply andb_true_intro; split; apply N.leb_le; lia).
    f_equal. f_equal. lia.
Qed.

Lemma scan_number_digits (neg : bool) (k : N) (ds : list N) (rest : str) :
  (1 <= k < 10)%N ->
  Forall (fun k => (k < 10)%N) ds ->
  value_end rest ->
  scan_number ((if neg then [45%N] else []) ++
               map digit_char (k :: ds) ++ rest) =
    Some (VInt (if neg then - Z.of_N (digits_value (k :: ds))
                else Z.of_N (digits_value (k :: ds))), rest).
Proof.
  intros Hk Hds Hrest.
  assert (Htake : take_digits (map digit_char (k :: ds) ++ rest) = (k :: ds, rest)).
  { apply take_digits_digits; [|done]. constructor; [lia|done]. }
  cbn [map app] in *.
  assert (Hc : exists c, digit_char k = c /\
             (c = 49 \/ c = 50 \/ c = 51 \/ c = 52 \/ c = 53 \/ c = 54 \/
              c = 55 \/ c = 56 \/ c = 57)%N).
  { exists (digit_char k). split; [done|]. unfold digit_char. lia. }
  destruct Hc as (c & Hc & Hc'). rewrite Hc in *.
  destruct (value_end_cases rest Hrest) as [->|[[r ->]|[r ->]]];
    destruct neg;
    destruct Hc' as [->|[->|[->|[->|[->|[->|[->|[->| ->]]]]]]]];
    unfold scan_number;
    cbn -[take_digits digits_value];
    rewrite Htake; reflexivity.
Qed.

Lemma scan_number_int (z : Z) (rest : str) :
  value_end rest -> scan_number (int_repr z ++ rest) = Some (VInt z, rest).
Proof.
  intros Hrest. destruct z as [|p|p].
  - destruct (value_end_cases rest Hrest) as [->|[[r ->]|[r ->]]]; reflexivity.
  - unfold int_repr. cbn [Z.to_N N.to_uint].
    destruct (to_uint_head p) as (k & ds & E & Hk).
    pose proof (uint_digits_lt (Pos.to_uint p)) as Hlt.
    pose proof (digits_value_to_uint (Npos p)) as Hv. cbn [N.to_uint] in Hv.
    rewrite E in *. apply Forall_cons in Hlt as [_ Hlt].
    pose proof (scan_number_digits false k ds rest Hk Hlt Hrest) as H.
    cbn [app] in H. rewrite H. by rewrite Hv.
  - unfold int_repr. cbn [N.to_uint].
    destruct (to_uint_head p) as (k & ds & E & Hk).
    pose proof (uint_digits_lt (Pos.to_uint p)) as Hlt.
    pose proof (digits_value_to_uint (Npos p)) as Hv. cbn [N.to_uint] in Hv.
    rewrite E in *. apply Forall_cons in Hlt as [_ Hlt].
    pose proof (scan_number_digits true k ds rest Hk Hlt Hrest) as H.
    cbn [app] in H. cbn [app]. rewrite H. by rewrite Hv.
Qed.

(** *** Text *)

(** Case analysis on a code point that a [match] inspects. *)
Ltac case_num :=
  repeat match goal with
         | |- context [match ?x with 0%N => _ | N.pos _ => _ end] =>
             is_var x; destruct x
         | |- context [match ?p with xI _ => _ | xO _ => _ | xH => _ end] =>
             is_var p; destruct p
         end.

Lemma escape_char_plain (c : N) :
  c <> 34%N -> c <> 92%N -> in_range 32 126 c = true -> escape_char c = [c].
Proof.
  intros H1 H2 H3. unfold escape_char. case_num; try done; by rewrite H3.
Qed.

Lemma escape_char_other (c : N) :
  in_range 32 126 c = false ->
  c <> 10%N -> c <> 13%N -> c <> 9%N -> c <> 8%N -> c <> 12%N ->
  escape_char c =
    (if c <? 65536 then 92 :: 117 :: hex4 c
     else
       92 :: 117 :: hex4 (N.lor 55296 (N.land (N.shiftr (c - 65536) 10) 1023)) ++
       92 :: 117 :: hex4 (N.lor 56320 (N.land (c - 65536) 1023)))%N.
Proof.
  intros H0 H1 H2 H3 H4 H5. unfold escape_char.
  case_num; try done; by rewrite H0.
Qed.

Lemma scanstring_plain (c : N) (r : str) :
  c <> 34%N -> c <> 92%N -> (32 <= c)%N ->
  scanstring (c :: r) =
    match scanstring r with
    | Some (t, r') => Some (c :: t, r')
    | None => None
    end.
Proof.
  intros H1 H2 H3. cbn [scanstring].
  assert ((c <? 32)%N || (c =? 92)%N = false) as Hc.
  { apply orb_false_intro; [by apply N.ltb_ge|by apply N.eqb_neq]. }
  case_num; try done; by rewrite Hc.
Qed.

Lemma hex_value_digit (a : N) :
  (a < 16)%N -> hex_value (hex_digit a) = Some a.
Proof.
  intros Ha.
  assert (H : forall k : nat, (k < 16)%nat ->
            hex_value (hex_digit (N.of_nat k)) = Some (N.of_nat k)).
  { intros k Hk. do 16 (destruct k as [|k]; [reflexivity|]). lia. }
  rewrite <- (N2Nat.id a). apply H. lia.
Qed.

Lemma hex4_value_hex4 (c : N) :
  (c < 65536)%N ->
  hex4_value (hex_digit (c / 4096 mod 16)) (hex_digit (c / 256 mod 16))
             (hex_digit (c / 16 mod 16)) (hex_digit (c mod 16)) = Some c.
Proof.
  intros Hc. unfold hex4_value.
  rewrite !hex_value_digit by (apply N.mod_lt; lia).
  f_equal.
  assert (H1 : (c / 4096 < 16)%N) by (apply N.Div0.div_lt_upper_bound; lia).
  rewrite (N.mod_small (c / 4096) 16) by done.
  pose proof (N.Div0.div_mod c 16) as E1.
  pose proof (N.Div0.div_mod (c / 16) 16) as E2.
  pose proof (N.Div0.div_mod (c / 256) 16) as E3.
  rewrite N.Div0.div_div in E2. rewrite N.Div0.div_div in E3.
  change (16 * 16)%N with 256%N in E2. change (256 * 16)%N with 4096%N in E3.
  lia.
Qed.

Lemma land_shifted (k x : N) : (x < 1024)%N -> N.land (k * 1024) x = 0%N.
Proof.
  intros Hx. apply N.bits_inj. intros i. rewrite N.land_spec, N.bits_0.
  destruct (N.lt_ge_cases i 10) as [Hi|Hi].
  - change 1024%N with (2 ^ 10)%N. by rewrite N.mul_pow2_bits_low.
  - rewrite <- (N.mod_small x (2 ^ 10)) by done.
    rewrite N.mod_pow2_bits_high by done. apply andb_false_r.
Qed.

Lemma lor_shifted (k x : N) :
  (x < 1024)%N -> N.lor (k * 1024) x = (k * 1024 + x)%N.
Proof.
  intros Hx. rewrite <- N.lxor_lor by (by apply land_shifted).
  symmetry. apply N.add_nocarry_lxor. by apply land_shifted.
Qed.

Lemma land_1023 (x : N) : N.land x 1023 = (x mod 1024)%N.
Proof. change 1023%N with (N.ones 10). by rewrite N.land_ones. Qed.

Lemma shiftr_10 (x : N) : N.shiftr x 10 = (x / 1024)%N.
Proof. by rewrite N.shiftr_div_pow2. Qed.

Lemma shiftl_10 (x : N) : N.shiftl x 10 = (x * 1024)%N.
Proof. by rewrite N.shiftl_mul_pow2. Qed.

(** The two halves of a code point above the basic plane. *)
Lemma high_half (n : N) :
  exists a, N.lor 55296 (N.land (N.shiftr n 10) 1023) = (55296 + a)%N /\
            (a < 1024)%N /\ a = ((n / 1024) mod 1024)%N.
Proof.
  exists ((n / 1024) mod 1024)%N. rewrite land_1023, shiftr_10.
  assert (H : (n / 1024 mod 1024 < 1024)%N) by (apply N.mod_lt; lia).
  split; [|by split]. change 55296%N with (54 * 1024)%N. by apply lor_shifted.
Qed.

Lemma low_half (n : N) :
  exists b, N.lor 56320 (N.land n 1023) = (56320 + b)%N /\
            (b < 1024)%N /\ b = (n mod 1024)%N.
Proof.
  exists (n mod 1024)%N. rewrite land_1023.
  assert (H : (n mod 1024 < 1024)%N) by (apply N.mod_lt; lia).
  split; [|by split]. change 56320%N with (55 * 1024)%N. by apply lor_shifted.
Qed.

Lemma halves_join (n : N) :
  (n < 1048576)%N ->
  N.lor (N.shiftl ((n / 1024) mod 1024) 10) (n mod 1024) = n.
Proof.
  intros Hn. rewrite shiftl_10.
  rewrite lor_shifted by (apply N.mod_lt; lia).
  assert (H : (n / 1024 < 1024)%N) by (apply N.Div0.div_lt_upper_bound; lia).
  rewrite (N.mod_small (n / 1024)) by done.
  pose proof (N.Div0.div_mod n 1024). lia.
Qed.

(** The four ways in which the encoder writes a code point. *)
Lemma escape_char_cases (c : N) :
  (exists e, escape_char c = [92%N; e] /\
             In (c, e) [(34, 34); (92, 92); (10, 110); (13, 114); (9, 116);
                        (8, 98); (12, 102)]%N) \/
  (escape_char c = [c] /\ c <> 34%N /\ c <> 92%N /\ (32 <= c)%N) \/
  (escape_char c = 92%N :: 117%N :: hex4 c /\ (c < 65536)%N) \/
  (exists a b,
     escape_char c = 92%N :: 117%N :: hex4 (55296 + a) ++
                     92%N :: 117%N :: hex4 (56320 + b) /\
     (a < 1024)%N /\ (b < 1024)%N /\
     a = ((c - 65536) / 1024 mod 1024)%N /\ b = ((c - 65536) mod 1024)%N /\
     (65536 <= c)%N).
Proof.
  destruct (decide (c = 34%N)) as [->|H34]; [left; exists 34%N; split; [done|cbn; repeat ((left; reflexivity) || right)]|].
  destruct (decide (c = 92%N)) as [->|H92]; [left; exists 92%N; split; [done|cbn; repeat ((left; reflexivity) || right)]|].
  destruct (decide (c = 10%N)) as [->|H10]; [left; exists 110%N; split; [done|cbn; repeat ((left; reflexivity) || right)]|].
  destruct (decide (c = 13%N)) as [->|H13]; [left; exists 114%N; split; [done|cbn; repeat ((left; reflexivity) || right)]|].
  destruct (decide (c = 9%N)) as [->|H9]; [left; exists 116%N; split; [done|cbn; repeat ((left; reflexivity) || right)]|].
  destruct (decide (c = 8%N)) as [->|H8]; [left; exists 98%N; split; [done|cbn; repeat ((left; reflexivity) || right)]|].
  destruct (decide (c = 12%N)) as [->|H12]; [left; exists 102%N; split; [done|cbn; repeat ((left; reflexivity) || right)]|].
  right. destruct (in_range 32 126 c) eqn:Hr.
  - left. split; [by apply escape_char_plain|]. repeat split; try done.
    unfold in_range in Hr. apply andb_prop in Hr as [Hr _]. by apply N.leb_le.
  - right. rewrite escape_char_other by done.
    destruct (c <? 65536)%N eqn:Hc.
    + left. split; [done|]. by apply N.ltb_lt.
    + right. destruct (high_half (c - 65536)) as (a & -> & Ha & Ha').
      destruct (low_half (c - 65536)) as (b & -> & Hb & Hb').
      exists a, b. repeat split; try done. by apply N.ltb_ge.
Qed.

Lemma scanstring_unicode (u : N) (r : str) :
  (u < 65536)%N ->
  scanstring (92%N :: 117%N :: hex4 u ++ r) =
    let single :=
      match scanstring r with
      | Some (t, r') => Some (u :: t, r')
      | None => None
      end in
    if is_high_surrogate u then
      match r with
      | 92%N :: 117%N :: d1 :: d2 :: d3 :: d4 :: r2 =>
          match hex4_value d1 d2 d3 d4 with
          | None => None
          | Some u2 =>
              if is_low_surrogate u2 then
                match scanstring r2 with
                | Some (t, r') =>
                    Some ((65536 + N.lor (N.shiftl (u - 55296) 10) (u2 - 56320))%N :: t, r')
                | None => None
                end
              else single
          end
      | _ => single
      end
    else single.
Proof.
  intros Hu. unfold hex4. cbn [app scanstring].
  by rewrite hex4_value_hex4.
Qed.

Lemma scanstring_escape (c : N) (s rest : str) :
  (c < 1114112)%N ->
  match s with
  | c' :: _ => ~ (is_high_surrogate c = true /\ is_low_surrogate c' = true)
  | [] => True
  end ->
  scanstring (escape_char c ++ flat_map escape_char s ++ 34%N :: rest) =
    match scanstring (flat_map escape_char s ++ 34%N :: rest) with
    | Some (t, r') => Some (c :: t, r')
    | None => None
    end.
Proof.
  intros Hc Hpair.
  destruct (escape_char_cases c)
    as [(e & -> & He)|[(-> & H34 & H92 & H32)|[(-> & Hlt)|
        (a & b & -> & Ha & Hb & Ea & Eb & Hge)]]].
  - cbn in He.
    destruct He as [He|[He|[He|[He|[He|[He|[He|[]]]]]]]]; injection He as <- <-;
      reflexivity.
  - cbn [app]. by apply scanstring_plain.
  - cbn [app]. rewrite scanstring_unicode by done. cbv zeta.
    destruct (is_high_surrogate c) eqn:Hh; [|done].
    destruct s as [|c' s']; [reflexivity|]. cbn [flat_map].
    destruct (escape_char_cases c')
      as [(e & -> & He)|[(-> & H34 & H92 & H32)|[(-> & Hlt')|
          (a & b & -> & Ha & Hb & Ea & Eb & Hge)]]].
    + cbn in He.
      destruct He as [He|[He|[He|[He|[He|[He|[He|[]]]]]]]]; injection He as <- <-;
        reflexivity.
    + cbn [app]. generalize (flat_map escape_char s' ++ 34%N :: rest). intros R.
      case_num; try done.
    + unfold hex4. cbn [app]. rewrite hex4_value_hex4 by done.
      destruct (is_low_surrogate c') eqn:Hl; [|done]. by destruct Hpair.
    + unfold hex4. cbn [app]. rewrite hex4_value_hex4 by lia.
      assert (is_low_surrogate (55296 + a) = false) as ->; [|done].
      unfold is_low_surrogate, in_range. apply andb_false_intro1.
      apply N.leb_gt. lia.
  - cbn [app]. rewrite <- app_assoc. cbn [app].
    rewrite scanstring_unicode by lia. cbv zeta.
    assert (is_high_surrogate (55296 + a) = true) as ->.
    { unfold is_high_surrogate, in_range. apply andb_true_intro.
      split; apply N.leb_le; lia. }
    unfold hex4 at 1. cbn [app]. rewrite hex4_value_hex4 by lia.
    assert (is_low_surrogate (56320 + b) = true) as ->.
    { unfold is_low_surrogate, in_range. apply andb_true_intro.
      split; apply N.leb_le; lia. }
    replace (65536 + N.lor (N.shiftl (55296 + a - 55296) 10) (56320 + b - 56320))%N
      with c; [done|].
    replace (55296 + a - 55296)%N with a by lia.
    replace (56320 + b - 56320)%N with b by lia.
    subst a b. rewrite halves_join by lia. lia.
Qed.

Lemma scanstring_encode (s rest : str) :
  is_text s -> no_surrogate_pair s ->
  scanstring (flat_map escape_char s ++ 34%N :: rest) = Some (s, rest).
Proof.
  intros Ht. induction Ht as [|c s Hc Ht IH]; intros Hp; [reflexivity|].
  cbn [flat_map]. rewrite <- app_assoc. rewrite scanstring_escape.
  - rewrite IH; [done|]. destruct s; [done|]. by destruct Hp.
  - done.
  - destruct s; [done|]. by destruct Hp.
Qed.

(** *** The scanner, step by step *)

Lemma skip_ws_indent (lvl : nat) (s : str) :
  skip_ws (newline_indent lvl ++ s) = skip_ws s.
Proof.
  unfold newline_indent. cbn [app skip_ws json_ws N.eqb orb].
  change (json_ws 10) with true. cbv iota.
  induction (4 * lvl)%nat as [|k IH]; [done|]. cbn [repeat app skip_ws]. exact IH.
Qed.

Lemma scan_number_head (s : str) (vr : value * str) :
  scan_number s = Some vr ->
  exists c t, s = c :: t /\
    (c = 45 \/ c = 48 \/ c = 49 \/ c = 50 \/ c = 51 \/ c = 52 \/ c = 53 \/
     c = 54 \/ c = 55 \/ c = 56 \/ c = 57)%N.
Proof.
  destruct s as [|c t]; [discriminate|]. intros H. exists c, t. split; [done|].
  destruct (decide (c = 45%N)) as [?|H45]; [by left|]. right.
  destruct (decide (c = 48%N)) as [?|H48]; [by left|]. right.
  destruct (in_range 49 57 c) eqn:Hr.
  - unfold in_range in Hr. apply andb_prop in Hr as [H1 H2].
    apply N.leb_le in H1, H2. lia.
  - exfalso. revert H. unfold scan_number. case_num; try done; by rewrite Hr.
Qed.

(** A numeral is read by [scan_once] as [scan_number] reads it, and no blank
    precedes it. *)
Lemma scan_once_number (s : str) (vr : value * str) (n depth : nat) :
  scan_number s = Some vr ->
  scan_once (S n) depth s = parse_int vr /\ skip_ws s = s.
Proof.
  intros H. destruct (scan_number_head s vr H) as (c & t & -> & Hc).
  destruct Hc as [->|[->|[->|[->|[->|[->|[->|[->|[->|[->| ->]]]]]]]]]];
    (split; [|reflexivity]); cbn [scan_once]; unfold scan_atom;
    cbn [strip_prefix lit]; by rewrite H.
Qed.

Lemma parse_int_small (z : Z) (r : str) :
  Z.abs z < 10 ^ 4300 -> parse_int (VInt z, r) = Return (VInt z, r).
Proof.
  intros H. unfold parse_int. cbn [fst].
  change (Z.of_nat max_str_digits) with 4300.
  apply Z.ltb_lt in H. by rewrite H.
Qed.

Lemma scan_once_closing (n depth : nat) (t : str) (vr : value * str) :
  scan_once n depth (93%N :: t) <> Return vr /\
  scan_once n depth (125%N :: t) <> Return vr /\
  scan_once n depth (65279%N :: t) <> Return vr /\
  scan_once n depth [] <> Return vr.
Proof. by destruct n. Qed.

Lemma scan_once_array (n d : nat) (r : str) (c : N) (t : str) :
  skip_ws r = c :: t -> c <> 93%N ->
  scan_once (S n) (S d) (91%N :: r) =
    (vs <~ scan_items n d (c :: t) ;; Return (VList vs.1, vs.2)).
Proof. intros H Hc. cbn [scan_once]. rewrite H. case_num; done. Qed.

Lemma scan_once_object (n d : nat) (r : str) (c : N) (t : str) :
  skip_ws r = c :: t -> c <> 125%N ->
  scan_once (S n) (S d) (123%N :: r) =
    (ps <~ scan_members n d (c :: t) ;; Return (VDict (dict_of_pairs ps.1), ps.2)).
Proof. intros H Hc. cbn [scan_once]. rewrite H. case_num; done. Qed.

Lemma scan_items_step (n depth : nat) (s : str) (v : value) (r : str) :
  scan_once n depth s = Return (v, r) ->
  scan_items (S n) depth s =
    match skip_ws r with
    | 93%N :: r' => Return ([v], r')
    | 44%N :: r' =>
        vs <~ scan_items n depth (skip_ws r') ;; Return (v :: vs.1, vs.2)
    | _ => Raise JSONDecodeError
    end.
Proof. intros H. cbn [scan_items]. by rewrite H. Qed.

Lemma json_loads_scan (limit : nat) (c : N) (t : str) :
  c <> 65279%N ->
  json_loads limit (c :: t) =
    (v <~ scan_once (2 * length (c :: t) + 2) limit (skip_ws (c :: t)) ;;
     match skip_ws v.2 with
     | [] => Return v.1
     | _ => Raise JSONDecodeError
     end).
Proof. intros Hc. unfold json_loads. case_num; done. Qed.

(** *** The scanner comes to an end *)

Lemma skip_ws_length (s : str) : (length (skip_ws s) <= length s)%nat.
Proof.
  induction s as [|c r IH]; [done|]. cbn [skip_ws].
  destruct (json_ws c); cbn [length]; lia.
Qed.

Lemma take_digits_length (s : str) (ds : list N) (r : str) :
  take_digits s = (ds, r) -> (length r <= length s)%nat.
Proof.
  revert ds r. induction s as [|c t IH]; intros ds r H.
  - by injection H as _ <-.
  - cbn [take_digits] in H. destruct (is_ascii_digit c).
    + destruct (take_digits t) as [ds' r'] eqn:E. injection H as _ <-.
      specialize (IH ds' r' eq_refl). cbn [length]. lia.
    + by injection H as _ <-.
Qed.

Lemma strip_prefix_length (w s r : str) :
  strip_prefix w s = Some r -> (length r <= length s)%nat.
Proof.
  revert s. induction w as [|a w IH]; intros s H.
  - by injection H as <-.
  - destruct s as [|b s]; [done|]. cbn [strip_prefix] in H.
    destruct (a =? b)%N; [|done]. apply IH in H. cbn [length]. lia.
Qed.

Lemma scanstring_other (c : N) (r : str) :
  c <> 34%N -> c <> 92%N ->
  scanstring (c :: r) =
    if (c <? 32)%N || (c =? 92)%N then None
    else match scanstring r with
         | Some (t, r') => Some (c :: t, r')
         | None => None
         end.
Proof. intros H1 H2. cbn [scanstring]. case_num; done. Qed.

Lemma scanstring_backslash (e : N) (r : str) :
  e <> 117%N ->
  scanstring (92%N :: e :: r) =
    match unescape e with
    | Some c =>
        match scanstring r with
        | Some (t, r') => Some (c :: t, r')
        | None => None
        end
    | None => None
    end.
Proof. intros H. cbn [scanstring]. case_num; done. Qed.

Lemma scanstring_u_cases (c1 c2 c3 c4 : N) (r : str) (t r' : str) :
  scanstring (92%N :: 117%N :: c1 :: c2 :: c3 :: c4 :: r) = Some (t, r') ->
  (exists t', scanstring r = Some (t', r')) \/
  (exists d1 d2 d3 d4 r2 t',
     r = 92%N :: 117%N :: d1 :: d2 :: d3 :: d4 :: r2 /\
     scanstring r2 = Some (t', r')).
Proof.
  cbn [scanstring]. destruct (hex4_value c1 c2 c3 c4) as [u|]; [|done].
  set (single := match scanstring r with
                 | Some (t0, r'0) => Some (u :: t0, r'0)
                 | None => None
                 end).
  assert (Hs : single = Some (t, r') -> exists t', scanstring r = Some (t', r')).
  { unfold single. destruct (scanstring r) as [[t0 r0]|]; [|done].
    intros [= <- <-]. by eexists. }
  clearbody single.
  destruct (is_high_surrogate u); [|by left; apply Hs].
  destruct r as [|a r1]; [by left; apply Hs|].
  destruct (decide (a = 92%N)) as [->|Ha].
  2: { intros H. left. apply Hs. revert H. case_num; done. }
  destruct r1 as [|b r2]; [by left; apply Hs|].
  destruct (decide (b = 117%N)) as [->|Hb].
  2: { intros H. left. apply Hs. revert H. case_num; done. }
  destruct r2 as [|d1 [|d2 [|d3 [|d4 r3]]]]; try (by left; apply Hs).
  destruct (hex4_value d1 d2 d3 d4) as [u2|]; [|done].
  destruct (is_low_surrogate u2); [|by left; apply Hs].
  destruct (scanstring r3) as [[t0 r0]|] eqn:E; [|done].
  intros [= <- <-]. right. by exists d1, d2, d3, d4, r3, t0.
Qed.

Lemma scanstring_u_short (s : str) :
  (length s < 4)%nat -> scanstring (92%N :: 117%N :: s) = None.
Proof.
  intros H. destruct s as [|c1 [|c2 [|c3 [|c4 r]]]]; try done.
  cbn [length] in H. lia.
Qed.

Lemma scanstring_length_aux (n : nat) :
  forall s t r, (length s <= n)%nat -> scanstring s = Some (t, r) ->
                (length r < length s)%nat.
Proof.
  induction n as [|n IH]; intros s t r Hn H.
  - destruct s; [discriminate|cbn in Hn; lia].
  - destruct s as [|c s1]; [discriminate|]. cbn [length] in *.
    destruct (decide (c = 34%N)) as [->|H34].
    { cbn in H. injection H as _ <-. lia. }
    destruct (decide (c = 92%N)) as [->|H92].
    2: { rewrite scanstring_other in H by done.
         destruct ((c <? 32)%N || (c =? 92)%N); [discriminate|].
         destruct (scanstring s1) as [[t' r']|] eqn:E; [|discriminate].
         injection H as _ <-. apply IH in E; lia. }
    destruct s1 as [|e s2]; [discriminate|]. cbn [length] in *.
    destruct (decide (e = 117%N)) as [->|H117].
    2: { rewrite scanstring_backslash in H by done.
         destruct (unescape e); [|discriminate].
         destruct (scanstring s2) as [[t' r']|] eqn:E; [|discriminate].
         injection H as _ <-. apply IH in E; lia. }
    destruct (le_lt_dec 4 (length s2)) as [Hlen|Hlen].
    2: { by rewrite scanstring_u_short in H. }
    destruct s2 as [|c1 [|c2 [|c3 [|c4 s3]]]]; try (cbn in Hlen; lia).
    cbn [length] in *.
    apply scanstring_u_cases in H
      as [(t' & E)|(d1 & d2 & d3 & d4 & r2 & t' & -> & E)].
    + apply IH in E; lia.
    + cbn [length] in *. apply IH in E; lia.
Qed.

Lemma scanstring_length (s t r : str) :
  scanstring s = Some (t, r) -> (length r < length s)%nat.
Proof. by apply (scanstring_length_aux (length s)). Qed.

Lemma scan_number_length (s : str) (v : value) (r : str) :
  scan_number s = Some (v, r) -> (length r <= length s)%nat.
Proof.
  unfold scan_number.
  set (sg := match s with 45%N :: r0 => (true, r0) | _ => (false, s) end).
  assert (Hsg : (length sg.2 <= length s)%nat).
  { unfold sg. destruct s as [|c t]; [done|].
    destruct (decide (c = 45%N)) as [->|Hc]; [cbn; lia|].
    case_num; cbn; lia. }
  destruct sg as [neg s1]. cbn [snd] in Hsg.
  set (ip := match s1 with
             | 48%N :: r0 => Some ([0%N], r0)
             | c :: _ => if in_range 49 57 c then Some (take_digits s1) else None
             | [] => None
             end).
  assert (Hip : forall ds r0, ip = Some (ds, r0) -> (length r0 <= length s1)%nat).
  { unfold ip. intros ds r0. destruct s1 as [|c t]; [done|].
    destruct (decide (c = 48%N)) as [->|Hc]; [intros [= _ <-]; cbn; lia|].
    assert (E : match c with
                | 48%N => Some ([0%N], t)
                | _ => if in_range 49 57 c then Some (take_digits (c :: t)) else None
                end = if in_range 49 57 c then Some (take_digits (c :: t)) else None).
    { case_num; done. }
    rewrite E. destruct (in_range 49 57 c); [|done].
    intros H. apply (take_digits_length (c :: t) ds). congruence. }
  destruct ip as [[ds r0]|]; [|done]. specialize (Hip ds r0 eq_refl).
  set (fp := match r0 with
             | 46%N :: r' =>
                 match take_digits r' with
                 | ([], _) => ([], r0)
                 | (ds0, r'') => (ds0, r'')
                 end
             | _ => ([], r0)
             end).
  assert (Hfp : (length fp.2 <= length r0)%nat).
  { unfold fp. destruct r0 as [|c t]; [done|].
    destruct (decide (c = 46%N)) as [->|Hc].
    - destruct (take_digits t) as [[|d ds0] r''] eqn:E; [done|].
      apply take_digits_length in E. cbn. lia.
    - case_num; cbn; lia. }
  destruct fp as [fds r1]. cbn [snd] in Hfp.
  set (ex := match r1 with
             | c :: r' =>
                 if ((c =? 101) || (c =? 69))%N then
                   let '(eneg, r'') :=
                     match r' with
                     | 45%N :: t => (true, t)
                     | 43%N :: t => (false, t)
                     | _ => (false, r')
                     end in
                   match take_digits r'' with
                   | ([], _) => (None, r1)
                   | (ds0, r3) =>
                       let n := Z.of_N (digits_value ds0) in
                       (Some (if eneg then - n else n), r3)
                   end
                 else (None, r1)
             | [] => (None, r1)
             end).
  assert (Hex : (length ex.2 <= length r1)%nat).
  { unfold ex. destruct r1 as [|c t]; [done|].
    destruct ((c =? 101) || (c =? 69))%N; [|done].
    set (sg2 := match t with
                | 45%N :: t0 => (true, t0)
                | 43%N :: t0 => (false, t0)
                | _ => (false, t)
                end).
    assert (Hsg2 : (length sg2.2 <= length t)%nat).
    { unfold sg2. destruct t as [|c' t']; [done|].
      destruct (decide (c' = 45%N)) as [->|H45]; [cbn; lia|].
      destruct (decide (c' = 43%N)) as [->|H43]; [cbn; lia|].
      case_num; cbn; lia. }
    destruct sg2 as [eneg r'']. cbn [snd] in Hsg2.
    destruct (take_digits r'') as [[|d ds0] r3] eqn:E; [done|].
    apply take_digits_length in E. cbn [snd length]. lia. }
  destruct ex as [e r2]. cbn [snd] in Hex.
  destruct fds, e; intros [= _ <-]; lia.
Qed.

Lemma parse_int_rest (vr : value * str) (v : value) (r : str) :
  parse_int vr = Return (v, r) -> vr = (v, r).
Proof.
  unfold parse_int. destruct vr as [[| |z| | | |] r0]; cbn [fst];
    try (by intros [= <- <-]).
  destruct (Z.abs z <? 10 ^ Z.of_nat max_str_digits); [|done].
  by intros [= <- <-].
Qed.

Lemma scan_atom_length (s : str) (v : value) (r : str) :
  scan_atom s = Return (v, r) -> (length r <= length s)%nat.
Proof.
  unfold scan_atom.
  destruct (strip_prefix (lit "null") s) as [r0|] eqn:E1.
  { intros [= _ <-]. by apply strip_prefix_length in E1. }
  destruct (strip_prefix (lit "true") s) as [r0|] eqn:E2.
  { intros [= _ <-]. by apply strip_prefix_length in E2. }
  destruct (strip_prefix (lit "false") s) as [r0|] eqn:E3.
  { intros [= _ <-]. by apply strip_prefix_length in E3. }
  destruct (scan_number s) as [[v0 r0]|] eqn:E4.
  { intros H. apply parse_int_rest in H. injection H as -> ->.
    by apply scan_number_length in E4. }
  destruct (strip_prefix (lit "NaN") s) as [r0|] eqn:E5.
  { intros [= _ <-]. by apply strip_prefix_length in E5. }
  destruct (strip_prefix (lit "Infinity") s) as [r0|] eqn:E6.
  { intros [= _ <-]. by apply strip_prefix_length in E6. }
  destruct (strip_prefix (lit "-Infinity") s) as [r0|] eqn:E7; [|done].
  intros [= _ <-]. by apply strip_prefix_length in E7.
Qed.

Lemma scan_atom_ends (s : str) : scan_atom s <> OutOfFuel.
Proof.
  unfold scan_atom.
  destruct (strip_prefix (lit "null") s); [done|].
  destruct (strip_prefix (lit "true") s); [done|].
  destruct (strip_prefix (lit "false") s); [done|].
  destruct (scan_number s) as [[v r]|].
  { unfold parse_int. cbn [fst]. destruct v; try done.
    by destruct (Z.abs z <? 10 ^ Z.of_nat max_str_digits). }
  destruct (strip_prefix (lit "NaN") s); [done|].
  destruct (strip_prefix (lit "Infinity") s); [done|].
  by destruct (strip_prefix (lit "-Infinity") s).
Qed.

(** One step of [scan_once] on a text that starts neither a string, an
    object nor an array. *)
Lemma scan_once_atom (n depth : nat) (c : N) (t : str) :
  c <> 34%N -> c <> 123%N -> c <> 91%N ->
  scan_once (S n) depth (c :: t) = scan_atom (c :: t).
Proof. intros H1 H2 H3. cbn [scan_once]. case_num; done. Qed.

Lemma scan_once_empty (n depth : nat) : scan_once (S n) depth [] = scan_atom [].
Proof. reflexivity. Qed.

Lemma skip_ws_cons_length (s : str) (c : N) (t : str) :
  skip_ws s = c :: t -> (S (length t) <= length s)%nat.
Proof.
  intros H. pose proof (skip_ws_length s) as Hl. rewrite H in Hl. exact Hl.
Qed.

(** What is left of the text after a value is no longer than the text. *)
Lemma scan_length (n : nat) :
  (forall depth s v r,
     scan_once n depth s = Return (v, r) -> (length r <= length s)%nat) /\
  (forall depth s vs r,
     scan_items n depth s = Return (vs, r) -> (length r <= length s)%nat) /\
  (forall depth s ps r,
     scan_members n depth s = Return (ps, r) -> (length r <= length s)%nat).
Proof.
  induction n as [|n (IHo & IHi & IHm)]; [by repeat split|].
  split; [|split].
  - intros depth s v r. destruct s as [|c t]; [apply scan_atom_length|].
    destruct (decide (c = 34%N)) as [->|H34].
    { cbn [scan_once]. destruct (scanstring t) as [[k r']|] eqn:E; [|done].
      intros [= _ <-]. apply scanstring_length in E. cbn [length]. lia. }
    destruct (decide (c = 123%N)) as [->|H123].
    { destruct depth as [|d]; [done|].
      destruct (skip_ws t) as [|c' t'] eqn:E.
      - cbn [scan_once]. rewrite E.
        destruct (scan_members n d []) as [[ps r']| |] eqn:E2; [|done|done].
        intros [= _ <-]. apply IHm in E2. cbn [length] in *. lia.
      - destruct (decide (c' = 125%N)) as [->|H125].
        { cbn [scan_once]. rewrite E. apply skip_ws_cons_length in E.
          intros [= _ <-]. cbn [length]. lia. }
        rewrite (scan_once_object n d t c' t' E H125).
        apply skip_ws_cons_length in E.
        destruct (scan_members n d (c' :: t')) as [[ps r']| |] eqn:E2;
          [|done|done].
        intros [= _ <-]. apply IHm in E2. cbn [length] in *. lia. }
    destruct (decide (c = 91%N)) as [->|H91].
    { destruct depth as [|d]; [done|].
      destruct (skip_ws t) as [|c' t'] eqn:E.
      - cbn [scan_once]. rewrite E.
        destruct (scan_items n d []) as [[vs r']| |] eqn:E2; [|done|done].
        intros [= _ <-]. apply IHi in E2. cbn [length] in *. lia.
      - destruct (decide (c' = 93%N)) as [->|H93].
        { cbn [scan_once]. rewrite E. apply skip_ws_cons_length in E.
          intros [= _ <-]. cbn [length]. lia. }
        rewrite (scan_once_array n d t c' t' E H93).
        apply skip_ws_cons_length in E.
        destruct (scan_items n d (c' :: t')) as [[vs r']| |] eqn:E2;
          [|done|done].
        intros [= _ <-]. apply IHi in E2. cbn [length] in *. lia. }
    rewrite scan_once_atom by done. apply scan_atom_length.
  - intros depth s vs r. cbn [scan_items].
    destruct (scan_once n depth s) as [[v r1]| |] eqn:E; [|done|done].
    apply IHo in E. cbn [obind fst snd].
    destruct (skip_ws r1) as [|c' t'] eqn:E1; [done|].
    apply skip_ws_cons_length in E1.
    destruct (decide (c' = 93%N)) as [->|H93]; [intros [= _ <-]; lia|].
    destruct (decide (c' = 44%N)) as [->|H44].
    + destruct (scan_items n depth (skip_ws t')) as [[vs' r']| |] eqn:E2;
        [|done|done].
      intros [= _ <-]. apply IHi in E2. pose proof (skip_ws_length t'). lia.
    + case_num; done.
  - intros depth s ps r. destruct s as [|c t]; [done|].
    destruct (decide (c = 34%N)) as [->|H34]; [|cbn [scan_members]; case_num; done].
    cbn [scan_members].
    destruct (scanstring t) as [[k r1]|] eqn:E; [|done].
    apply scanstring_length in E.
    destruct (skip_ws r1) as [|c1 r2] eqn:E1; [done|].
    apply skip_ws_cons_length in E1.
    destruct (decide (c1 = 58%N)) as [->|H58]; [|case_num; done].
    destruct (scan_once n depth (skip_ws r2)) as [[v r3]| |] eqn:E2; [|done|done].
    apply IHo in E2. pose proof (skip_ws_length r2). cbn [obind fst snd].
    destruct (skip_ws r3) as [|c3 r4] eqn:E3; [done|].
    apply skip_ws_cons_length in E3. cbn [length].
    destruct (decide (c3 = 125%N)) as [->|H125]; [intros [= _ <-]; lia|].
    destruct (decide (c3 = 44%N)) as [->|H44]; [|case_num; done].
    destruct (scan_members n depth (skip_ws r4)) as [[ps' r']| |] eqn:E4;
      [|done|done].
    intros [= _ <-]. apply IHm in E4. pose proof (skip_ws_length r4). lia.
Qed.

(** With fuel for twice the length of the text the scanner comes to an
    end. *)
Lemma scan_ends (n : nat) :
  (forall depth s, (2 * length s + 1 <= n)%nat -> scan_once n depth s <> OutOfFuel) /\
  (forall depth s, (2 * length s + 2 <= n)%nat -> scan_items n depth s <> OutOfFuel) /\
  (forall depth s, (2 * length s + 2 <= n)%nat -> scan_members n depth s <> OutOfFuel).
Proof.
  induction n as [|n (IHo & IHi & IHm)]; [repeat split; intros; lia|].
  split; [|split].
  - intros depth s Hn. destruct s as [|c t]; [apply scan_atom_ends|].
    cbn [length] in Hn.
    destruct (decide (c = 34%N)) as [->|H34].
    { cbn [scan_once]. by destruct (scanstring t) as [[k r']|]. }
    destruct (decide (c = 123%N)) as [->|H123].
    { destruct depth as [|d]; [done|].
      pose proof (skip_ws_length t) as Hl.
      destruct (skip_ws t) as [|c' t'] eqn:E.
      - cbn [scan_once]. rewrite E.
        pose proof (IHm d [] ltac:(cbn; lia)).
        by destruct (scan_members n d []) as [[ps r']| |].
      - destruct (decide (c' = 125%N)) as [->|H125].
        { cbn [scan_once]. by rewrite E. }
        rewrite (scan_once_object n d t c' t' E H125).
        pose proof (IHm d (c' :: t') ltac:(lia)).
        by destruct (scan_members n d (c' :: t')) as [[ps r']| |]. }
    destruct (decide (c = 91%N)) as [->|H91].
    { destruct depth as [|d]; [done|].
      pose proof (skip_ws_length t) as Hl.
      destruct (skip_ws t) as [|c' t'] eqn:E.
      - cbn [scan_once]. rewrite E.
        pose proof (IHi d [] ltac:(cbn; lia)).
        by destruct (scan_items n d []) as [[vs r']| |].
      - destruct (decide (c' = 93%N)) as [->|H93].
        { cbn [scan_once]. by rewrite E. }
        rewrite (scan_once_array n d t c' t' E H93).
        pose proof (IHi d (c' :: t') ltac:(lia)).
        by destruct (scan_items n d (c' :: t')) as [[vs r']| |]. }
    rewrite scan_once_atom by done. apply scan_atom_ends.
  - intros depth s Hn. cbn [scan_items].
    pose proof (IHo depth s ltac:(lia)) as Ho.
    destruct (scan_once n depth s) as [[v r1]| |] eqn:E; [|done|done].
    apply (proj1 (scan_length n)) in E. cbn [obind fst snd].
    destruct (skip_ws r1) as [|c' t'] eqn:E1; [done|].
    apply skip_ws_cons_length in E1.
    destruct (decide (c' = 93%N)) as [->|H93]; [done|].
    destruct (decide (c' = 44%N)) as [->|H44]; [|case_num; done].
    pose proof (skip_ws_length t').
    pose proof (IHi depth (skip_ws t') ltac:(lia)).
    by destruct (scan_items n depth (skip_ws t')) as [[vs' r']| |].
  - intros depth s Hn. destruct s as [|c t]; [done|]. cbn [length] in Hn.
    destruct (decide (c = 34%N)) as [->|H34]; [|cbn [scan_members]; case_num; done].
    cbn [scan_members].
    destruct (scanstring t) as [[k r1]|] eqn:E; [|done].
    apply scanstring_length in E.
    destruct (skip_ws r1) as [|c1 r2] eqn:E1; [done|].
    apply skip_ws_cons_length in E1.
    destruct (decide (c1 = 58%N)) as [->|H58]; [|case_num; done].
    pose proof (skip_ws_length r2).
    pose proof (IHo depth (skip_ws r2) ltac:(lia)) as Ho.
    destruct (scan_once n depth (skip_ws r2)) as [[v r3]| |] eqn:E2; [|done|done].
    apply (proj1 (scan_length n)) in E2. cbn [obind fst snd].
    destruct (skip_ws r3) as [|c3 r4] eqn:E3; [done|].
    apply skip_ws_cons_length in E3.
    destruct (decide (c3 = 125%N)) as [->|H125]; [done|].
    destruct (decide (c3 = 44%N)) as [->|H44]; [|case_num; done].
    pose proof (skip_ws_length r4).
    pose proof (IHm depth (skip_ws r4) ltac:(lia)).
    by destruct (scan_members n depth (skip_ws r4)) as [[ps' r']| |].
Qed.

(** [json.loads] returns a value or raises, whatever the text. *)
Lemma json_loads_ends (limit : nat) (s : str) : json_loads limit s <> OutOfFuel.
Proof.
  unfold json_loads.
  assert (H : (v <~ scan_once (2 * length s + 2) limit (skip_ws s) ;;
               match skip_ws v.2 with
               | [] => Return v.1
               | _ => Raise JSONDecodeError
               end) <> OutOfFuel).
  { pose proof (skip_ws_length s).
    pose proof (proj1 (scan_ends (2 * length s + 2)) limit (skip_ws s) ltac:(lia)).
    destruct (scan_once (2 * length s + 2) limit (skip_ws s)) as [[v r]| |];
      [|done|done].
    cbn [obind fst snd]. by destruct (skip_ws r). }
  destruct s as [|c t]; [done|]. revert H. case_num; done.
Qed.

(** *** Dicts without a repeated key *)

Lemma dict_set_new {A} (k : str) (x : A) (d : list (str * A)) :
  k ∉ map fst d -> dict_set k x d = d ++ [(k, x)].
Proof.
  induction d as [|[k' x'] d IH]; intros Hk; [done|].
  cbn [map fst] in Hk. apply not_elem_of_cons in Hk as [Hne Hk].
  cbn [dict_set app]. unfold str_eqb. rewrite bool_decide_eq_false_2 by done.
  by rewrite IH.
Qed.

Lemma dict_of_pairs_acc {A} (ps acc : list (str * A)) :
  NoDup (map fst (acc ++ ps)) ->
  fold_left (fun d kv => dict_set (fst kv) (snd kv) d) ps acc = acc ++ ps.
Proof.
  revert acc. induction ps as [|[k x] ps IH]; intros acc Hnd.
  - by rewrite app_nil_r.
  - cbn [fold_left fst snd]. rewrite dict_set_new.
    + rewrite IH; rewrite <- app_assoc; [done|exact Hnd].
    + rewrite map_app in Hnd. apply NoDup_app in Hnd as (_ & Hnd & _).
      intros Hin. apply (Hnd k Hin). cbn. apply elem_of_cons. by left.
Qed.

Lemma dict_of_pairs_nodup {A} (ps : list (str * A)) :
  NoDup (map fst ps) -> dict_of_pairs ps = ps.
Proof. intros H. unfold dict_of_pairs. by rewrite dict_of_pairs_acc. Qed.

(** *** The text of a value is read back *)

(** What the scanner does on the text of [v] followed by [rest], when it
    may enter as many arrays and objects as [v] has inside one another. *)
Definition read_back (v : value) : Prop :=
  forall (lvl : nat) (rest : str) (n depth : nat),
    value_end rest -> (scan_depth v <= n)%nat -> (nesting v <= depth)%nat ->
    scan_once n depth (encode float_repr lvl v ++ rest) = Return (v, rest) /\
    skip_ws (encode float_repr lvl v ++ rest) = encode float_repr lvl v ++ rest.

Lemma value_end_indent (lvl : nat) (s : str) :
  value_end (newline_indent lvl ++ s).
Proof. by left. Qed.

Lemma value_end_comma (s : str) : value_end (44%N :: s).
Proof. by right. Qed.

Lemma skip_ws_space (s : str) : skip_ws (32%N :: s) = skip_ws s.
Proof. reflexivity. Qed.

Lemma skip_ws_comma (s : str) : skip_ws (44%N :: s) = 44%N :: s.
Proof. reflexivity. Qed.

Lemma read_back_head (v : value) lvl rest n depth :
  scan_once n depth (encode float_repr lvl v ++ rest) = Return (v, rest) ->
  exists c t, encode float_repr lvl v ++ rest = c :: t /\
              c <> 93%N /\ c <> 125%N /\ c <> 65279%N.
Proof.
  intros H. destruct (encode float_repr lvl v ++ rest) as [|c t].
  - by apply (proj2 (proj2 (proj2 (scan_once_closing n depth [] (v, rest))))) in H.
  - exists c, t. split; [done|].
    repeat split; intros ->.
    + by apply (proj1 (scan_once_closing n depth t (v, rest))) in H.
    + by apply (proj1 (proj2 (scan_once_closing n depth t (v, rest)))) in H.
    + by apply (proj1 (proj2 (proj2 (scan_once_closing n depth t (v, rest))))) in H.
Qed.

(** The items of a list after the first line break. *)
Lemma read_back_items (xs : list value) :
  Forall read_back xs ->
  forall (x : value) (lvl : nat) (rest : str) (n d : nat),
    read_back x ->
    (length (x :: xs) + list_sum (map scan_depth (x :: xs)) <= n)%nat ->
    Forall (fun y => nesting y <= d)%nat (x :: xs) ->
    scan_items n d
      (encode float_repr (S lvl) x ++
       flat_map (fun y => 44%N :: newline_indent (S lvl) ++
                          encode float_repr (S lvl) y) xs ++
       newline_indent lvl ++ 93%N :: rest) = Return (x :: xs, rest).
Proof.
  induction 1 as [|y ys Hy _ IH]; intros x lvl rest n d Hx Hn Hd.
  - cbn [flat_map app]. cbn in Hn.
    apply Forall_cons in Hd as [Hdx _].
    destruct n as [|m]; [lia|].
    destruct (Hx (S lvl) (newline_indent lvl ++ 93%N :: rest) m d) as [H1 _];
      [apply value_end_indent|lia|done|].
    rewrite (scan_items_step m d _ x _ H1). by rewrite skip_ws_indent.
  - cbn [flat_map]. cbn in Hn.
    apply Forall_cons in Hd as [Hdx Hd].
    destruct n as [|m]; [lia|].
    cbn [app]. rewrite <- !app_assoc.
    set (tail := flat_map (fun y => 44%N :: newline_indent (S lvl) ++
                                   encode float_repr (S lvl) y) ys ++
                 newline_indent lvl ++ 93%N :: rest).
    destruct (Hx (S lvl)
                (44%N :: newline_indent (S lvl) ++
                 encode float_repr (S lvl) y ++ tail) m d) as [H1 _];
      [apply value_end_comma|lia|done|].
    rewrite (scan_items_step m d _ x _ H1). rewrite skip_ws_comma.
    rewrite skip_ws_indent.
    assert (Htail : value_end tail).
    { unfold tail. destruct ys; [apply value_end_indent|apply value_end_comma]. }
    destruct (Hy (S lvl) tail m d Htail) as [_ H2];
      [lia|by apply Forall_cons in Hd as [? _]|]. rewrite H2.
    subst tail. rewrite (IH y lvl rest m d Hy); [done| |done]. cbn. lia.
Qed.

(** The members of a dict after the first line break. *)
Lemma read_back_members (kxs : list (str * value)) :
  Forall (fun kv => is_text kv.1 /\ no_surrogate_pair kv.1 /\ read_back kv.2) kxs ->
  forall (k : str) (x : value) (lvl : nat) (rest : str) (n d : nat),
    is_text k -> no_surrogate_pair k -> read_back x ->
    (length ((k, x) :: kxs) +
     list_sum (map (fun kv => scan_depth kv.2) ((k, x) :: kxs)) <= n)%nat ->
    Forall (fun kv : str * value => nesting kv.2 <= d)%nat ((k, x) :: kxs) ->
    scan_members n d
      (encode_str k ++ 58%N :: 32%N :: encode float_repr (S lvl) x ++
       flat_map (fun ky => 44%N :: newline_indent (S lvl) ++
                           encode_str (fst ky) ++ 58%N :: 32%N ::
                           encode float_repr (S lvl) (snd ky)) kxs ++
       newline_indent lvl ++ 125%N :: rest) = Return ((k, x) :: kxs, rest).
Proof.
  induction 1 as [|[k' y] ys (Hk1' & Hk2' & Hy) _ IH];
    intros k x lvl rest n d Hk1 Hk2 Hx Hn Hd.
  - cbn [flat_map app]. cbn in Hn.
    apply Forall_cons in Hd as [Hdx _]. cbn [snd] in Hdx.
    destruct n as [|m]; [lia|].
    unfold encode_str. cbn [app scan_members]. rewrite <- app_assoc. cbn [app].
    rewrite scanstring_encode by done.
    change (skip_ws (58%N :: ?s)) with (58%N :: s). cbv iota.
    rewrite skip_ws_space.
    destruct (Hx (S lvl) (newline_indent lvl ++ 125%N :: rest) m d) as [H1 H2];
      [apply value_end_indent|lia|done|].
    rewrite H2, H1. cbn [obind fst snd]. by rewrite skip_ws_indent.
  - cbn [flat_map fst snd]. cbn in Hn.
    apply Forall_cons in Hd as [Hdx Hd]. cbn [snd] in Hdx.
    destruct n as [|m]; [lia|].
    unfold encode_str at 1. cbn [app scan_members]. rewrite <- !app_assoc.
    cbn [app]. rewrite <- ?app_assoc. rewrite scanstring_encode by done.
    change (skip_ws (58%N :: ?s)) with (58%N :: s). cbv iota.
    rewrite skip_ws_space.
    set (tail := flat_map (fun ky => 44%N :: newline_indent (S lvl) ++
                                    encode_str (fst ky) ++ 58%N :: 32%N ::
                                    encode float_repr (S lvl) (snd ky)) ys ++
                 newline_indent lvl ++ 125%N :: rest).
    destruct (Hx (S lvl)
                (44%N :: newline_indent (S lvl) ++
                 encode_str k' ++ 58%N :: 32%N ::
                 encode float_repr (S lvl) y ++ tail) m d) as [H1 H2];
      [apply value_end_comma|lia|done|].
    rewrite H2, H1. cbn [obind fst snd]. rewrite skip_ws_comma.
    rewrite skip_ws_indent.
    assert (Hskip : forall s, skip_ws (encode_str k' ++ s) = encode_str k' ++ s)
      by done.
    rewrite Hskip.
    subst tail. rewrite (IH k' y lvl rest m d Hk1' Hk2' Hy); [done| |done].
    cbn. lia.
Qed.

Lemma nesting_items (l : list value) (d : nat) :
  (nesting (VList l) <= S d)%nat -> Forall (fun y => nesting y <= d)%nat l.
Proof.
  cbn [nesting]. intros H. apply le_S_n in H. apply list_max_le in H.
  rewrite List.Forall_map in H. exact H.
Qed.

Lemma nesting_members (kxs : list (str * value)) (d : nat) :
  (nesting (VDict kxs) <= S d)%nat ->
  Forall (fun kv : str * value => nesting kv.2 <= d)%nat kxs.
Proof.
  cbn [nesting]. intros H. apply le_S_n in H. apply list_max_le in H.
  rewrite List.Forall_map in H. exact H.
Qed.

Lemma read_back_value (v : value) : json_value v -> read_back v.
Proof.
  induction v as [|b|z|f|s|l IH|d IH] using value_ind'; intros Hv.
  - intros lvl rest [|n] depth Hrest Hn _; [cbn in Hn; lia|]. by split.
  - intros lvl rest [|n] depth Hrest Hn _; [cbn in Hn; lia|]. by destruct b.
  - inversion Hv as [| |z' Hz| | | |]; subst z'.
    intros lvl rest [|n] depth Hrest Hn _; [cbn in Hn; lia|].
    rewrite <- (parse_int_small z rest Hz).
    apply scan_once_number. cbn [encode]. by apply scan_number_int.
  - inversion Hv as [| | |f' Hf| | |]; subst f'.
    intros lvl rest [|n] depth Hrest Hn _; [cbn in Hn; lia|].
    destruct f as [sg|[]| |sg m e]; cbn [encode encode_float]; try by split.
    all: change (Return (?v, rest)) with (parse_int (v, rest));
      apply scan_once_number; by apply Hf.
  - inversion Hv as [| | | |s' Ht Hp| |]; subst s'.
    intros lvl rest [|n] depth Hrest Hn _; [cbn in Hn; lia|].
    cbn [encode]. unfold encode_str. cbn [app]. rewrite <- app_assoc. cbn [app].
    split; [|reflexivity]. cbn [scan_once]. by rewrite scanstring_encode.
  - inversion Hv as [| | | | |l' Hl|]; subst l'.
    assert (Hrb : Forall (read_back) l).
    { rewrite Forall_forall in IH, Hl |- *. intros x Hx. apply IH; [done|by apply Hl]. }
    clear IH Hl Hv.
    intros lvl rest [|n] [|dp] Hrest Hn Hdp; [cbn in Hn; lia|cbn in Hn; lia| |].
    { cbn [nesting] in Hdp. lia. }
    apply nesting_items in Hdp.
    destruct l as [|x xs]; [by split|].
    apply Forall_cons in Hrb as [Hx Hxs].
    cbn [encode]. cbn [app]. split; [|reflexivity].
    rewrite <- !app_assoc. cbn [app].
    assert (Hitems := read_back_items xs Hxs x lvl rest n dp Hx).
    assert (Hn' : (length (x :: xs) + list_sum (map scan_depth (x :: xs)) <= n)%nat).
    { cbn [scan_depth] in Hn. lia. }
    specialize (Hitems Hn' Hdp).
    destruct n as [|m]; [cbn in Hn'; lia|].
    assert (Hx1 : (scan_depth x <= m)%nat) by (cbn in Hn'; lia).
    set (tail := flat_map (fun y => 44%N :: newline_indent (S lvl) ++
                                   encode float_repr (S lvl) y) xs ++
                 newline_indent lvl ++ 93%N :: rest) in *.
    assert (Htail : value_end tail).
    { unfold tail. destruct xs; [apply value_end_indent|apply value_end_comma]. }
    apply Forall_cons in Hdp as [Hdx _].
    destruct (Hx (S lvl) tail m dp Htail Hx1 Hdx) as [H1 H2].
    destruct (read_back_head x (S lvl) tail m dp H1) as (c & t & E & Hc & _).
    rewrite (scan_once_array (S m) dp _ c t).
    + rewrite <- E. by rewrite Hitems.
    + by rewrite skip_ws_indent, H2.
    + done.
  - inversion Hv as [| | | | | |d' Hnd Hd]; subst d'.
    assert (Hrb : Forall (fun kv => is_text kv.1 /\ no_surrogate_pair kv.1 /\
                                    read_back kv.2) d).
    { rewrite Forall_forall in IH, Hd |- *. intros kx Hkx.
      destruct (Hd kx Hkx) as (H1 & H2 & H3).
      split; [done|]. split; [done|]. by apply (IH kx Hkx). }
    clear IH Hd Hv.
    intros lvl rest [|n] [|dp] Hrest Hn Hdp; [cbn in Hn; lia|cbn in Hn; lia| |].
    { cbn [nesting] in Hdp. lia. }
    apply nesting_members in Hdp.
    destruct d as [|[k x] kxs]; [by split|].
    apply Forall_cons in Hrb as [(Hk1 & Hk2 & Hx) Hxs]. cbn [fst snd] in *.
    cbn [encode fst snd]. cbn [app]. split; [|reflexivity].
    rewrite <- !app_assoc. cbn [app]. rewrite <- ?app_assoc.
    assert (Hmem := read_back_members kxs Hxs k x lvl rest n dp Hk1 Hk2 Hx).
    assert (Hn' : (length ((k, x) :: kxs) +
                   list_sum (map (fun kv => scan_depth kv.2) ((k, x) :: kxs)) <= n)%nat).
    { cbn [scan_depth] in Hn. lia. }
    specialize (Hmem Hn' Hdp).
    rewrite (scan_once_object n dp _ 34%N
               (flat_map escape_char k ++ [34%N] ++ 58%N :: 32%N ::
                encode float_repr (S lvl) x ++
                flat_map (fun ky => 44%N :: newline_indent (S lvl) ++
                                    encode_str (fst ky) ++ 58%N :: 32%N ::
                                    encode float_repr (S lvl) (snd ky)) kxs ++
                newline_indent lvl ++ 125%N :: rest)).
    + unfold encode_str in Hmem at 1. cbn [app] in Hmem.
      rewrite <- app_assoc in Hmem. rewrite Hmem. cbn [obind fst snd].
      by rewrite dict_of_pairs_nodup.
    + rewrite skip_ws_indent. unfold encode_str. cbn [app].
      by rewrite <- app_assoc.
    + done.
Qed.

(** The bound of [json_loads] is enough for the text of a value. *)
Lemma scan_depth_length (v : value) :
  forall lvl, (scan_depth v <= 2 * length (encode float_repr lvl v) + 1)%nat.
Proof.
  induction v as [|b|z|f|s|l IH|d IH] using value_ind'; intros lvl;
    try (cbn [scan_depth]; lia).
  - destruct l as [|x xs]; [cbn; lia|].
    apply Forall_cons in IH as [Hx Hxs].
    cbn [scan_depth encode length map].
    change (list_sum (scan_depth x :: map scan_depth xs))
      with (scan_depth x + list_sum (map scan_depth xs))%nat.
    rewrite !length_app. cbn [length].
    assert (Hni : forall j, (1 <= length (newline_indent j))%nat)
      by (intros j; cbn; lia).
    assert (Hrest : (length xs + list_sum (map scan_depth xs) <=
                     2 * length (flat_map (fun y => 44%N :: newline_indent (S lvl) ++
                                             encode float_repr (S lvl) y) xs))%nat).
    { clear Hx. induction Hxs as [|y ys Hy _ IHys]; [cbn; lia|].
      cbn [length map flat_map]. rewrite length_app. cbn [length].
      change (list_sum (scan_depth y :: map scan_depth ys))
        with (scan_depth y + list_sum (map scan_depth ys))%nat.
      rewrite length_app. specialize (Hy (S lvl)). specialize (Hni (S lvl)). lia. }
    specialize (Hx (S lvl)). pose proof (Hni (S lvl)). pose proof (Hni lvl). lia.
  - destruct d as [|[k x] kxs]; [cbn; lia|].
    apply Forall_cons in IH as [Hx Hxs]. cbn [fst snd] in Hx.
    cbn [scan_depth encode length map fst snd].
    change (list_sum (scan_depth x :: map (fun kv => scan_depth kv.2) kxs))
      with (scan_depth x + list_sum (map (fun kv => scan_depth kv.2) kxs))%nat.
    rewrite !length_app. cbn [length]. rewrite !length_app. cbn [length].
    assert (Hni : forall j, (1 <= length (newline_indent j))%nat)
      by (intros j; cbn; lia).
    assert (Hrest : (length kxs + list_sum (map (fun kv => scan_depth kv.2) kxs) <=
                     2 * length (flat_map
                                   (fun ky => 44%N :: newline_indent (S lvl) ++
                                      encode_str (fst ky) ++ 58%N :: 32%N ::
                                      encode float_repr (S lvl) (snd ky)) kxs))%nat).
    { clear Hx. induction Hxs as [|[k' y] ys Hy _ IHys]; [cbn; lia|].
      cbn [length map flat_map fst snd]. rewrite length_app. cbn [length].
      change (list_sum (scan_depth y :: map (fun kv => scan_depth kv.2) ys))
        with (scan_depth y + list_sum (map (fun kv => scan_depth kv.2) ys))%nat.
      rewrite !length_app. cbn [length]. cbn [snd] in Hy.
      specialize (Hy (S lvl)). specialize (Hni (S lvl)). lia. }
    specialize (Hx (S lvl)). pose proof (Hni (S lvl)). pose proof (Hni lvl). lia.
Qed.

Lemma json_loads_dumps (v : value) (limit : nat) :
  (nesting v <= limit)%nat ->
  json_value v -> json_loads limit (json_dumps float_repr v) = Return v.
Proof.
  intros Hd Hv. unfold json_dumps.
  pose proof (read_back_value v Hv 0%nat []
                (2 * length (encode float_repr 0 v) + 2)%nat limit I) as H.
  destruct H as [H1 H2]; [pose proof (scan_depth_length v 0%nat); lia|done|].
  destruct (read_back_head v 0%nat [] _ _ H1) as (c & t & E & _ & _ & Hc).
  rewrite app_nil_r in *. rewrite E in *.
  rewrite json_loads_scan by done. by rewrite H2, H1.
Qed.

(** X14.  What [json.dump] writes, [json.load] reads back.  For every
    value in which each int has at most 4300 digits, each text is a Python
    [str] without a surrogate pair, each finite float is read back from its
    [repr], and no dict has a key twice, the decoder applied to the text
    that the encoder writes with [indent=4] gives the value itself: lists
    in order, dicts with their keys in order, ints, floats (nan and the
    infinities included), texts with every escape undone.  The nesting is
    kept below 100, on an interpreter whose recursion limit lets the
    decoder go that deep. *)
Theorem json_round_trip (v : value) :
  (nesting v <= 100)%nat ->
  (100 <= recursion_limit)%nat ->
  json_value v ->
  json_loads recursion_limit (json_dumps float_repr v) = Return v.
Proof. intros H1 H2. apply json_loads_dumps. lia. Qed.

(** X15.  What [save_expenses] has written restores the ledger.  When
    the file can be written and the ledger is a value that JSON gives
    back, nested less than 100 deep on an interpreter whose recursion
    limit lets the decoder go that deep, [save_expenses] returns and leaves
    the ledger as it is; and in any later state of the program that still
    has that file, whatever its ledger, clock and input, [load_expenses]
    returns and sets the ledger to the one that was saved. *)
Theorem saved_ledger_is_restored (w : world) e' c' inp' out' :
  disk w <> Inaccessible ->
  (nesting (expenses w) <= 100)%nat ->
  (100 <= recursion_limit)%nat ->
  json_value (expenses w) ->
  (save_expenses w).1 = Return tt /\
  expenses (save_expenses w).2 = expenses w /\
  load_expenses (World e' (disk (save_expenses w).2) c' inp' out') =
    (Return tt, World (expenses w) (disk (save_expenses w).2) c' inp' out').
Proof.
  intros Hd Hn Hlimit Hv.
  assert (Hsave : save_expenses w =
            (Return tt, World (expenses w) (Text (json_dumps float_repr (expenses w)))
                          (clock w) (stdin w) (stdout w))).
  { unfold save_expenses. by destruct (disk w). }
  rewrite Hsave. cbn [fst snd expenses disk].
  split; [done|]. split; [done|].
  rewrite load_expenses_cases. cbn [disk].
  by rewrite json_loads_dumps by (done || lia).
Qed.

(** ** The main loop *)

Lemma reads_on_io {A} (w w' : world) (o : outcome A) :
  io_only w w' -> o <> OutOfFuel -> reads_on w o w'.
Proof. intros (_ & _ & Hc & Hs) Ho. by repeat split. Qed.

Lemma add_expense_reads (w : world) : post add_expense w (reads_on w).
Proof.
  unfold add_expense. apply post_bind. unfold post at 1, print. cbn [fst snd].
  apply post_bind. apply (post_mono _ _ (reads_on w)).
  2: { intros o w' (Ho & Hc & Hs). destruct o as [[]|ex|]; [| |done].
       - unfold post, print. cbn. by repeat split.
       - by repeat split. }
  apply (post_loop _ (fun w1 => clock w1 = clock w /\
                                stdin w1 `suffix_of` stdin w)); [done|].
  intros w1 (Hc1 & Hs1).
  eapply post_mono; [apply add_expense_round_post|].
  intros o w2 (Ho & Hc2 & Hs2 & Hl2 & _).
  assert (Hs : stdin w2 `suffix_of` stdin w) by (by etrans).
  destruct o as [[[]|]|ex|]; [| | |done].
  - split; [done|]. split; [congruence|done].
  - split; [|by apply Hl2]. split; [congruence|done].
  - split; [done|]. split; [congruence|done].
Qed.

Lemma remove_expense_reads (w : world) : post remove_expense w (reads_on w).
Proof.
  unfold remove_expense. apply post_bind. unfold post at 1, print. cbn [fst snd].
  apply post_bind. apply (post_mono _ _ (reads_on w)).
  2: { intros o w' (Ho & Hc & Hs). destruct o as [[]|ex|]; [| |done].
       - unfold post, print. cbn. by repeat split.
       - by repeat split. }
  apply (post_loop _ (fun w1 => clock w1 = clock w /\
                                stdin w1 `suffix_of` stdin w)); [done|].
  intros w1 (Hc1 & Hs1).
  eapply post_mono; [apply remove_expense_round_post|].
  intros o w2 (Ho & Hc2 & Hs2 & Hl2 & _).
  assert (Hs : stdin w2 `suffix_of` stdin w) by (by etrans).
  destruct o as [[[]|]|ex|]; [| | |done].
  - split; [done|]. split; [congruence|done].
  - split; [|by apply Hl2]. split; [congruence|done].
  - split; [done|]. split; [congruence|done].
Qed.

Lemma add_amount_fuel (t : number) (v : value) : add_amount t v <> OutOfFuel.
Proof.
  destruct v as [|b|z|f| | |]; try done; destruct t as [t|t]; cbn; try done.
  - by destruct (float_of_int (if b then 1 else 0)).
  - by destruct (float_of_int z).
  - by destruct (float_of_int t).
Qed.

Lemma monthly_totals_fuel (l : list value) :
  forall totals, monthly_totals l totals <> OutOfFuel.
Proof.
  induction l as [|v r IH]; intros totals; [done|].
  cbn [monthly_totals].
  pose proof (subscript_fuel v (lit "Date")) as H1.
  destruct (subscript v (lit "Date")) as [d|e|]; [|done|done]. cbn [obind].
  destruct d as [| | | |s| |]; try done. cbn [obind].
  destruct (month_key unicode_digit pad_year s) as [m|]; [|done]. cbn [obind].
  pose proof (subscript_fuel v (lit "Amount")) as H2.
  destruct (subscript v (lit "Amount")) as [a|e|]; [|done|done]. cbn [obind].
  pose proof (add_amount_fuel (default (NInt 0) (dict_get m totals)) a) as H3.
  destruct (add_amount _ a) as [t|e|]; [|done|done]. cbn [obind]. apply IH.
Qed.

Lemma total_lines_io (totals : list (str * number)) :
  forall i w,
    post (total_lines i totals) w (fun o w' =>
      io_only w w' /\ stdin w' = stdin w /\ o <> OutOfFuel).
Proof.
  induction totals as [|[m t] r IH]; intros i w.
  - unfold post, total_lines, ret. cbn. by split; [apply io_only_refl|].
  - cbn [total_lines]. unfold post, bind, lift.
    pose proof (format_2f_fuel (match t with NInt z => VInt z | NFloat f => VFloat f end))
      as Hn.
    destruct (format_2f _) as [n|e|]; cbn; [|by split; [apply io_only_refl|]|done].
    destruct w as [e d c inp out]. unfold print. cbn.
    specialize (IH (S i) (World e d c inp (out ++ [TotalLine i m n]))).
    unfold post in IH. destruct IH as (H1 & H2 & H3).
    split; [|by split]. eapply io_only_trans; [|exact H1]. apply io_only_print.
Qed.

(** [monthly_summary] only prints, whatever the ledger holds. *)
Lemma monthly_summary_io (w : world) :
  post monthly_summary w (fun o w' =>
    io_only w w' /\ stdin w' = stdin w /\ o <> OutOfFuel).
Proof.
  destruct w as [e d c inp out].
  unfold monthly_summary. apply post_bind. unfold post at 1, print. cbn [fst snd].
  apply post_bind. unfold post at 1, get_expenses. cbn [fst snd expenses].
  destruct (negb (truthy e)).
  { unfold post, print. cbn. by repeat split. }
  apply post_bind. unfold post at 1, lift. cbn [fst snd].
  assert (Hfuel : match e with
                  | VList l => monthly_totals l []
                  | _ => Raise TypeError
                  end <> OutOfFuel).
  { destruct e; try done. apply monthly_totals_fuel. }
  destruct (match e with VList l => monthly_totals l [] | _ => Raise TypeError end)
    as [totals|ex|]; [| |done].
  2: { split; [apply io_only_print|done]. }
  apply post_bind. unfold post at 1, print. cbn [fst snd].
  apply post_bind. eapply post_mono; [apply total_lines_io|].
  intros o w1 (H1 & H2 & Ho).
  assert (H1' : io_only (World e d c inp out) w1).
  { eapply io_only_trans; [|exact H1]. cbn. by repeat split. }
  destruct o as [[]|ex|]; [| |done].
  - destruct w1 as [e1 d1 c1 inp1 out1]. unfold post, print. cbn in *.
    split; [|done]. eapply io_only_trans; [exact H1'|]. apply io_only_print.
  - by split.
Qed.

Lemma main_round_try :
  main_round =
    (print (Print menu) ;; try_except main_try is_ValueError invalid_integer).
Proof. reflexivity. Qed.

(** A round of [main], for every ledger and every input: it never uses up
    the loop bound, a round after which the loop goes on has read a line,
    and the loop is left only when the choice read is 5, the ledger and
    the file being as they were. *)
Lemma main_round_post (w : world) :
  post main_round w (fun o w' =>
    reads_on w o w' /\
    (o = Return None -> (length (stdin w') < length (stdin w))%nat) /\
    (o = Return (Some tt) ->
     expenses w' = expenses w /\ disk w' = disk w /\
     exists line, line ∈ stdin w /\
                  py_int unicode_digit (strip line) = Some 5)).
Proof.
  destruct w as [e d c inp out]. rewrite main_round_try.
  apply post_bind. unfold post at 1, print. cbn [fst snd].
  apply post_try_except. unfold main_try.
  apply post_bind. unfold post at 1, input.
  cbn [fst snd stdin stdout expenses disk clock].
  destruct inp as [|line rest]; cbn [fst snd].
  { cbn. by repeat split. }
  set (w0 := World e d c (line :: rest) out).
  set (Q := fun (o : outcome (option unit)) (w' : world) =>
    reads_on w0 o w' /\
    (o = Return None -> (length (stdin w') < length (stdin w0))%nat) /\
    (o = Return (Some tt) ->
     expenses w' = expenses w0 /\ disk w' = disk w0 /\
     exists line, line ∈ stdin w0 /\
                  py_int unicode_digit (strip line) = Some 5)).
  assert (Hstrict : forall o w', o <> OutOfFuel -> o <> Return (Some tt) ->
            clock w' = c -> stdin w' `suffix_of` rest -> Q o w').
  { intros o w' Ho Ho' Hc Hs. split; [|split; [|done]].
    - split; [done|]. split; [done|]. etrans; [exact Hs|]. by apply suffix_cons_r.
    - intros _. apply suffix_length in Hs. cbn. lia. }
  assert (Hin : forall o w', o <> OutOfFuel -> o <> Return (Some tt) ->
            clock w' = c -> stdin w' `suffix_of` rest ->
            match o with
            | Raise ex =>
                if is_ValueError ex then post invalid_integer w' Q
                else Q (Raise ex) w'
            | _ => Q o w'
            end).
  { intros o w' Ho Ho' Hc Hs. destruct o as [r|ex|]; [by apply Hstrict| |done].
    destruct (is_ValueError ex); [|by apply Hstrict].
    destruct w' as [e' d' c' inp' out'].
    unfold post, invalid_integer, bind, print, ret. cbn in *.
    by apply Hstrict. }
  assert (Hcall : forall (m : M unit) w1,
            clock w1 = c -> stdin w1 `suffix_of` rest ->
            post m w1 (reads_on w1) ->
            post (m ;; ret None) w1 (fun o w' =>
              match o with
              | Raise ex =>
                  if is_ValueError ex then post invalid_integer w' Q
                  else Q (Raise ex) w'
              | _ => Q o w'
              end)).
  { intros m w1 Hc1 Hs1 Hm. apply post_bind. eapply post_mono; [exact Hm|].
    intros o w2 (Ho & Hc2 & Hs2).
    assert (Hs : stdin w2 `suffix_of` rest) by (by etrans).
    destruct o as [[]|ex|]; [| |done].
    - unfold post, ret. cbn [fst snd]. apply (Hin (Return None)); try done. congruence.
    - apply (Hin (Raise ex)); try done. congruence. }
  destruct (py_int unicode_digit (strip line)) as [option|] eqn:Hopt.
  2: { unfold post, raise. cbn [fst snd]. by apply (Hin (Raise ValueError)). }
  destruct (option =? 1).
  { apply Hcall; [done|done|apply add_expense_reads]. }
  destruct (option =? 2).
  { apply Hcall; [done|done|apply remove_expense_reads]. }
  destruct (option =? 3).
  { apply Hcall; [done|done|].
    eapply post_mono; [apply view_expenses_io|].
    intros o w2 (H1 & _ & Ho). by apply reads_on_io. }
  destruct (option =? 4).
  { apply Hcall; [done|done|].
    eapply post_mono; [apply monthly_summary_io|].
    intros o w2 (H1 & _ & Ho). by apply reads_on_io. }
  destruct (option =? 5) eqn:H5.
  - unfold post, bind, print, ret. cbn.
    split; [|split; [done|]].
    + split; [done|]. split; [done|]. by apply suffix_cons_r.
    + intros _. split; [done|]. split; [done|]. exists line.
      split; [apply elem_of_cons; by left|].
      rewrite Hopt. f_equal. lia.
  - unfold post, bind, print, ret. cbn [fst snd].
    by apply (Hin (Return None)).
Qed.

Lemma main_round_continues (w w' : world) :
  main_round w = (Return None, w') ->
  (length (stdin w') < length (stdin w))%nat.
Proof.
  intros H. pose proof (main_round_post w) as Hr.
  unfold post in Hr. rewrite H in Hr. cbn in Hr. by apply Hr.
Qed.

(** X16.  Every run of the script ends, whatever the file, the ledger and
    the input: [load_expenses] and then [main] return or raise (with
    [EOFError] when the input ends) and no loop of the program goes on for
    ever, since every round of every loop reads a line.  The run returns
    only if the user has chosen 5 at the menu. *)
Theorem program_ends (w : world) :
  (program w).1 <> OutOfFuel /\
  ((program w).1 = Return tt ->
   exists line, line ∈ stdin w /\ py_int unicode_digit (strip line) = Some 5).
Proof.
  set (Q := fun (o : outcome unit) (w' : world) =>
    o <> OutOfFuel /\
    (o = Return tt ->
     exists line, line ∈ stdin w /\ py_int unicode_digit (strip line) = Some 5)).
  enough (H : post program w Q) by exact H.
  unfold program. apply post_bind. unfold post at 1.
  rewrite load_expenses_cases.
  assert (Hmain : forall w1, stdin w1 = stdin w -> post main w1 Q).
  { intros w1 Hw1. unfold main.
    apply post_bind. unfold post at 1, print. cbn [fst snd].
    apply post_bind. unfold post at 1, print. cbn [fst snd].
    apply post_bind.
    apply (post_mono _ _ Q).
    2: { intros o w' (Ho & Hret). destruct o as [[]|ex|]; [| |done].
         - unfold post, print. cbn. split; [done|]. intros _. by apply Hret.
         - by split. }
    apply (post_loop _ (fun w2 => stdin w2 `suffix_of` stdin w)).
    { cbn. by rewrite Hw1. }
    intros w2 Hs2. eapply post_mono; [apply main_round_post|].
    intros o w3 ((Ho & _ & Hs3) & Hl3 & Hret).
    destruct o as [[[]|]|ex|]; [| | |done].
    - split; [done|]. intros _.
      destruct Hret as (_ & _ & line & Hin & Hline); [done|].
      exists line. split; [|done].
      destruct Hs2 as [k Hk]. rewrite Hk. apply elem_of_app. by right.
    - split; [by etrans|by apply Hl3].
    - by split. }
  destruct (disk w) as [| | |s]; cbn [fst snd].
  - apply Hmain. by destruct w.
  - by split.
  - by split.
  - pose proof (json_loads_ends recursion_limit s) as Hends.
    destruct (json_loads recursion_limit s) as [v|ex|]; [| |done].
    + apply Hmain. by destruct w.
    + destruct ex; try (by split); apply Hmain; by destruct w.
Qed.

(** X17.  A choice that is no option of the menu changes nothing: when
    [int] refuses the line read (no numeral, or more than 4300 digits), or
    reads it as an integer outside 1..5, the round of [main] prints "Please
    enter a valid integer", respectively "Please choose between 1 and 5",
    the ledger and the file are as they were and the menu is shown
    again. *)
Theorem main_round_invalid_choice (line : str) e d c rest out :
  ~ (exists n, py_int unicode_digit (strip line) = Some n /\ 1 <= n <= 5) ->
  main_round (World e d c (line :: rest) out) =
    (Return None,
     World e d c rest
       (out ++ menu_lines ++
        [Print (match py_int unicode_digit (strip line) with
                | Some _ => ln "Please choose between 1 and 5"
                | None => ln "Please enter a valid integer"
                end)])).
Proof.
  intros Hn. rewrite main_round_try.
  unfold bind at 1. unfold print at 1. cbn [expenses disk clock stdin stdout].
  unfold try_except, main_try. unfold bind at 1. unfold input at 1.
  cbn [expenses disk clock stdin stdout].
  destruct (py_int unicode_digit (strip line)) as [n|].
  - assert (n < 1 \/ 5 < n) as Hr.
    { destruct (decide (1 <= n <= 5)) as [Hy|Hy]; [|lia].
      exfalso. apply Hn. by exists n. }
    assert ((n =? 1) = false) as -> by lia.
    assert ((n =? 2) = false) as -> by lia.
    assert ((n =? 3) = false) as -> by lia.
    assert ((n =? 4) = false) as -> by lia.
    assert ((n =? 5) = false) as -> by lia.
    unfold bind, print, ret, menu_lines. cbn. same_output.
  - unfold raise, invalid_integer, bind, print, ret, menu_lines. cbn. same_output.
Qed.

(** [main] when the first choice is 5. *)
Lemma main_leaves (line : str) e d c rest out :
  py_int unicode_digit (strip line) = Some 5 ->
  main (World e d c (line :: rest) out) =
    (Return tt,
     World e d c rest
       (out ++ [dashes; Print (ln "Welcome to Expense Tracker!")] ++
        menu_lines ++
        [Print (ln "Thanks for using Expense Tracker!"); dashes])).
Proof.
  intros H5. unfold main.
  unfold bind at 1. unfold print at 1. cbn [expenses disk clock stdin stdout].
  unfold bind at 1. unfold print at 1. cbn [expenses disk clock stdin stdout].
  unfold bind at 1.
  rewrite loop_unfold by apply main_round_continues.
  rewrite main_round_try.
  unfold bind at 1. unfold print at 1. cbn [expenses disk clock stdin stdout].
  unfold try_except, main_try. unfold bind at 1. unfold input at 1.
  cbn [expenses disk clock stdin stdout]. rewrite H5.
  unfold bind, print, ret, menu_lines. cbn. same_output.
Qed.

(** X18.  Leaving at the menu.  When the first choice is 5, [main]
    prints the welcome, the menu and the thanks between two rules and
    returns; it reads that one line, and the ledger and the file are as
    they were: nothing is saved on the way out. *)
Theorem main_exit (line : str) e d c rest out :
  py_int unicode_digit (strip line) = Some 5 ->
  main (World e d c (line :: rest) out) =
    (Return tt,
     World e d c rest
       (out ++ [dashes; Print (ln "Welcome to Expense Tracker!")] ++
        menu_lines ++
        [Print (ln "Thanks for using Expense Tracker!"); dashes])).
Proof. apply main_leaves. Qed.

(** X19.  An exception of [monthly_summary] in the menu.  When the
    choice is 4 and the loop over the ledger raises (a date that
    [strptime] refuses, a record without a field, an amount that cannot be
    added), [main] has no handler of its own for it: a [ValueError] is
    taken for a bad menu choice, "Please enter a valid integer" is printed
    and the menu is shown again; any other exception ends the program.
    The ledger and the file are as they were. *)
Theorem main_round_summary_raises (line : str) (l : list value) (ex : exn)
    d c rest out :
  py_int unicode_digit (strip line) = Some 4 ->
  l <> [] ->
  monthly_totals l [] = Raise ex ->
  main_round (World (VList l) d c (line :: rest) out) =
    if is_ValueError ex then
      (Return None,
       World (VList l) d c rest
         (out ++ menu_lines ++
          [dashes; Print (ln "Please enter a valid integer")]))
    else
      (Raise ex, World (VList l) d c rest (out ++ menu_lines ++ [dashes])).
Proof.
  intros H4 Hl Hex. rewrite main_round_try.
  unfold bind at 1. unfold print at 1. cbn [expenses disk clock stdin stdout].
  unfold try_except, main_try. unfold bind at 1. unfold input at 1.
  cbn [expenses disk clock stdin stdout]. rewrite H4. cbn [Z.eqb Pos.eqb].
  unfold bind at 1. unfold monthly_summary.
  unfold bind at 1. unfold print at 1. cbn [expenses disk clock stdin stdout].
  unfold bind at 1. unfold get_expenses at 1. cbn [expenses].
  destruct l as [|v r]; [done|]. cbn [truthy length Nat.eqb negb].
  unfold bind at 1. unfold lift at 1. rewrite Hex.
  destruct (is_ValueError ex).
  - unfold invalid_integer, bind, print, ret, menu_lines. cbn. same_output.
  - unfold menu_lines. same_output.
Qed.

(** ** Display and questions *)

Lemma valid_ledger_fields (l : list value) :
  valid_ledger (VList l) = true -> Forall has_fields l.
Proof.
  cbn. intros H. apply Forall_forall. intros v Hv.
  rewrite forallb_forall in H. specialize (H v (proj1 (list_elem_of_In _ _) Hv)).
  unfold valid_expense in H. unfold has_fields.
  by destruct (expense_fields v).
Qed.



(** X21.  [ask_again] returns the first line of the input that is yes or
    no once put in lower case and stripped, as that word; for every line
    before it, it prints "Please respond with 'yes' or 'no'" and asks
    again.  It reads up to that line and no further, and leaves the ledger
    and the file as they were. *)
Theorem ask_again_first_answer (prompt : str) (skipped : list str)
    (line : str) e d c rest out :
  Forall (fun s => is_answer s = false) skipped ->
  is_answer line = true ->
  ask_again prompt (World e d c (skipped ++ line :: rest) out) =
    (Return (strip (lower line)),
     World e d c rest (out ++ asked_again prompt skipped ++ [Print prompt])).
Proof.
  intros Hsk Hline. revert out.
  induction Hsk as [|s sk Hs _ IH]; intros out.
  - cbn [app asked_again flat_map]. by apply ask_again_answer.
  - unfold ask_again.
    rewrite loop_unfold.
    + unfold bind at 1. unfold input at 1.
      cbn [app expenses disk clock stdin stdout].
      unfold is_answer in Hs. rewrite Hs.
      unfold bind at 1. unfold print at 1. cbn [expenses disk clock stdin stdout].
      unfold ret at 1. fold (ask_again prompt). rewrite IH.
      cbn [asked_again flat_map]. same_output.
    + intros w w' Hbody. unfold bind, input in Hbody.
      destruct w as [e1 d1 c1 [|l1 r1] out1]; cbn in Hbody; [discriminate|].
      destruct (_ || _) in Hbody; [discriminate|].
      unfold print, ret in Hbody. cbn in Hbody. injection Hbody as <-. cbn. lia.
Qed.

(** X22.  The two displays change nothing.  Whatever the ledger holds,
    and whether they return or raise, [view_expenses] and
    [monthly_summary] leave the ledger, the file and the clock as they
    were and read no line of the input. *)
Theorem displays_change_nothing (w : world) :
  (io_only w (view_expenses w).2 /\ stdin (view_expenses w).2 = stdin w) /\
  (io_only w (monthly_summary w).2 /\ stdin (monthly_summary w).2 = stdin w).
Proof.
  split.
  - pose proof (view_expenses_io w) as (H1 & H2 & _). by split.
  - pose proof (monthly_summary_io w) as (H1 & H2 & _). by split.
Qed.

Lemma py_sum_floats (ns : list number) :
  Forall (fun n => exists f, n = NFloat f) ns ->
  exists t, py_sum ns = Some t /\ prints t.
Proof.
  induction ns as [|n ns IH] using rev_ind; intros H.
  - exists (NInt 0). split; [done|]. by eexists.
  - apply Forall_app in H as [Hns Hn]. apply Forall_singleton in Hn as [f ->].
    destruct (IH Hns) as (t & Ht & Hp). rewrite py_sum_snoc, Ht.
    destruct t as [z|g]; cbn [number_add].
    + destruct Hp as [g Hg]. rewrite Hg. by eexists.
    + by eexists.
Qed.

Lemma valid_ledger_dated (l : list value) :
  valid_ledger (VList l) = true ->
  exists das,
    mapM dated_amount l = Some das /\
    Forall (fun da : date * number => exists f, da.2 = NFloat f) das.
Proof.
  cbn [valid_ledger]. induction l as [|v r IH]; intros Hl.
  - by exists [].
  - cbn in Hl. apply andb_prop in Hl as [Hv Hr].
    destruct (IH Hr) as (das & Hdas & Hf).
    unfold valid_expense in Hv.
    assert (exists dd a, dated_amount v = Some (dd, NFloat a)) as (dd & a & Hda).
    { unfold expense_fields in Hv. unfold dated_amount.
      destruct v as [| | | | | |d]; try done.
      destruct (dict_get (lit "Date") d) as [[| | | |dt| |]|]; try done.
      destruct (dict_get (lit "Description") d) as [[| | | |ds| |]|]; try done.
      destruct (dict_get (lit "Category") d) as [[| | | |ct| |]|]; try done.
      destruct (dict_get (lit "Amount") d) as [[| | |a| | |]|]; try done.
      apply andb_prop in Hv as [_ Hv]. apply bool_decide_eq_true in Hv.
      destruct Hv as [dd Hdd]. rewrite Hdd. by exists dd, a. }
    exists ((dd, NFloat a) :: das). split.
    + cbn. rewrite Hda. cbn. by rewrite Hdas.
    + constructor; [by exists a|done].
Qed.

(** X23.  [monthly_summary] on a ledger under the invariant.  If the
    ledger is not empty and every record has a parseable date, a
    description and a category that are not empty and an amount that is at
    least zero, [monthly_summary] raises nothing: it returns after
    printing the totals by month, one line for every month and year of the
    ledger under its key, in the order of first occurrence, with the sum
    of the amounts of the records of that month. *)
Theorem monthly_summary_valid (l : list value) d c inp out :
  l <> [] ->
  valid_ledger (VList l) = true ->
  exists das totals,
    mapM dated_amount l = Some das /\
    totals_by_month das = Some totals /\
    monthly_summary (World (VList l) d c inp out) =
      (Return tt, World (VList l) d c inp (out ++ summary_lines totals)).
Proof.
  intros Hne Hl.
  destruct (valid_ledger_dated l Hl) as (das & Hdas & Hf).
  assert (Hm : forall m, exists t, month_total das m = Some t /\ prints t).
  { intros m. apply py_sum_floats. apply Forall_map.
    rewrite Forall_forall in Hf |- *. intros da Hin.
    apply list_elem_of_filter in Hin as [_ Hin]. by apply Hf. }
  destruct (totals_by_month das) as [totals|] eqn:Ht.
  - exists das, totals. split; [done|]. split; [done|].
    apply monthly_summary_lines; [done| |].
    + by rewrite (monthly_totals_months l das Hdas), Ht.
    + apply mapM_Some_1 in Ht.
      induction Ht as [|m kt ms kts Hkt _ IH]; constructor; [|done].
      destruct (Hm m) as (t & Hmt & Hp). rewrite Hmt in Hkt.
      by injection Hkt as <-.
  - apply mapM_None_1 in Ht. apply Exists_exists in Ht as (m & _ & Hnone).
    destruct (Hm m) as (t & Hmt & _). by rewrite Hmt in Hnone.
Qed.

(** ** A file that cannot be written *)

(** X24.  [add_expense] appends before it saves.  When the file cannot
    be opened for writing, the run ends with the [OSError] of
    [save_expenses], and the record just entered is in the ledger in
    memory all the same. *)
Theorem add_expense_unwritable (l : list value) (dl cl al : str) (a : float)
    c rest out :
  capitalize (strip dl) <> [] ->
  capitalize (strip cl) <> [] ->
  py_float unicode_digit (strip al) = Some a ->
  float_ltb a float_zero = false ->
  let v := make_expense (strftime_dmY pad_year c) (capitalize (strip dl))
             (capitalize (strip cl)) a in
  add_expense (World (VList l) Inaccessible c (dl :: cl :: al :: rest) out) =
    (Raise OSError,
     World (VList (l ++ [v])) Inaccessible c rest
       (out ++ [dashes] ++ entry_lines)).
Proof.
  intros Hds Hct Ha Hneg v.
  unfold add_expense. unfold bind at 1. unfold print at 1.
  cbn [expenses disk clock stdin stdout].
  unfold bind at 1.
  rewrite loop_unfold by apply add_expense_round_continues.
  rewrite add_expense_round_try. unfold try_except, add_expense_try.
  unfold bind at 1. unfold now at 1. cbn [clock].
  unfold bind at 1. unfold input at 1. cbn [expenses disk clock stdin stdout].
  unfold bind at 1. rewrite ask_until_given_given by done.
  unfold bind at 1. unfold input at 1. cbn [expenses disk clock stdin stdout].
  unfold bind at 1. rewrite ask_until_given_given by done.
  unfold bind at 1. rewrite (ask_amount_accepts al a) by done.
  unfold bind at 1. unfold get_expenses at 1. cbn [expenses].
  unfold bind at 1. unfold lift, py_append.
  unfold bind at 1. unfold set_expenses at 1.
  cbn [expenses disk clock stdin stdout].
  unfold bind at 1. unfold save_expenses at 1.
  cbn [expenses disk clock stdin stdout is_ValueError].
  unfold entry_lines. same_output.
Qed.


(** ** The amount *)

(** X26.  The loop that asks for the amount.  Every line that reads as
    a float below zero is answered with "Amount must be a positive number"
    and the amount is asked again, within the same round: the description
    and the category entered are kept.  The first line that reads as a
    float not below zero is returned as the amount; no more input is
    read, and the ledger and the file are as they were. *)
Theorem ask_amount_first_valid (skipped : list str) (line : str) (a : float)
    e d c rest out :
  Forall below_zero skipped ->
  py_float unicode_digit (strip line) = Some a ->
  float_ltb a float_zero = false ->
  ask_amount (World e d c (skipped ++ line :: rest) out) =
    (Return a,
     World e d c rest
       (out ++ refused_amounts skipped ++
        [Print (ln "Enter amount of your expense: ")])).
Proof.
  intros Hsk Ha Hneg. revert out.
  induction Hsk as [|s sk (b & Hb & Hbneg) _ IH]; intros out.
  - cbn [app refused_amounts flat_map]. by apply ask_amount_accepts.
  - unfold ask_amount.
    rewrite loop_unfold.
    + unfold bind at 1. unfold input at 1.
      cbn [app expenses disk clock stdin stdout].
      rewrite Hb, Hbneg.
      unfold bind at 1. unfold print at 1. cbn [expenses disk clock stdin stdout].
      unfold ret at 1. fold ask_amount. rewrite IH.
      cbn [refused_amounts flat_map]. same_output.
    + intros w w' Hbody. unfold bind, input in Hbody.
      destruct w as [e1 d1 c1 [|l1 r1] out1]; cbn in Hbody; [discriminate|].
      destruct (py_float unicode_digit (strip l1)) as [x|]; [|discriminate].
      destruct (float_ltb x float_zero); [|discriminate].
      unfold print, ret in Hbody. cbn in Hbody. injection Hbody as <-. cbn. lia.
Qed.

(** X27.  Zero is an amount.  The check is [amount < 0], so a line that
    reads as zero, or as minus zero, is accepted, although the message for
    a refused amount asks for a positive number. *)
Theorem ask_amount_accepts_zero (line : str) (sign : bool) e d c rest out :
  py_float unicode_digit (strip line) = Some (S754_zero sign) ->
  ask_amount (World e d c (line :: rest) out) =
    (Return (S754_zero sign),
     World e d c rest (out ++ [Print (ln "Enter amount of your expense: ")])).
Proof. intros H. apply ask_amount_accepts; [done|by destruct sign]. Qed.

(** ** The script *)

(** X28.  A first run.  When there is no file, or a file whose text is
    not JSON, and the user leaves at once with 5, the script returns with
    the empty ledger and the file is as it was: no file is created, and a
    file that could not be read is not overwritten, before something is
    added or removed. *)
Theorem program_fresh_start (line : str) e d c rest out :
  d = Missing \/
  (exists s, d = Text s /\ json_loads recursion_limit s = Raise JSONDecodeError) ->
  py_int unicode_digit (strip line) = Some 5 ->
  program (World e d c (line :: rest) out) =
    (Return tt,
     World (VList []) d c rest
       (out ++ [dashes; Print (ln "Welcome to Expense Tracker!")] ++
        menu_lines ++
        [Print (ln "Thanks for using Expense Tracker!"); dashes])).
Proof.
  intros Hd H5. unfold program. unfold bind at 1.
  rewrite load_expenses_cases. cbn [disk].
  destruct Hd as [->|(s & -> & Hs)]; [|rewrite Hs]; cbn; by apply main_leaves.
Qed.

End Program.

(** * Instances *)

(** The statements above at concrete inputs, with the ASCII instances of
    the three library functions, on an interpreter that lets the decoder
    enter 900 arrays and objects one inside the other (the default
    recursion limit is 1000, and the callers of the scanner use a part of
    it) and with a C library that writes the year as it is. *)

Definition a_limit : nat := 900.


Lemma monthly_totals_first_seen_sums_witness :
  mapM (dated_amount ascii_digits_only) example_ledger =
    Some [(Date 1 1 2024, NFloat (whole 10)); (Date 15 1 2024, NFloat (whole 5));
          (Date 2 2 2024, NFloat (whole 7))] /\
  monthly_totals ascii_digits_only false example_ledger [] =
    match
      totals_by_month false
        [(Date 1 1 2024, NFloat (whole 10)); (Date 15 1 2024, NFloat (whole 5));
         (Date 2 2 2024, NFloat (whole 7))]
    with
    | Some totals => Return totals
    | None => Raise OverflowError
    end /\
  month_text false (1%N, 2024%N) = two_digits 1 ++ 45%N :: four_digits 2024.
Proof.
  assert (H1 : mapM (dated_amount ascii_digits_only) example_ledger =
    Some [(Date 1 1 2024, NFloat (whole 10)); (Date 15 1 2024, NFloat (whole 5));
          (Date 2 2 2024, NFloat (whole 7))]) by (vm_compute; reflexivity).
  assert (H2 : (1000 <= 2024)%N) by (vm_compute; discriminate).
  split; [exact H1|]. split.
  - exact (proj1 (proj1 (monthly_totals_first_seen_sums ascii_digits_only false)
                    _ _ H1)).
  - exact (proj1 (proj2 (monthly_totals_first_seen_sums ascii_digits_only false))
             1%N 2024%N H2).
Defined.

(** The day on which the instances below are run. *)
Definition a_day : date := Date 4 11 2026.









Lemma add_expense_amount_not_a_number_witness :
  add_expense_round ascii_digits_only ascii_capitalize repr_whole false
    (World (VList example_ledger) Missing a_day
       [lit "tea"; lit "food"; lit "two"; lit "x"] []) =
    (Return None,
     World (VList example_ledger) Missing a_day [lit "x"]
       ([] ++ entry_lines ++ [Print (ln "Please enter a valid input")])).
Proof.
  assert (H1 : ascii_capitalize (strip (lit "tea")) <> [])
    by (vm_compute; discriminate).
  assert (H2 : ascii_capitalize (strip (lit "food")) <> [])
    by (vm_compute; discriminate).
  assert (H3 : py_float ascii_digits_only (strip (lit "two")) = None)
    by (vm_compute; reflexivity).
  exact (add_expense_amount_not_a_number ascii_digits_only ascii_capitalize
           repr_whole false (lit "tea") (lit "food") (lit "two")
           (VList example_ledger) Missing a_day [lit "x"] [] H1 H2 H3).
Defined.

Lemma ask_amount_accepts_nan_witness :
  ask_amount ascii_digits_only
    (World (VList []) Missing a_day [lit " NaN "] []) =
    (Return S754_nan,
     World (VList []) Missing a_day []
       ([] ++ [Print (ln "Enter amount of your expense: ")])).
Proof.
  assert (H1 : py_float ascii_digits_only (strip (lit " NaN ")) = Some S754_nan)
    by (vm_compute; reflexivity).
  exact (ask_amount_accepts_nan ascii_digits_only (lit " NaN ")
           (VList []) Missing a_day [] [] H1).
Defined.

Lemma today_is_read_back_witness :
  strptime_dmY ascii_digits_only (strftime_dmY false a_day) = Some a_day /\
  month_key ascii_digits_only false (strftime_dmY false a_day) = Some (lit "11-2026").
Proof.
  assert (H1 : valid_date a_day = true) by (vm_compute; reflexivity).
  assert (H2 : (1000 <= year a_day)%N) by (vm_compute; discriminate).
  exact (today_is_read_back ascii_digits_only false a_day H1 H2).
Defined.

Lemma add_expense_keeps_valid_witness :
  valid_ledger ascii_digits_only
    (expenses
       (add_expense ascii_digits_only ascii_capitalize repr_whole false
          (World (VList example_ledger) Missing a_day
             [lit "tea"; lit "food"; lit "-2"; lit "2"; lit "no"] [])).2) =
    true.
Proof.
  assert (H1 : valid_ledger ascii_digits_only (VList example_ledger) = true)
    by (vm_compute; reflexivity).
  assert (H2 : valid_date a_day = true) by (vm_compute; reflexivity).
  assert (H3 : (1000 <= year a_day)%N) by (vm_compute; discriminate).
  assert (H4 : no_nan ascii_digits_only
                 [lit "tea"; lit "food"; lit "-2"; lit "2"; lit "no"])
    by (repeat (constructor; [vm_compute; discriminate|]); constructor).
  exact (add_expense_keeps_valid ascii_digits_only ascii_capitalize repr_whole false
           (World (VList example_ledger) Missing a_day
              [lit "tea"; lit "food"; lit "-2"; lit "2"; lit "no"] [])
           H1 H2 H3 H4).
Defined.

Lemma remove_expense_sublist_witness :
  post (remove_expense ascii_digits_only repr_whole)
    (World (VList example_ledger) Missing a_day
       [lit "9"; lit "1"; lit "yes"; lit "2"; lit "no"] [])
    (fun o w' =>
       o <> OutOfFuel /\ clock w' = a_day /\
       exists l',
         expenses w' = VList l' /\ l' `sublist_of` example_ledger /\
         (o = Return tt ->
          (length l' < length example_ledger)%nat /\
          disk w' = Text (json_dumps repr_whole (expenses w')))).
Proof.
  exact (remove_expense_sublist ascii_digits_only repr_whole
           (World (VList example_ledger) Missing a_day
              [lit "9"; lit "1"; lit "yes"; lit "2"; lit "no"] [])
           example_ledger eq_refl).
Defined.

Lemma remove_expense_keeps_valid_witness :
  valid_ledger ascii_digits_only
    (expenses
       (remove_expense ascii_digits_only repr_whole
          (World (VList example_ledger) Missing a_day
             [lit "9"; lit "1"; lit "yes"; lit "2"; lit "no"] [])).2) =
    true.
Proof.
  assert (H1 : valid_ledger ascii_digits_only (VList example_ledger) = true)
    by (vm_compute; reflexivity).
  exact (remove_expense_keeps_valid ascii_digits_only repr_whole
           (World (VList example_ledger) Missing a_day
              [lit "9"; lit "1"; lit "yes"; lit "2"; lit "no"] [])
           H1).
Defined.

(** The texts and the floats of [example_ledger] are read back. *)
Ltac decide_it := apply (bool_decide_unpack _); vm_compute; exact I.

Ltac no_pair :=
  cbn; repeat split; intros [H _]; vm_compute in H; discriminate H.

Lemma repr_whole_read_back (z : Z) :
  In z [10; 5; 7] -> repr_read_back repr_whole (whole z).
Proof.
  intros Hz _ rest Hrest.
  destruct (value_end_cases rest Hrest) as [->|[[r ->]|[r ->]]];
    cbn in Hz; destruct Hz as [<-|[<-|[<-|[]]]]; vm_compute; reflexivity.
Defined.

Lemma make_expense_json (dt ds ct : str) (z : Z) :
  is_text dt -> no_surrogate_pair dt ->
  is_text ds -> no_surrogate_pair ds ->
  is_text ct -> no_surrogate_pair ct ->
  In z [10; 5; 7] ->
  json_value repr_whole (make_expense dt ds ct (whole z)).
Proof.
  intros H1 H2 H3 H4 H5 H6 Hz. unfold make_expense. constructor.
  - decide_it.
  - repeat (constructor;
            [split; [decide_it|]; split; [no_pair|]; constructor; try done|]);
      [by apply repr_whole_read_back|constructor].
Defined.

Lemma example_ledger_json : json_value repr_whole (VList example_ledger).
Proof.
  constructor. unfold example_ledger.
  repeat (constructor;
          [apply make_expense_json;
           [decide_it|no_pair|decide_it|no_pair|decide_it|no_pair|cbn; tauto]|]).
  constructor.
Defined.

Lemma json_round_trip_witness :
  json_loads a_limit (json_dumps repr_whole (VList example_ledger)) =
    Return (VList example_ledger).
Proof.
  assert (H1 : (nesting (VList example_ledger) <= 100)%nat)
    by (vm_compute; repeat constructor).
  assert (H2 : (100 <= a_limit)%nat) by (unfold a_limit; lia).
  exact (json_round_trip repr_whole a_limit (VList example_ledger) H1 H2
           example_ledger_json).
Defined.

Lemma saved_ledger_is_restored_witness :
  load_expenses a_limit
    (World (VList [])
       (disk (save_expenses repr_whole
                (World (VList example_ledger) Missing a_day [] [])).2)
       a_day [lit "4"] []) =
    (Return tt,
     World (VList example_ledger)
       (disk (save_expenses repr_whole
                (World (VList example_ledger) Missing a_day [] [])).2)
       a_day [lit "4"] []).
Proof.
  assert (H1 : disk (World (VList example_ledger) Missing a_day [] []) <> Inaccessible)
    by discriminate.
  assert (H2 : (nesting (VList example_ledger) <= 100)%nat)
    by (vm_compute; repeat constructor).
  assert (H3 : (100 <= a_limit)%nat) by (unfold a_limit; lia).
  exact (proj2 (proj2 (saved_ledger_is_restored repr_whole a_limit
                         (World (VList example_ledger) Missing a_day [] [])
                         (VList []) a_day [lit "4"] [] H1 H2 H3
                         example_ledger_json))).
Defined.

Lemma main_round_invalid_choice_witness :
  main_round ascii_digits_only ascii_capitalize repr_whole false
    (World (VList example_ledger) Missing a_day [lit "6"; lit "5"] []) =
    (Return None,
     World (VList example_ledger) Missing a_day [lit "5"]
       ([] ++ menu_lines ++ [Print (ln "Please choose between 1 and 5")])).
Proof.
  assert (H : ~ (exists n, py_int ascii_digits_only (strip (lit "6")) = Some n /\
                           1 <= n <= 5)).
  { intros (n & Hn & Hr). vm_compute in Hn. injection Hn as <-. lia. }
  exact (main_round_invalid_choice ascii_digits_only ascii_capitalize repr_whole false
           (lit "6") (VList example_ledger) Missing a_day [lit "5"] [] H).
Defined.

Lemma main_exit_witness :
  main ascii_digits_only ascii_capitalize repr_whole false
    (World (VList example_ledger) Missing a_day [lit " 5 "] []) =
    (Return tt,
     World (VList example_ledger) Missing a_day []
       ([] ++ [dashes; Print (ln "Welcome to Expense Tracker!")] ++
        menu_lines ++
        [Print (ln "Thanks for using Expense Tracker!"); dashes])).
Proof.
  assert (H : py_int ascii_digits_only (strip (lit " 5 ")) = Some 5)
    by (vm_compute; reflexivity).
  exact (main_exit ascii_digits_only ascii_capitalize repr_whole false
           (lit " 5 ") (VList example_ledger) Missing a_day [] [] H).
Defined.

(** A ledger as a file edited by hand can give it: the date is written
    year first. *)
Definition year_first_ledger : list value :=
  [make_expense (lit "2024-01-01") (lit "Lunch") (lit "Food") (whole 10)].

Lemma main_round_summary_raises_witness :
  main_round ascii_digits_only ascii_capitalize repr_whole false
    (World (VList year_first_ledger) Missing a_day [lit "4"] []) =
    (Return None,
     World (VList year_first_ledger) Missing a_day []
       ([] ++ menu_lines ++
        [dashes; Print (ln "Please enter a valid integer")])).
Proof.
  assert (H1 : py_int ascii_digits_only (strip (lit "4")) = Some 4)
    by (vm_compute; reflexivity).
  assert (H2 : year_first_ledger <> []) by discriminate.
  assert (H3 : monthly_totals ascii_digits_only false year_first_ledger [] =
               Raise ValueError) by (vm_compute; reflexivity).
  exact (main_round_summary_raises ascii_digits_only ascii_capitalize
           repr_whole false (lit "4") year_first_ledger ValueError Missing a_day
           [] [] H1 H2 H3).
Defined.


Lemma ask_again_first_answer_witness :
  ask_again (lit "again? ")
    (World (VList []) Missing a_day [lit "maybe"; lit ""; lit " YES "; lit "no"] []) =
    (Return (lit "yes"),
     World (VList []) Missing a_day [lit "no"]
       ([] ++ asked_again (lit "again? ") [lit "maybe"; lit ""] ++
        [Print (lit "again? ")])).
Proof.
  assert (H1 : Forall (fun s => is_answer s = false) [lit "maybe"; lit ""])
    by (repeat (constructor; [vm_compute; reflexivity|]); constructor).
  assert (H2 : is_answer (lit " YES ") = true) by (vm_compute; reflexivity).
  exact (ask_again_first_answer (lit "again? ") [lit "maybe"; lit ""]
           (lit " YES ") (VList []) Missing a_day [lit "no"] [] H1 H2).
Defined.

Lemma monthly_summary_valid_witness :
  exists das totals,
    mapM (dated_amount ascii_digits_only) example_ledger = Some das /\
    totals_by_month false das = Some totals /\
    monthly_summary ascii_digits_only false
      (World (VList example_ledger) Missing a_day [] []) =
      (Return tt,
       World (VList example_ledger) Missing a_day []
         ([] ++ summary_lines totals)).
Proof.
  assert (H1 : example_ledger <> []) by discriminate.
  assert (H2 : valid_ledger ascii_digits_only (VList example_ledger) = true)
    by (vm_compute; reflexivity).
  exact (monthly_summary_valid ascii_digits_only false example_ledger Missing
           a_day [] [] H1 H2).
Defined.

Lemma add_expense_unwritable_witness :
  add_expense ascii_digits_only ascii_capitalize repr_whole false
    (World (VList example_ledger) Inaccessible a_day
       [lit "tea"; lit "food"; lit "2"; lit "no"] []) =
    (Raise OSError,
     World (VList (example_ledger ++
                   [make_expense (strftime_dmY false a_day)
                      (ascii_capitalize (strip (lit "tea")))
                      (ascii_capitalize (strip (lit "food"))) (whole 2)]))
       Inaccessible a_day [lit "no"] ([] ++ [dashes] ++ entry_lines)).
Proof.
  assert (H1 : ascii_capitalize (strip (lit "tea")) <> [])
    by (vm_compute; discriminate).
  assert (H2 : ascii_capitalize (strip (lit "food")) <> [])
    by (vm_compute; discriminate).
  assert (H3 : py_float ascii_digits_only (strip (lit "2")) = Some (whole 2))
    by (vm_compute; reflexivity).
  assert (H4 : float_ltb (whole 2) float_zero = false)
    by (vm_compute; reflexivity).
  exact (add_expense_unwritable ascii_digits_only ascii_capitalize repr_whole false
           example_ledger (lit "tea") (lit "food") (lit "2") (whole 2)
           a_day [lit "no"] [] H1 H2 H3 H4).
Defined.


Lemma ask_amount_first_valid_witness :
  ask_amount ascii_digits_only
    (World (VList []) Missing a_day [lit "-2"; lit " -0.5"; lit "2"; lit "x"] []) =
    (Return (whole 2),
     World (VList []) Missing a_day [lit "x"]
       ([] ++ refused_amounts [lit "-2"; lit " -0.5"] ++
        [Print (ln "Enter amount of your expense: ")])).
Proof.
  assert (H1 : Forall (below_zero ascii_digits_only) [lit "-2"; lit " -0.5"]).
  { repeat (constructor;
            [eexists; split; [vm_compute; reflexivity|vm_compute; reflexivity]|]).
    constructor. }
  assert (H2 : py_float ascii_digits_only (strip (lit "2")) = Some (whole 2))
    by (vm_compute; reflexivity).
  assert (H3 : float_ltb (whole 2) float_zero = false)
    by (vm_compute; reflexivity).
  exact (ask_amount_first_valid ascii_digits_only [lit "-2"; lit " -0.5"]
           (lit "2") (whole 2) (VList []) Missing a_day [lit "x"] [] H1 H2 H3).
Defined.

Lemma ask_amount_accepts_zero_witness :
  ask_amount ascii_digits_only
    (World (VList []) Missing a_day [lit "-0.0"] []) =
    (Return (S754_zero true),
     World (VList []) Missing a_day []
       ([] ++ [Print (ln "Enter amount of your expense: ")])).
Proof.
  assert (H : py_float ascii_digits_only (strip (lit "-0.0")) =
              Some (S754_zero true)) by (vm_compute; reflexivity).
  exact (ask_amount_accepts_zero ascii_digits_only (lit "-0.0") true
           (VList []) Missing a_day [] [] H).
Defined.

Lemma program_fresh_start_witness :
  program ascii_digits_only ascii_capitalize repr_whole a_limit false
    (World VNone (Text (lit "[1, 2")) a_day [lit "5"] []) =
    (Return tt,
     World (VList []) (Text (lit "[1, 2")) a_day []
       ([] ++ [dashes; Print (ln "Welcome to Expense Tracker!")] ++
        menu_lines ++
        [Print (ln "Thanks for using Expense Tracker!"); dashes])).
Proof.
  assert (H1 : Text (lit "[1, 2") = Missing \/
               exists s, Text (lit "[1, 2") = Text s /\
                         json_loads a_limit s = Raise JSONDecodeError)
    by (right; eexists; split; [reflexivity|vm_compute; reflexivity]).
  assert (H2 : py_int ascii_digits_only (strip (lit "5")) = Some 5)
    by (vm_compute; reflexivity).
  exact (program_fresh_start ascii_digits_only ascii_capitalize repr_whole a_limit false
           (lit "5") VNone (Text (lit "[1, 2")) a_day [] [] H1 H2).
Defined.
